(** * Tavari voice agent: the call-session bridge of [server.js]

    A shallow embedding of the two PCM16 resamplers and of the event
    handlers of [server.js] (Telnyx webhook, OpenAI Realtime socket,
    Telnyx media socket), with the properties of the specification stated
    and settled on it.

    Conventions of the embedding.
    - A Node [Buffer] is a [list byte]; offsets and sample values are [Z].
      A buffer from [Buffer.allocUnsafe] starts with arbitrary content and
      carries, per byte, a ghost count of the stores made to it.
    - An exception raised by a [Buffer] accessor is the [RangeError]
      result.
    - JavaScript numbers are doubles; the one computation that is not on
      integers, the interpolation, is done in exact rationals, and
      compared with its double-precision form ([Double],
      [rounding_is_robust]).
    - Handlers run to completion, one at a time, as on Node's event loop.
      Each is a function from the process state to the new state and the
      list of actions it issued on its collaborators: HTTP call-control
      requests, socket creations, sends and closes.  What the [ws] and
      [axios] libraries do with an action is outside [server.js], with
      one exception: [ws.send] throws on a socket that is still
      connecting, which ends the handler in its [catch].  The one
      [await] that is followed by code, in [handleCallInitiated], ends
      its handler, and the rest runs on the event [AnswerSettled].
    - [sessions] and [wsCallMap] are JavaScript [Map]s: association lists
      in insertion order.  Console logging is not modelled. *)

From Stdlib Require Import Strings.Byte Strings.String.
From Stdlib Require Import ZArith List Bool Lia QArith Qround Qabs Lqa.
From Stdlib Require Import Floats.PrimFloat Floats.SpecFloat Floats.FloatOps Uint63.
From Stdlib Require Import Permutation.
Import ListNotations.

Open Scope Z_scope.

(* ================================================================== *)
(** * Buffers                                                          *)
(* ================================================================== *)

Module Buf.

Definition Buffer := list byte.

(** Results of code that can throw. *)
Inductive result (A : Type) : Type :=
| Ok (a : A)
| RangeError.
Arguments Ok {A} a.
Arguments RangeError {A}.

Definition bind {A B} (r : result A) (k : A -> result B) : result B :=
  match r with
  | Ok a => k a
  | RangeError => RangeError
  end.

Notation "x <- r ;; k" := (bind r (fun x => k))
  (at level 61, r at next level, right associativity).

Definition len {A} (b : list A) : Z := Z.of_nat (List.length b).

Definition byte_to_Z (b : byte) : Z := Z.of_N (Byte.to_N b).

(** Storing a number into a [Uint8Array] cell keeps it modulo 256. *)
Definition byte_of_Z (z : Z) : byte :=
  match Byte.of_N (Z.to_N (z mod 256)) with
  | Some b => b
  | None => x00
  end.

(** The value [readInt16LE] builds from the two bytes at its offset. *)
Definition int16_of_bytes (lo hi : byte) : Z :=
  let u := byte_to_Z lo + byte_to_Z hi * 256 in
  if u >=? 32768 then u - 65536 else u.

(** [buf.readInt16LE(offset)]: throws when the two bytes are not inside
    the buffer. *)
Definition readInt16LE (buf : Buffer) (offset : Z) : result Z :=
  if (0 <=? offset) && (offset + 2 <=? len buf) then
    match nth_error buf (Z.to_nat offset),
          nth_error buf (Z.to_nat offset + 1) with
    | Some lo, Some hi => Ok (int16_of_bytes lo hi)
    | _, _ => RangeError
    end
  else RangeError.

(** A cell of a buffer obtained from [Buffer.allocUnsafe]: its current
    content, and how many times it has been stored to since allocation
    (the counter is ghost state, it has no run-time counterpart). *)
Record Cell := mkCell { cell_val : byte; cell_writes : nat }.

Definition OutBuffer := list Cell.

(** [Buffer.allocUnsafe(size)]: [size] cells holding whatever the memory
    held before, given by [garbage]. *)
Definition allocUnsafe (garbage : nat -> byte) (size : Z) : OutBuffer :=
  map (fun k => mkCell (garbage k) 0) (seq 0 (Z.to_nat size)).

Definition store (v : byte) (c : Cell) : Cell :=
  mkCell v (S (cell_writes c)).

Fixpoint update_nth {A} (n : nat) (f : A -> A) (l : list A) : list A :=
  match l, n with
  | [], _ => []
  | x :: t, O => f x :: t
  | x :: t, S k => x :: update_nth k f t
  end.

(** [buf.writeInt16LE(value, offset)]: throws when the value is not a
    16-bit signed integer or the two bytes are not inside the buffer. *)
Definition writeInt16LE (out : OutBuffer) (value offset : Z) : result OutBuffer :=
  if (-32768 <=? value) && (value <=? 32767) then
    if (0 <=? offset) && (offset + 2 <=? len out) then
      Ok (update_nth (Z.to_nat offset + 1) (store (byte_of_Z (value / 256)))
            (update_nth (Z.to_nat offset) (store (byte_of_Z value)) out))
    else RangeError
  else RangeError.

(** The buffer handed back to the caller. *)
Definition contents (out : OutBuffer) : Buffer := map cell_val out.

(** [for (let i = i0; ...; i++) body], for a trip count known on entry. *)
Fixpoint for_loop {S} (count : nat) (i : Z) (body : Z -> S -> result S) (s : S)
  : result S :=
  match count with
  | O => Ok s
  | Datatypes.S k =>
      match body i s with
      | Ok s' => for_loop k (i + 1) body s'
      | RangeError => RangeError
      end
  end.

(** The complete PCM16 samples of a buffer; a trailing odd byte carries no
    sample. *)
Fixpoint samples (b : Buffer) : list Z :=
  match b with
  | lo :: hi :: t => int16_of_bytes lo hi :: samples t
  | _ => []
  end.

End Buf.
Import Buf.

(* ================================================================== *)
(** * The resamplers                                                   *)
(* ================================================================== *)

Module Resampler.

(** ** 24 kHz to 8 kHz *)

(** Guard of the "don't go beyond buffer bounds" branch. *)
Definition down_beyond_bounds (inputBuffer : Buffer) (i : Z) : bool :=
  let inputIndex := i * 3 in
  let inputSampleIndex := inputIndex * 2 in
  inputSampleIndex + 1 >=? len inputBuffer.

Definition down_body (inputBuffer : Buffer) (i : Z) (outputBuffer : OutBuffer)
  : result OutBuffer :=
  let inputIndex := i * 3 in
  let inputSampleIndex := inputIndex * 2 in
  if down_beyond_bounds inputBuffer i then
    let lastSampleIndex := Z.max 0 ((len inputBuffer - 2) / 2 * 2) in
    lastSample <- readInt16LE inputBuffer lastSampleIndex ;;
    writeInt16LE outputBuffer lastSample (i * 2)
  else
    sample <- readInt16LE inputBuffer inputSampleIndex ;;
    writeInt16LE outputBuffer sample (i * 2).

(** [resample24kHzTo8kHz], returning the output buffer with its cells'
    store counters. *)
Definition resample24kHzTo8kHz_cells (garbage : nat -> byte) (inputBuffer : Buffer)
  : result OutBuffer :=
  if len inputBuffer <? 2 then Ok []
  else
    let inputSamples := len inputBuffer / 2 in
    let outputSamples := inputSamples / 3 in
    let outputBuffer := allocUnsafe garbage (outputSamples * 2) in
    for_loop (Z.to_nat outputSamples) 0 (down_body inputBuffer) outputBuffer.

Definition resample24kHzTo8kHz (garbage : nat -> byte) (inputBuffer : Buffer)
  : result Buffer :=
  out <- resample24kHzTo8kHz_cells garbage inputBuffer ;; Ok (contents out).

(** ** 8 kHz to 24 kHz *)

(** [Math.round]: the nearest integer, halves going up.  The argument is
    an exact rational where JavaScript has a double: see [Double] and
    [rounding_is_robust] for why the results are the same. *)
Definition Math_round (x : Q) : Z := Qfloor (x + (1 # 2))%Q.

Definition clamp16 (v : Z) : Z := Z.max (-32768) (Z.min 32767 v).

(** Guard of the "use last sample" branch. *)
Definition up_at_end (inputSamples i : Z) : bool :=
  let inputPos := ((i # 1) / (3 # 1))%Q in
  let inputIndex := Qfloor inputPos in
  inputIndex >=? inputSamples - 1.

(** Guard of the store inside the "use last sample" branch. *)
Definition up_last_inside (inputBuffer : Buffer) (inputSamples : Z) : bool :=
  let lastSampleIndex := (inputSamples - 1) * 2 in
  lastSampleIndex + 1 <? len inputBuffer.

(** Guard of the "indices within bounds" fallback. *)
Definition up_beyond_bounds (inputBuffer : Buffer) (i : Z) : bool :=
  let inputPos := ((i # 1) / (3 # 1))%Q in
  let inputIndex := Qfloor inputPos in
  let sample1Index := inputIndex * 2 in
  let sample2Index := (inputIndex + 1) * 2 in
  (sample1Index + 1 >=? len inputBuffer) || (sample2Index + 1 >=? len inputBuffer).

Definition up_body (inputBuffer : Buffer) (inputSamples : Z) (i : Z)
  (outputBuffer : OutBuffer) : result OutBuffer :=
  let inputPos := ((i # 1) / (3 # 1))%Q in
  let inputIndex := Qfloor inputPos in
  let fraction := (inputPos - (inputIndex # 1))%Q in
  if up_at_end inputSamples i then
    let lastSampleIndex := (inputSamples - 1) * 2 in
    if up_last_inside inputBuffer inputSamples then
      lastSample <- readInt16LE inputBuffer lastSampleIndex ;;
      writeInt16LE outputBuffer lastSample (i * 2)
    else Ok outputBuffer
  else
    let sample1Index := inputIndex * 2 in
    let sample2Index := (inputIndex + 1) * 2 in
    if up_beyond_bounds inputBuffer i then
      let lastSampleIndex := Z.max 0 ((len inputBuffer - 2) / 2 * 2) in
      lastSample <- readInt16LE inputBuffer lastSampleIndex ;;
      writeInt16LE outputBuffer lastSample (i * 2)
    else
      sample1 <- readInt16LE inputBuffer sample1Index ;;
      sample2 <- readInt16LE inputBuffer sample2Index ;;
      let interpolated :=
        Math_round ((sample1 # 1) + ((sample2 - sample1) # 1) * fraction)%Q in
      let clamped := clamp16 interpolated in
      writeInt16LE outputBuffer clamped (i * 2).

Definition resample8kHzTo24kHz_cells (garbage : nat -> byte) (inputBuffer : Buffer)
  : result OutBuffer :=
  if len inputBuffer <? 2 then Ok []
  else
    let inputSamples := len inputBuffer / 2 in
    let outputSamples := inputSamples * 3 in
    let outputBuffer := allocUnsafe garbage (outputSamples * 2) in
    for_loop (Z.to_nat outputSamples) 0 (up_body inputBuffer inputSamples) outputBuffer.

Definition resample8kHzTo24kHz (garbage : nat -> byte) (inputBuffer : Buffer)
  : result Buffer :=
  out <- resample8kHzTo24kHz_cells garbage inputBuffer ;; Ok (contents out).

End Resampler.

(* ================================================================== *)
(** * What the loops store, in closed form                             *)
(* ================================================================== *)

Module Closed.
Import Resampler.

(** The loop indices [i0, i0+1, ...]. *)
Fixpoint zrange (i0 : Z) (count : nat) : list Z :=
  match count with
  | O => []
  | S k => i0 :: zrange (i0 + 1) k
  end.

Definition encode16 (v : Z) : list byte := [byte_of_Z v; byte_of_Z (v / 256)].

(** Storing the samples [vals] one after the other over the cells [rest]. *)
Fixpoint fill (vals : list Z) (rest : OutBuffer) : OutBuffer :=
  match vals, rest with
  | v :: vs, c0 :: c1 :: r =>
      store (byte_of_Z v) c0 :: store (byte_of_Z (v / 256)) c1 :: fill vs r
  | _, _ => rest
  end.

(** The sample stored by trip [i] of the downsampling loop. *)
Definition down_val (inputBuffer : Buffer) (i : Z) : Z :=
  nth (Z.to_nat (i * 3)) (samples inputBuffer) 0.

Definition down_count (inputBuffer : Buffer) : Z := len inputBuffer / 2 / 3.

Definition up_count (inputBuffer : Buffer) : Z := len inputBuffer / 2 * 3.

(** The sample stored by trip [i] of the upsampling loop. *)
Definition up_val (inputBuffer : Buffer) (i : Z) : Z :=
  let xs := samples inputBuffer in
  let inputSamples := len inputBuffer / 2 in
  let inputIndex := i / 3 in
  if inputIndex >=? inputSamples - 1 then
    nth (Z.to_nat (inputSamples - 1)) xs 0
  else
    let sample1 := nth (Z.to_nat inputIndex) xs 0 in
    let sample2 := nth (Z.to_nat (inputIndex + 1)) xs 0 in
    clamp16 ((6 * sample1 + 2 * (sample2 - sample1) * (i mod 3) + 3) / 6).

(** The input without its odd trailing byte, if it has one. *)
Definition whole_samples (b : Buffer) : Buffer :=
  firstn (2 * Nat.div2 (List.length b)) b.

End Closed.
Import Closed.

(* ================================================================== *)
(** * The resampling contract of the specification                     *)
(* ================================================================== *)

Module Spec.
Import Resampler.

(** Section 4.1, upsampling by 3: the linear interpolation between input
    samples [p/3] and [p/3 + 1], weighted by the fractional offset of
    position [p]. *)
Definition interpolation (xs : list Z) (p : Z) : Q :=
  let j := p / 3 in
  let offset := ((p # 3) - (j # 1))%Q in
  let a := nth (Z.to_nat j) xs 0 in
  let b := nth (Z.to_nat (j + 1)) xs 0 in
  ((a # 1) * (1 - offset) + (b # 1) * offset)%Q.

(** Section 4.1: the interpolation, rounded to the nearest integer and
    clamped to the 16-bit range, inside a complete interval; the last
    input sample at and beyond the final one. *)
Definition upsample_at (xs : list Z) (p : Z) : Z :=
  if p / 3 + 1 <? len xs
  then clamp16 (Math_round (interpolation xs p))
  else nth (Z.to_nat (len xs - 1)) xs 0.

(** Section 4.1, downsampling by 3: output sample [i] is input sample
    [3 i]. *)
Definition downsample_at (xs : list Z) (i : Z) : Z :=
  nth (Z.to_nat (3 * i)) xs 0.

(** The input cut after its last whole group of three samples. *)
Definition whole_groups (b : Buffer) : Buffer :=
  firstn (6 * (List.length b / 6)) b.

(** [o] is an integer nearest to the exact interpolation at position [p],
    which is [((3 - r) * x_j + r * x_(j+1)) / 3] for [p = 3 j + r]. *)
Definition nearest_to_interpolation (xs : list Z) (p o : Z) : Prop :=
  let j := p / 3 in
  let r := p mod 3 in
  Z.abs (3 * o - ((3 - r) * nth (Z.to_nat j) xs 0 +
                  r * nth (Z.to_nat (j + 1)) xs 0)) <= 1.

(** [o1], [o2] lie between [s0] and [s1], in the order of [s0] and [s1]. *)
Definition monotonic_between (s0 o1 o2 s1 : Z) : Prop :=
  (s0 <= o1 /\ o1 <= o2 /\ o2 <= s1) \/ (s1 <= o2 /\ o2 <= o1 /\ o1 <= s0).

End Spec.

(* ================================================================== *)
(** * The interpolation in IEEE double precision                       *)
(* ================================================================== *)

(** JavaScript numbers are IEEE doubles.  The model of
    [resample8kHzTo24kHz] above computes the interpolation in exact
    rationals; this module has the same expression in primitive binary64
    floats, to compare the two ([rounding_is_robust] and
    [double_agrees_on_grid] below). *)
Module Double.

Definition double_of_Z (z : Z) : float :=
  if z <? 0 then PrimFloat.opp (PrimFloat.of_uint63 (Uint63.of_Z (- z)))
  else PrimFloat.of_uint63 (Uint63.of_Z z).

(** [floor (x + a / 2)] of a finite double, computed exactly. *)
Definition floor_plus_half (a : Z) (x : float) : Z :=
  match Prim2SF x with
  | S754_finite s m e =>
      let n := if s then Z.neg m else Z.pos m in
      if 0 <=? e then n * 2 ^ e
      else (2 * n + a * 2 ^ (- e)) / 2 ^ (- e + 1)
  | _ => 0
  end.

Definition Math_floor (x : float) : Z := floor_plus_half 0 x.
Definition Math_round (x : float) : Z := floor_plus_half 1 x.

(** Lines 76-78 and 109 of [server.js]. *)
Definition interpolated (sample1 sample2 i : Z) : Z :=
  let inputPos := PrimFloat.div (double_of_Z i) (double_of_Z 3) in
  let inputIndex := Math_floor inputPos in
  let fraction := PrimFloat.sub inputPos (double_of_Z inputIndex) in
  Math_round
    (PrimFloat.add (double_of_Z sample1)
       (PrimFloat.mul
          (PrimFloat.sub (double_of_Z sample2) (double_of_Z sample1))
          fraction)).

(** Sample values and output positions to compare on. *)
Definition sample_grid : list Z :=
  [-32768; -32767; -32766; -20000; -16385; -16384; -3; -2; -1; 0; 1; 2; 3; 4;
   5; 6; 7; 255; 256; 12345; 16383; 16384; 32765; 32766; 32767].

Definition position_grid : list Z :=
  [0; 1; 2; 3; 4; 5; 6; 7; 8; 478; 479; 3000001; 3000002; 4294967294;
   4294967296; 4294967297].

End Double.

(* ================================================================== *)
(** * The call-session bridge                                          *)
(* ================================================================== *)

Module Bridge.
Import Resampler.

(** ** Values *)

(** A JavaScript value that is a string, or [undefined] / [null]. *)
Definition JsStr := option string.

Definition str (s : string) : JsStr := Some s.

(** Truthiness of such a value: a non-empty string. *)
Definition truthy (v : JsStr) : bool :=
  match v with
  | Some s => negb (String.eqb s EmptyString)
  | None => false
  end.

(** [a || b] *)
Definition js_or (a b : JsStr) : JsStr := if truthy a then a else b.

Definition JsStr_eqb (a b : JsStr) : bool :=
  match a, b with
  | Some x, Some y => String.eqb x y
  | None, None => true
  | _, _ => false
  end.

(** Socket objects are told apart by a number; the two kinds of socket
    (client sockets to OpenAI, server-side sockets from Telnyx) are
    numbered apart. *)
Definition OpenAIWs := nat.
Definition TelnyxWs := nat.
Bind Scope nat_scope with OpenAIWs TelnyxWs.

(** [ws.readyState] *)
Inductive ReadyState := CONNECTING | OPEN | CLOSING | CLOSED.

Definition is_open (r : option ReadyState) : bool :=
  match r with Some OPEN => true | _ => false end.

(** A socket whose handshake has not completed.  On such a socket
    [ws.send] throws; on a socket that is closing or closed it returns
    without sending. *)
Definition is_connecting (r : option ReadyState) : bool :=
  match r with Some CONNECTING => true | _ => false end.

(** ** A JavaScript [Map], in insertion order *)

Section JsMap.
Context {K V : Type} (eqb : K -> K -> bool).

Fixpoint get (m : list (K * V)) (k : K) : option V :=
  match m with
  | [] => None
  | (k', v) :: t => if eqb k' k then Some v else get t k
  end.

(** [m.set(k, v)]: in place for a key already there, at the end
    otherwise. *)
Fixpoint set (m : list (K * V)) (k : K) (v : V) : list (K * V) :=
  match m with
  | [] => [(k, v)]
  | (k', v') :: t =>
      if eqb k' k then (k', v) :: t else (k', v') :: set t k v
  end.

(** [m.delete(k)] *)
Definition delete (m : list (K * V)) (k : K) : list (K * V) :=
  filter (fun e => negb (eqb (fst e) k)) m.

(** Assignment to fields of the object stored under [k]. *)
Definition update (m : list (K * V)) (k : K) (f : V -> V) : list (K * V) :=
  map (fun e => if eqb (fst e) k then (fst e, f (snd e)) else e) m.
End JsMap.

(** ** Sessions *)

(** The object stored in [sessions] by [startOpenAIRealtimeSession]
    ([startedAt], a date that is never read, is left out;
    [pendingCallControlId] is absent until [handleCallAnswered] sets it). *)
Record Session := mkSession {
  openaiWs : OpenAIWs;
  callControlId : JsStr;
  sessionReady : bool;
  telnyxWs : option TelnyxWs;
  pendingMediaStart : bool;
  pendingCallControlId : JsStr;
  hasActiveResponse : bool;
  audioQueue : list Buffer
}.

Definition set_sessionReady (v : bool) (s : Session) : Session :=
  mkSession (openaiWs s) (callControlId s) v (telnyxWs s)
    (pendingMediaStart s) (pendingCallControlId s) (hasActiveResponse s)
    (audioQueue s).

Definition set_telnyxWs (v : option TelnyxWs) (s : Session) : Session :=
  mkSession (openaiWs s) (callControlId s) (sessionReady s) v
    (pendingMediaStart s) (pendingCallControlId s) (hasActiveResponse s)
    (audioQueue s).

Definition set_pending (p : bool) (c : JsStr) (s : Session) : Session :=
  mkSession (openaiWs s) (callControlId s) (sessionReady s) (telnyxWs s)
    p c (hasActiveResponse s) (audioQueue s).

Definition set_hasActiveResponse (v : bool) (s : Session) : Session :=
  mkSession (openaiWs s) (callControlId s) (sessionReady s) (telnyxWs s)
    (pendingMediaStart s) (pendingCallControlId s) v (audioQueue s).

Definition set_audioQueue (q : list Buffer) (s : Session) : Session :=
  mkSession (openaiWs s) (callControlId s) (sessionReady s) (telnyxWs s)
    (pendingMediaStart s) (pendingCallControlId s) (hasActiveResponse s) q.

(** ** The process state *)

Record World := mkWorld {
  sessions : list (JsStr * Session);          (* const sessions = new Map() *)
  wsCallMap : list (TelnyxWs * JsStr);        (* ws -> wsInfo.callId *)
  openaiState : list (OpenAIWs * ReadyState); (* readyState of each socket *)
  telnyxState : list (TelnyxWs * ReadyState);
  nextWs : OpenAIWs                           (* sockets created so far *)
}.

Definition initial : World := mkWorld [] [] [] [] 0.

Definition with_sessions (w : World) (m : list (JsStr * Session)) : World :=
  mkWorld m (wsCallMap w) (openaiState w) (telnyxState w) (nextWs w).

Definition with_wsCallMap (w : World) (m : list (TelnyxWs * JsStr)) : World :=
  mkWorld (sessions w) m (openaiState w) (telnyxState w) (nextWs w).

Definition with_openaiState (w : World) (m : list (OpenAIWs * ReadyState)) : World :=
  mkWorld (sessions w) (wsCallMap w) m (telnyxState w) (nextWs w).

Definition with_telnyxState (w : World) (m : list (TelnyxWs * ReadyState)) : World :=
  mkWorld (sessions w) (wsCallMap w) (openaiState w) m (nextWs w).

Definition session_of (w : World) (callId : JsStr) : option Session :=
  get JsStr_eqb (sessions w) callId.

Definition mutate (w : World) (callId : JsStr) (f : Session -> Session) : World :=
  with_sessions w (update JsStr_eqb (sessions w) callId f).

(** ** What the handlers do to the outside *)

(** Messages sent to OpenAI. *)
Inductive ClientMsg :=
| session_update
| conversation_item_create
| response_create
| input_audio_buffer_append (audio : Buffer).

Inductive Action :=
| AnswerCall (callControlId : JsStr)        (* POST calls/<id>/actions/answer *)
| StartMediaStream (callControlId : JsStr)  (* POST calls/<id>/actions/streaming_start *)
| ConnectOpenAI (ws : OpenAIWs)             (* new WebSocket(...) *)
| SendOpenAI (ws : OpenAIWs) (m : ClientMsg)  (* a call of ws.send that returns *)
| CloseOpenAI (ws : OpenAIWs)
| SendTelnyx (ws : TelnyxWs) (payload : Buffer). (* {event:'media', media:{payload}} *)

(** ** What the handlers receive *)

(** [event.payload] of a webhook. *)
Record Payload := mkPayload {
  call_control_id : JsStr;
  call_session_id : JsStr
}.

(** A parsed message from OpenAI, by its [type]. *)
Inductive ServerMsg :=
| session_updated
| conversation_item_created (item : option JsStr)
    (* [message.item] absent, or the [role] of the item *)
| response_audio_delta (delta : option Buffer)
    (* [message.delta] absent or empty, or the bytes it encodes *)
| response_done
| other_message.     (* the types that are only logged *)

(** The argument of the media socket's message handler. *)
Inductive Data :=
| Binary (b : Buffer)       (* a Buffer *)
| JsonText                  (* a string that parses as JSON *)
| RawText (b : Buffer).     (* another string, with the bytes it stands for *)

Inductive Event :=
| Webhook (event_type : string) (payload : option Payload)
| AnswerSettled (callId callControlId : JsStr) (ok : bool)
    (* the rest of handleCallInitiated, once [await answerCall] settles *)
| OpenAIOpen (callId : JsStr) (ws : OpenAIWs)
| OpenAIMessage (callId : JsStr) (ws : OpenAIWs) (m : ServerMsg)
| OpenAIError (callId : JsStr) (ws : OpenAIWs)
| OpenAIClose (callId : JsStr) (ws : OpenAIWs)
| TelnyxConnection (ws : TelnyxWs) (call_id : JsStr)
| TelnyxMessage (ws : TelnyxWs) (data : Data)
| TelnyxClose (ws : TelnyxWs).

Definition Outcome := (World * list Action)%type.

(** Sequencing of two pieces of a handler. *)
Definition andThen (o : Outcome) (k : World -> Outcome) : Outcome :=
  let (w1, a1) := o in
  let (w2, a2) := k w1 in
  (w2, a1 ++ a2).

(** ** Webhook handlers *)

Definition webhook_callId (payload : option Payload) : JsStr :=
  match payload with
  | Some p => js_or (call_control_id p) (call_session_id p)
  | None => None
  end.

(** [handleCallInitiated], up to [await answerCall(...)]. *)
Definition handleCallInitiated (payload : option Payload) (callId : JsStr)
    (w : World) : Outcome :=
  match payload with
  | Some p => (w, [AnswerCall (call_control_id p)])
  | None => (w, [])      (* TypeError, caught *)
  end.

(** [startOpenAIRealtimeSession] *)
Definition startOpenAIRealtimeSession (callId callControlId : JsStr)
    (w : World) : Outcome :=
  let ws := nextWs w in
  let session := mkSession ws callControlId false None false None false [] in
  (mkWorld (set JsStr_eqb (sessions w) callId session)
     (wsCallMap w)
     (set Nat.eqb (openaiState w) ws CONNECTING)
     (telnyxState w)
     (S ws),
   [ConnectOpenAI ws]).

(** [handleCallAnswered] *)
Definition handleCallAnswered (payload : option Payload) (callId : JsStr)
    (w : World) : Outcome :=
  match payload with
  | None => (w, [])      (* TypeError, caught *)
  | Some p =>
      let callControlId := call_control_id p in
      match session_of w callId with
      | Some session =>
          if sessionReady session then (w, [StartMediaStream callControlId])
          else (mutate w callId (set_pending true callControlId), [])
      | None => (w, [])
      end
  end.

(** [ws.close()] on a socket to OpenAI. *)
Definition close_openai (ws : OpenAIWs) (w : World) : World :=
  match get Nat.eqb (openaiState w) ws with
  | Some CLOSED => w
  | _ => with_openaiState w (set Nat.eqb (openaiState w) ws CLOSING)
  end.

(** [handleCallHangup] *)
Definition handleCallHangup (callId : JsStr) (w : World) : Outcome :=
  match session_of w callId with
  | Some session =>
      let w1 := close_openai (openaiWs session) w in
      (with_sessions w1 (delete JsStr_eqb (sessions w1) callId),
       [CloseOpenAI (openaiWs session)])
  | None => (w, [])
  end.

(** [app.post('/webhook', ...)] *)
Definition webhook (event_type : string) (payload : option Payload)
    (w : World) : Outcome :=
  let callId := webhook_callId payload in
  if String.eqb event_type "call.initiated"%string then
    handleCallInitiated payload callId w
  else if String.eqb event_type "call.answered"%string then
    handleCallAnswered payload callId w
  else if String.eqb event_type "call.hangup"%string
       || String.eqb event_type "call.bridged"%string then
    handleCallHangup callId w
  else (w, []).

(** ** Outbound audio *)

Definition relay_open (w : World) (session : Session) : option TelnyxWs :=
  match telnyxWs session with
  | Some t => if is_open (get Nat.eqb (telnyxState w) t) then Some t else None
  | None => None
  end.

(** [sendAudioToTelnyx] *)
Definition sendAudioToTelnyx (callId : JsStr) (audioBuffer : Buffer)
    (w : World) : Outcome :=
  match session_of w callId with
  | None => (w, [])
  | Some session =>
      if len audioBuffer =? 0 then (w, [])
      else
        match relay_open w session with
        | Some t =>
            let queue := audioQueue session in
            (mutate w callId (set_audioQueue []),
             SendTelnyx t audioBuffer :: map (SendTelnyx t) queue)
        | None =>
            (mutate w callId
               (fun s => set_audioQueue (audioQueue s ++ [audioBuffer]) s),
             [])
        end
  end.

(** The content of a buffer from [Buffer.allocUnsafe] before it is
    written; the results of the resamplers do not depend on it. *)
Definition unspecified : nat -> byte := fun _ => x00.

(** ** The OpenAI socket *)

Definition is_user (item : option JsStr) : bool :=
  match item with
  | Some (Some role) => String.eqb role "user"%string
  | _ => false
  end.

(** [ws.on('message', ...)] of the socket [ws] opened for [callId]. *)
Definition onOpenAIMessage (callId : JsStr) (ws : OpenAIWs) (m : ServerMsg)
    (w : World) : Outcome :=
  match m with
  | session_updated =>
      match session_of w callId with
      | Some session =>
          let w1 := mutate w callId (set_sessionReady true) in
          if pendingMediaStart session && truthy (pendingCallControlId session)
          then (mutate w1 callId (set_pending false None),
                [SendOpenAI ws conversation_item_create;
                 StartMediaStream (pendingCallControlId session)])
          else (w1, [SendOpenAI ws conversation_item_create])
      | None => (w, [])
      end
  | conversation_item_created item =>
      match session_of w callId with
      | Some sessionForResponse =>
          if is_user item && negb (hasActiveResponse sessionForResponse)
          then
            if is_connecting
                 (get Nat.eqb (openaiState w) (openaiWs sessionForResponse))
            then (w, [])     (* send throws; caught, the flag is not set *)
            else (mutate w callId (set_hasActiveResponse true),
                  [SendOpenAI (openaiWs sessionForResponse) response_create])
          else (w, [])
      | None => (w, [])
      end
  | response_audio_delta delta =>
      match delta with
      | Some audioBuffer =>
          match resample24kHzTo8kHz unspecified audioBuffer with
          | Ok resampledAudio =>
              if 0 <? len resampledAudio
              then sendAudioToTelnyx callId resampledAudio w
              else (w, [])
          | RangeError => (w, [])     (* caught *)
          end
      | None => (w, [])
      end
  | response_done =>
      match session_of w callId with
      | Some _ => (mutate w callId (set_hasActiveResponse false), [])
      | None => (w, [])
      end
  | other_message => (w, [])
  end.

(** [ws.on('open', ...)] *)
Definition onOpenAIOpen (callId : JsStr) (ws : OpenAIWs) (w : World) : Outcome :=
  (with_openaiState w (set Nat.eqb (openaiState w) ws OPEN),
   [SendOpenAI ws session_update]).

(** [ws.on('close', ...)] *)
Definition onOpenAIClose (callId : JsStr) (ws : OpenAIWs) (w : World) : Outcome :=
  let w1 := with_openaiState w (set Nat.eqb (openaiState w) ws CLOSED) in
  match session_of w1 callId with
  | Some session =>
      if Nat.eqb (openaiWs session) ws
      then (with_sessions w1 (delete JsStr_eqb (sessions w1) callId), [])
      else (w1, [])
  | None => (w1, [])
  end.

(** ** The Telnyx media socket *)

(** [wss.on('connection', ...)] *)
Definition onTelnyxConnection (ws : TelnyxWs) (call_id : JsStr) (w : World)
  : Outcome :=
  (mkWorld (sessions w)
     (set Nat.eqb (wsCallMap w) ws call_id)
     (openaiState w)
     (set Nat.eqb (telnyxState w) ws OPEN)
     (nextWs w),
   []).

(** The loop over [sessions.entries()]: the first session without a media
    socket, if there is one. *)
Fixpoint first_unattached (m : list (JsStr * Session)) : option JsStr :=
  match m with
  | [] => None
  | (id, session) :: t =>
      match telnyxWs session with
      | None => Some id
      | Some _ => first_unattached t
      end
  end.

(** Attaching [ws] to the first entry without a media socket. *)
Fixpoint attach_first (ws : TelnyxWs) (m : list (JsStr * Session))
  : list (JsStr * Session) :=
  match m with
  | [] => []
  | (id, session) :: t =>
      match telnyxWs session with
      | None => (id, set_telnyxWs (Some ws) session) :: t
      | Some _ => (id, session) :: attach_first ws t
      end
  end.

(** The first part of the message handler: finding the call of the
    socket and storing the socket in its session.  The result is the
    handler's [activeCallId], or nothing when the handler has thrown. *)
Definition bind_media (ws : TelnyxWs) (w : World)
  : World * list Action * option JsStr :=
  let wsInfo := get Nat.eqb (wsCallMap w) ws in
  let activeCallId := match wsInfo with Some c => c | None => None end in
  if negb (truthy activeCallId) then
    match first_unattached (sessions w) with
    | Some id =>
        let w1 := with_sessions w (attach_first ws (sessions w)) in
        match wsInfo with
        | Some _ =>
            (with_wsCallMap w1 (set Nat.eqb (wsCallMap w1) ws id), [], Some id)
        | None => (w1, [], None)      (* TypeError on wsInfo.callId, caught *)
        end
    | None => (w, [], Some activeCallId)
    end
  else
    match session_of w activeCallId with
    | Some session =>
        match telnyxWs session with
        | None =>
            let w1 := mutate w activeCallId (set_telnyxWs (Some ws)) in
            if (0 <? len (audioQueue session))
               && is_open (get Nat.eqb (telnyxState w) ws)
            then (mutate w1 activeCallId (set_audioQueue []),
                  map (SendTelnyx ws) (audioQueue session),
                  Some activeCallId)
            else (w1, [], Some activeCallId)
        | Some _ => (w, [], Some activeCallId)
        end
    | None => (w, [], Some activeCallId)
    end.

(** The second part: resampling the frame and sending it to OpenAI. *)
Definition forward_media (activeCallId : JsStr) (audioBuffer : Buffer)
    (w : World) : list Action :=
  if negb (truthy activeCallId) then []
  else
    match session_of w activeCallId with
    | None => []
    | Some session =>
        if negb (sessionReady session) then []
        else
          match resample8kHzTo24kHz unspecified audioBuffer with
          | Ok resampledBuffer =>
              if len resampledBuffer =? 0 then []
              else if is_open (get Nat.eqb (openaiState w) (openaiWs session))
              then [SendOpenAI (openaiWs session)
                      (input_audio_buffer_append resampledBuffer)]
              else []
          | RangeError => []     (* caught *)
          end
    end.

(** [ws.on('message', ...)] *)
Definition onTelnyxMessage (ws : TelnyxWs) (data : Data) (w : World) : Outcome :=
  let audio :=
    match data with
    | Binary b => Some b
    | JsonText => None
    | RawText b => Some b
    end in
  match audio with
  | None => (w, [])
  | Some audioBuffer =>
      if len audioBuffer =? 0 then (w, [])
      else
        match bind_media ws w with
        | (w1, sent, Some activeCallId) =>
            (w1, sent ++ forward_media activeCallId audioBuffer w1)
        | (w1, sent, None) => (w1, sent)
        end
  end.

(** [ws.on('close', ...)] *)
Definition onTelnyxClose (ws : TelnyxWs) (w : World) : Outcome :=
  let w1 := with_telnyxState w (set Nat.eqb (telnyxState w) ws CLOSED) in
  let callId :=
    match get Nat.eqb (wsCallMap w1) ws with Some c => c | None => None end in
  let w2 :=
    if truthy callId then mutate w1 callId (set_telnyxWs None) else w1 in
  (with_wsCallMap w2 (delete Nat.eqb (wsCallMap w2) ws), []).

(** ** The event loop *)

Definition step (w : World) (e : Event) : Outcome :=
  match e with
  | Webhook event_type payload => webhook event_type payload w
  | AnswerSettled callId callControlId ok =>
      if ok then startOpenAIRealtimeSession callId callControlId w
      else (w, [])
  | OpenAIOpen callId ws => onOpenAIOpen callId ws w
  | OpenAIMessage callId ws m => onOpenAIMessage callId ws m w
  | OpenAIError callId ws => (w, [])
  | OpenAIClose callId ws => onOpenAIClose callId ws w
  | TelnyxConnection ws call_id => onTelnyxConnection ws call_id w
  | TelnyxMessage ws data => onTelnyxMessage ws data w
  | TelnyxClose ws => onTelnyxClose ws w
  end.

(** Handling the events of a trace one after the other, with all the
    actions issued, in order. *)
Fixpoint run (w : World) (trace : list Event) : Outcome :=
  match trace with
  | [] => (w, [])
  | e :: rest => andThen (step w e) (fun w1 => run w1 rest)
  end.

Definition reachable (w : World) : Prop :=
  exists trace, fst (run initial trace) = w.

(** ** Observations on events and actions *)

Definition is_hangup_type (event_type : string) : bool :=
  String.eqb event_type "call.hangup"%string
  || String.eqb event_type "call.bridged"%string.

(** The events whose handlers delete the registry entry of [callId]. *)
Definition tears_down (callId : JsStr) (e : Event) : bool :=
  match e with
  | Webhook event_type payload =>
      is_hangup_type event_type && JsStr_eqb (webhook_callId payload) callId
  | OpenAIClose c _ => JsStr_eqb c callId
  | _ => false
  end.

(** What the first part of the media message handler may do to a
    session: nothing, store the socket, or store it and flush the queue. *)
Definition media_bound (ws : TelnyxWs) (s s1 : Session) : Prop :=
  s1 = s \/
  s1 = set_telnyxWs (Some ws) s \/
  s1 = set_audioQueue [] (set_telnyxWs (Some ws) s).

End Bridge.

(* ================================================================== *)
(** * Observations on runs, and the contract of the turn flag          *)
(* ================================================================== *)

Module Observe.
Import Bridge.

(** The part of a session that the two readiness signals act on. *)
Definition signals (s : Session) : bool * bool * JsStr :=
  (sessionReady s, pendingMediaStart s, pendingCallControlId s).

(** A deferred stream start carries the identifier of its own call: this
    holds in every state the handlers can produce (see
    [pending_consistent_step]). *)
Definition pending_consistent (w : World) : Prop :=
  forall c s,
    session_of w c = Some s ->
    pendingMediaStart s = true -> truthy (pendingCallControlId s) = true ->
    pendingCallControlId s = c.

(** What one handler can do to the registry entry of [c]: nothing, a
    change that leaves [signals] alone, removal, creation, or one of the
    two readiness signals. *)
Inductive change (e : Event) (c : JsStr)
  : option Session -> option Session -> Prop :=
| ch_same (o : option Session) : change e c o o
| ch_minor (s s1 : Session) :
    signals s1 = signals s -> change e c (Some s) (Some s1)
| ch_removed (o : option Session) :
    tears_down c e = true -> change e c o None
| ch_created (o : option Session) (cc : JsStr) (ws : OpenAIWs) :
    e = AnswerSettled c cc true ->
    change e c o (Some (mkSession ws cc false None false None false []))
| ch_answered (s : Session) (p : Payload) :
    e = Webhook "call.answered" (Some p) ->
    webhook_callId (Some p) = c ->
    sessionReady s = false ->
    change e c (Some s) (Some (set_pending true (call_control_id p) s))
| ch_ready (s : Session) (ws : OpenAIWs) :
    e = OpenAIMessage c ws session_updated ->
    change e c (Some s)
      (Some (if pendingMediaStart s && truthy (pendingCallControlId s)
             then set_pending false None (set_sessionReady true s)
             else set_sessionReady true s)).

(** The events that create or remove the session of [callId], or are one
    of its two readiness signals. *)
Definition concerns (callId : JsStr) (e : Event) : bool :=
  match e with
  | Webhook event_type payload =>
      (String.eqb event_type "call.answered" || is_hangup_type event_type)
      && JsStr_eqb (webhook_callId payload) callId
  | AnswerSettled c _ _ => JsStr_eqb c callId
  | OpenAIMessage c _ session_updated => JsStr_eqb c callId
  | OpenAIClose c _ => JsStr_eqb c callId
  | _ => false
  end.

Definition quiet (callId : JsStr) (trace : list Event) : bool :=
  forallb (fun e => negb (concerns callId e)) trace.

Definition is_start (callControlId : JsStr) (a : Action) : bool :=
  match a with
  | StartMediaStream c => JsStr_eqb c callControlId
  | _ => false
  end.

(** How many times the stream of [callControlId] has been started. *)
Definition starts (callControlId : JsStr) (acts : list Action) : nat :=
  List.length (filter (is_start callControlId) acts).



(** The frames sent to the media sockets, in order. *)
Fixpoint relayed (acts : list Action) : list Buffer :=
  match acts with
  | [] => []
  | SendTelnyx _ payload :: rest => payload :: relayed rest
  | _ :: rest => relayed rest
  end.

(** Lists of actions that only send frames to media sockets. *)
Definition only_media (acts : list Action) : bool :=
  forallb (fun a => match a with SendTelnyx _ _ => true | _ => false end) acts.

Definition is_send_openai (a : Action) : bool :=
  match a with
  | SendOpenAI _ _ => true
  | _ => false
  end.

(** The length of the audio that a message on a media socket carries. *)
Definition frame_length (data : Data) : Z :=
  match data with
  | Binary b => len b
  | JsonText => 0
  | RawText b => len b
  end.

(** When the attachment block of the media message handler flushes the
    outbound queue of the session it stores [ws] in: the socket is
    registered under a call id, the session has no media socket yet, its
    queue is not empty and [ws] is open. *)
Definition attach_flushes (ws : TelnyxWs) (w : World) (session : Session) : bool :=
  truthy (match get Nat.eqb (wsCallMap w) ws with
          | Some c => c
          | None => None
          end)
  && match telnyxWs session with None => true | Some _ => false end
  && (0 <? len (audioQueue session))
  && is_open (get Nat.eqb (telnyxState w) ws).

(** The same for a whole message: the handler returns early on a message
    that carries no audio. *)
Definition flush_due (ws : TelnyxWs) (w : World) (session : Session)
    (data : Data) : bool :=
  negb (frame_length data =? 0) && attach_flushes ws w session.

(** Two sessions that differ at most by the media socket and by the
    outbound queue. *)
Definition same_but_relay_and_queue (s s1 : Session) : Prop :=
  openaiWs s1 = openaiWs s /\
  callControlId s1 = callControlId s /\
  sessionReady s1 = sessionReady s /\
  pendingMediaStart s1 = pendingMediaStart s /\
  pendingCallControlId s1 = pendingCallControlId s /\
  hasActiveResponse s1 = hasActiveResponse s.

End Observe.

Module TurnSpec.
Import Bridge.



End TurnSpec.

(* ================================================================== *)
(** * Example states and traces                                        *)
(* ================================================================== *)

Module Examples.
Import Bridge.

(** One call, answered and streaming. *)
Definition c3_world : World :=
  mkWorld [(str "v3:abc", mkSession 0 (str "v3:abc") true (Some 4%nat) false None false [])]
    [(4%nat, str "v3:abc")] [(0%nat, OPEN)] [(4%nat, OPEN)] 1.

Definition c3_payload : option Payload :=
  Some (mkPayload (str "v3:abc") (str "session-1")).

(** A call is set up, answered once OpenAI is ready, and its media socket
    connects and delivers a first frame. *)
Definition call_1 : JsStr := str "v3:call-1".

Definition frame_in : Buffer := [x10; x00; x20; x00].

Definition streaming_trace : list Event :=
  [ Webhook "call.initiated" (Some (mkPayload call_1 (str "s-1")));
    AnswerSettled call_1 call_1 true;
    OpenAIOpen call_1 0;
    OpenAIMessage call_1 0 session_updated;
    Webhook "call.answered" (Some (mkPayload call_1 (str "s-1")));
    TelnyxConnection 7 call_1;
    TelnyxMessage 7 (Binary frame_in) ].

Definition streaming_world : World := fst (run initial streaming_trace).

(** The call just after its session has been created. *)
Definition created_trace : list Event :=
  [ Webhook "call.initiated" (Some (mkPayload call_1 (str "s-1")));
    AnswerSettled call_1 call_1 true;
    OpenAIOpen call_1 0 ].

Definition created_world : World := fst (run initial created_trace).

Definition created_session : Session :=
  mkSession 0 call_1 false None false None false [].

(** The same, once the media socket of the call has connected. *)
Definition connected_world : World :=
  fst (run initial (created_trace ++ [TelnyxConnection 7 call_1])).

Definition payload_1 : Payload := mkPayload call_1 (str "s-1").

(** Events of another call and events of this call that are not its
    readiness signals. *)
Definition other_events : list Event :=
  [ Webhook "media.stream.started" (Some payload_1);
    Webhook "call.initiated" (Some (mkPayload (str "v3:call-2") (str "s-2")));
    AnswerSettled (str "v3:call-2") (str "v3:call-2") true;
    OpenAIMessage call_1 0 other_message;
    Webhook "call.answered" (Some (mkPayload (str "v3:call-2") (str "s-2")));
    OpenAIMessage (str "v3:call-2") 1 session_updated ].

Definition media_events : list Event :=
  [ TelnyxConnection 7 call_1;
    TelnyxMessage 7 (Binary frame_in);
    OpenAIMessage call_1 0 (conversation_item_created (Some (str "user"))) ].

(** Two audio chunks from OpenAI, of three 24 kHz samples each, and the
    8 kHz frames they resample to. *)
Definition delta_a : Buffer := [x01; x00; x02; x00; x03; x00].
Definition delta_b : Buffer := [x0b; x00; x0c; x00; x0d; x00].
Definition frame_a : Buffer := [x01; x00].
Definition frame_b : Buffer := [x0b; x00].

(** Audio arrives before any media socket; a media socket then connects
    without a call identifier in its URL and is matched to the session by
    its first frame; more audio arrives. *)
Definition reorder_trace : list Event :=
  [ AnswerSettled call_1 call_1 true;
    OpenAIOpen call_1 0;
    OpenAIMessage call_1 0 (response_audio_delta (Some delta_a));
    TelnyxConnection 5 None;
    TelnyxMessage 5 (Binary frame_in);
    OpenAIMessage call_1 0 (response_audio_delta (Some delta_b)) ].

(** [n] audio chunks arrive and no media socket ever connects. *)
Definition queueing_trace (n : nat) : list Event :=
  AnswerSettled call_1 call_1 true
  :: OpenAIOpen call_1 0
  :: repeat (OpenAIMessage call_1 0 (response_audio_delta (Some delta_a))) n.

(** Audio arrives before [session.updated]; then the media socket of the
    call connects and delivers a frame. *)
Definition early_audio_trace : list Event :=
  [ AnswerSettled call_1 call_1 true;
    OpenAIOpen call_1 0;
    OpenAIMessage call_1 0 (response_audio_delta (Some delta_a));
    TelnyxConnection 7 call_1 ].

Definition early_audio_world : World := fst (run initial early_audio_trace).

(** [call.answered] is handled while [handleCallInitiated] still awaits
    [answerCall]: the session is created afterwards, its socket opens and
    OpenAI confirms the configuration; the media socket would connect
    only after a stream start. *)
Definition lost_start_trace : list Event :=
  [ Webhook "call.initiated" (Some payload_1);
    Webhook "call.answered" (Some payload_1);
    AnswerSettled call_1 call_1 true;
    OpenAIOpen call_1 0;
    OpenAIMessage call_1 0 session_updated;
    OpenAIMessage call_1 0 (conversation_item_created (Some (str "user"))) ].



End Examples.

(* ================================================================== *)
(** * Further observations                                             *)
(* ================================================================== *)

Module More.
Import Resampler Spec Bridge Observe.

(** [o] lies between the two input samples around output position [p]. *)
Definition between_neighbours (xs : list Z) (p o : Z) : Prop :=
  let a := nth (Z.to_nat (p / 3)) xs 0 in
  let b := nth (Z.to_nat (p / 3 + 1)) xs 0 in
  Z.min a b <= o <= Z.max a b.

(** [o] lies between two samples of [xs]. *)
Definition within_input (xs : list Z) (o : Z) : Prop :=
  exists a b, In a xs /\ In b xs /\ a <= o <= b.

(** The 8 kHz frame that a message from OpenAI hands to
    [sendAudioToTelnyx], if it hands one. *)
Definition frame_of (m : ServerMsg) : list Buffer :=
  match m with
  | response_audio_delta (Some audioBuffer) =>
      match resample24kHzTo8kHz unspecified audioBuffer with
      | Ok resampledAudio => if 0 <? len resampledAudio then [resampledAudio] else []
      | RangeError => []
      end
  | _ => []
  end.

(** The frames produced by a sequence of messages, in order. *)
Definition produced (ms : list ServerMsg) : list Buffer := flat_map frame_of ms.

(** Every session holds a socket created earlier, and no two registry
    entries hold the same socket. *)
Definition sockets_fresh (w : World) : Prop :=
  (forall c s, session_of w c = Some s -> (openaiWs s < nextWs w)%nat) /\
  (forall c c' s s',
     session_of w c = Some s -> session_of w c' = Some s' ->
     openaiWs s = openaiWs s' -> c = c').

(** A state whose sessions all come from the sessions of an earlier
    state, with the sockets they had there, and which has created no
    socket since. *)
Definition inherits (w w1 : World) : Prop :=
  nextWs w1 = nextWs w /\
  forall c s1, session_of w1 c = Some s1 ->
    exists s, session_of w c = Some s /\ openaiWs s1 = openaiWs s.

(** The events that create a session. *)
Definition creates (e : Event) : bool :=
  match e with
  | AnswerSettled _ _ ok => ok
  | _ => false
  end.

(** The events that create the session of [callId]. *)
Definition recreates (callId : JsStr) (e : Event) : bool :=
  match e with
  | AnswerSettled c _ ok => ok && JsStr_eqb c callId
  | _ => false
  end.

(** A session that is absent or ready. *)
Definition ready_if_present (w : World) (callId : JsStr) : Prop :=
  match session_of w callId with
  | Some s => sessionReady s = true
  | None => True
  end.

(** The call of the examples once OpenAI has confirmed its session,
    and once it has been hung up. *)
Definition ready_trace : list Event :=
  Examples.created_trace ++ [OpenAIMessage Examples.call_1 0 session_updated].

Definition ready_world : World := fst (run initial ready_trace).

Definition hung_up_world : World :=
  fst (run initial
         (Examples.streaming_trace
            ++ [Webhook "call.hangup" (Some Examples.payload_1)])).

End More.

(* ================================================================== *)
(** * The media stream URL                                             *)
(* ================================================================== *)

Module Url.
Import Bridge.
Local Open Scope string_scope.

(** [s.startsWith(p)] *)
Definition startsWith (s p : string) : bool := String.prefix p s.

Fixpoint drop (n : nat) (s : string) : string :=
  match n, s with
  | O, _ => s
  | S k, String _ t => drop k t
  | S _, EmptyString => EmptyString
  end.

(** [s.replace(pat, rep)] for string arguments without [$]: the first
    occurrence of [pat] is replaced. *)
Fixpoint replace (pat rep s : string) : string :=
  if String.prefix pat s then rep ++ drop (String.length pat) s
  else
    match s with
    | EmptyString => EmptyString
    | String c t => String c (replace pat rep t)
    end.

(** Whether [pat] occurs in [s]. *)
Fixpoint contains (pat s : string) : bool :=
  String.prefix pat s
  || match s with
     | EmptyString => false
     | String _ t => contains pat t
     end.

(** [v || d] for an environment variable [v] and a string [d]. *)
Definition env_or (v : JsStr) (d : string) : string :=
  match js_or v (Some d) with
  | Some s => s
  | None => d
  end.

(** The [stream_url] that [startMediaStream] sends to Telnyx, from the
    environment variable [RAILWAY_PUBLIC_DOMAIN], the port as it prints
    and the call control identifier, a string. *)
Definition stream_url (RAILWAY_PUBLIC_DOMAIN : JsStr) (PORT : string)
    (callControlId : string) : string :=
  let base := env_or RAILWAY_PUBLIC_DOMAIN ("http://localhost:" ++ PORT) in
  let base := if negb (startsWith base "http") then "https://" ++ base else base in
  let base :=
    if startsWith base "http://" then replace "http://" "https://" base
    else base in
  let wsUrl := replace "https://" "wss://" base in
  wsUrl ++ "/media-stream-ws?call_id=" ++ callControlId.

End Url.

(* ================================================================== *)
(** * Facts about buffers                                              *)
(* ================================================================== *)

Section BufferFacts.

Lemma byte_to_Z_range (b : byte) : 0 <= byte_to_Z b < 256.
Proof.
  unfold byte_to_Z. pose proof (Byte.to_N_bounded b) as H. lia.
Qed.

Lemma byte_of_to_Z (b : byte) : byte_of_Z (byte_to_Z b) = b.
Proof.
  unfold byte_of_Z. pose proof (byte_to_Z_range b) as H.
  rewrite Z.mod_small by exact H.
  unfold byte_to_Z. rewrite N2Z.id, Byte.of_to_N. reflexivity.
Qed.

Lemma byte_of_Z_mod (z : Z) : byte_of_Z (z mod 256) = byte_of_Z z.
Proof.
  unfold byte_of_Z. rewrite Z.mod_mod by lia. reflexivity.
Qed.

Lemma byte_to_of_Z (z : Z) : byte_to_Z (byte_of_Z z) = z mod 256.
Proof.
  unfold byte_of_Z, byte_to_Z.
  assert (Hr : 0 <= z mod 256 < 256) by (apply Z.mod_pos_bound; lia).
  destruct (Byte.of_N (Z.to_N (z mod 256))) as [b|] eqn:E.
  - apply Byte.to_of_N in E. rewrite E. lia.
  - apply Byte.of_N_None_iff in E. lia.
Qed.

Lemma int16_of_bytes_range (lo hi : byte) :
  -32768 <= int16_of_bytes lo hi <= 32767.
Proof.
  unfold int16_of_bytes.
  pose proof (byte_to_Z_range lo). pose proof (byte_to_Z_range hi).
  destruct (_ >=? _) eqn:E; lia.
Qed.

Lemma int16_lo (lo hi : byte) : byte_of_Z (int16_of_bytes lo hi) = lo.
Proof.
  rewrite <- byte_of_Z_mod. rewrite <- (byte_of_to_Z lo) at 2. f_equal.
  unfold int16_of_bytes.
  pose proof (byte_to_Z_range lo). pose proof (byte_to_Z_range hi).
  destruct (_ >=? _).
  - replace (byte_to_Z lo + byte_to_Z hi * 256 - 65536)
      with (byte_to_Z lo + (byte_to_Z hi - 256) * 256) by lia.
    rewrite Z.mod_add by lia. apply Z.mod_small; lia.
  - rewrite Z.mod_add by lia. apply Z.mod_small; lia.
Qed.

Lemma int16_hi (lo hi : byte) : byte_of_Z (int16_of_bytes lo hi / 256) = hi.
Proof.
  rewrite <- byte_of_Z_mod. rewrite <- (byte_of_to_Z hi) at 2. f_equal.
  unfold int16_of_bytes.
  pose proof (byte_to_Z_range lo). pose proof (byte_to_Z_range hi).
  destruct (_ >=? _).
  - replace (byte_to_Z lo + byte_to_Z hi * 256 - 65536)
      with (byte_to_Z lo + (byte_to_Z hi - 256) * 256) by lia.
    rewrite Z.div_add by lia. rewrite (Z.div_small (byte_to_Z lo)) by lia.
    replace (0 + (byte_to_Z hi - 256)) with (byte_to_Z hi + (-1) * 256) by lia.
    rewrite Z.mod_add by lia. apply Z.mod_small; lia.
  - rewrite Z.div_add by lia. rewrite (Z.div_small (byte_to_Z lo)) by lia.
    apply Z.mod_small; lia.
Qed.

Lemma int16_of_encoded (v : Z) :
  -32768 <= v <= 32767 ->
  int16_of_bytes (byte_of_Z v) (byte_of_Z (v / 256)) = v.
Proof.
  intros Hv. unfold int16_of_bytes. rewrite !byte_to_of_Z.
  assert (E : v mod 256 + (v / 256) mod 256 * 256 = v mod 65536).
  { change 65536 with (256 * 256).
    rewrite (Z.rem_mul_r v 256 256) by lia. lia. }
  rewrite E.
  destruct (Z_lt_le_dec v 0) as [Hn|Hp].
  - assert (Em : v mod 65536 = v + 65536).
    { symmetry. apply (Z.mod_unique_pos v 65536 (-1)); lia. }
    rewrite Em. destruct (_ >=? _) eqn:G; lia.
  - rewrite Z.mod_small by lia. destruct (_ >=? _) eqn:G; lia.
Qed.

Lemma update_nth_length {A} (f : A -> A) (l : list A) (n : nat) :
  List.length (update_nth n f l) = List.length l.
Proof.
  revert n. induction l as [|x t IH]; intros [|n]; simpl; auto.
Qed.

Lemma update_nth_app {A} (f : A -> A) (l1 l2 : list A) (x : A) :
  update_nth (List.length l1) f (l1 ++ x :: l2) = l1 ++ f x :: l2.
Proof.
  induction l1 as [|y t IH]; simpl; [reflexivity | now rewrite IH].
Qed.

Lemma samples_length_pair (b : Buffer) :
  List.length (samples b) = Nat.div2 (List.length b) /\
  forall x, List.length (samples (x :: b)) = Nat.div2 (S (List.length b)).
Proof.
  induction b as [|y t [IH1 IH2]].
  - split; reflexivity.
  - split; [apply IH2|]. intros x. simpl. now rewrite IH1.
Qed.

Lemma samples_length (b : Buffer) :
  List.length (samples b) = Nat.div2 (List.length b).
Proof. apply samples_length_pair. Qed.

Lemma samples_nth_error (b : Buffer) (k : nat) (lo hi : byte) :
  nth_error b (2 * k) = Some lo ->
  nth_error b (2 * k + 1) = Some hi ->
  nth_error (samples b) k = Some (int16_of_bytes lo hi).
Proof.
  revert b. induction k as [|k IH]; intros b Hlo Hhi.
  - destruct b as [|x [|y t]]; simpl in *; try discriminate.
    congruence.
  - destruct b as [|x [|y t]]; try discriminate.
    + replace (2 * S k)%nat with (S (S (2 * k))) in Hlo by lia.
      simpl in Hlo. destruct (2 * k)%nat; discriminate.
    + replace (2 * S k)%nat with (S (S (2 * k))) in Hlo by lia.
      replace (2 * S k + 1)%nat with (S (S (2 * k + 1))) in Hhi by lia.
      simpl in Hlo, Hhi. simpl. apply IH; assumption.
Qed.

End BufferFacts.

(* ================================================================== *)
(** * The write loops in closed form                                   *)
(* ================================================================== *)

Module LoopFacts.


Lemma zrange_length i0 n : List.length (zrange i0 n) = n.
Proof. revert i0. induction n; intros; simpl; auto. Qed.

Lemma zrange_In i0 n i : In i (zrange i0 n) <-> i0 <= i < i0 + Z.of_nat n.
Proof.
  revert i0. induction n as [|n IH]; intros i0; simpl.
  - lia.
  - rewrite IH. lia.
Qed.

Lemma zrange_nth i0 n k d :
  (k < n)%nat -> nth k (zrange i0 n) d = i0 + Z.of_nat k.
Proof.
  revert i0 k. induction n as [|n IH]; intros i0 [|k] Hk; simpl; try lia.
  rewrite IH by lia. lia.
Qed.

Ltac guards_hold :=
  symmetry; apply andb_true_intro; split; apply Z.leb_le; lia.

Lemma writeInt16LE_next (done rest : OutBuffer) (c0 c1 : Cell) (v : Z) :
  -32768 <= v <= 32767 ->
  writeInt16LE (done ++ c0 :: c1 :: rest) v (len done) =
  Ok (done ++ store (byte_of_Z v) c0 :: store (byte_of_Z (v / 256)) c1 :: rest).
Proof.
  intros Hv. unfold writeInt16LE, len.
  replace ((-32768 <=? v) && (v <=? 32767)) with true by guards_hold.
  replace ((0 <=? Z.of_nat (List.length done)) &&
           (Z.of_nat (List.length done) + 2 <=?
            Z.of_nat (List.length (done ++ c0 :: c1 :: rest)))) with true
    by (rewrite length_app; simpl List.length; guards_hold).
  rewrite Nat2Z.id. f_equal.
  rewrite update_nth_app.
  replace (done ++ store (byte_of_Z v) c0 :: c1 :: rest)
    with ((done ++ [store (byte_of_Z v) c0]) ++ c1 :: rest)
    by (rewrite <- app_assoc; reflexivity).
  replace (List.length done + 1)%nat
    with (List.length (done ++ [store (byte_of_Z v) c0]))
    by (rewrite length_app; reflexivity).
  rewrite update_nth_app, <- app_assoc. reflexivity.
Qed.

(** A loop whose [i]-th trip stores the sample [val i] at offset [2i]
    stores the samples [val i0, val (i0+1), ...] in order. *)
Lemma for_loop_fill (body : Z -> OutBuffer -> result OutBuffer) (val : Z -> Z) :
  forall (count : nat) (i0 : Z) (done rest : OutBuffer),
    (forall i out, i0 <= i < i0 + Z.of_nat count ->
       body i out = writeInt16LE out (val i) (i * 2)) ->
    (forall i, i0 <= i < i0 + Z.of_nat count -> -32768 <= val i <= 32767) ->
    len done = i0 * 2 ->
    (2 * count <= List.length rest)%nat ->
    for_loop count i0 body (done ++ rest) =
    Ok (done ++ fill (map val (zrange i0 count)) rest).
Proof.
  induction count as [|count IH]; intros i0 done rest Hbody Hval Hdone Hrest.
  - reflexivity.
  - destruct rest as [|c0 [|c1 rest]]; simpl in Hrest; try lia.
    simpl for_loop. rewrite Hbody by lia. rewrite <- Hdone.
    rewrite writeInt16LE_next by (apply Hval; lia).
    replace (done ++ store (byte_of_Z (val i0)) c0
               :: store (byte_of_Z (val i0 / 256)) c1 :: rest)
      with ((done ++ [store (byte_of_Z (val i0)) c0;
                      store (byte_of_Z (val i0 / 256)) c1]) ++ rest)
      by (rewrite <- app_assoc; reflexivity).
    rewrite IH.
    + rewrite <- app_assoc. reflexivity.
    + intros i out Hi. apply Hbody. lia.
    + intros i Hi. apply Hval. lia.
    + unfold len in *. rewrite length_app. simpl List.length. lia.
    + lia.
Qed.

Lemma fill_length vals rest : List.length (fill vals rest) = List.length rest.
Proof.
  revert rest. induction vals as [|v vs IH]; intros rest; [reflexivity|].
  destruct rest as [|c0 [|c1 r]]; simpl; auto.
Qed.

Lemma fill_contents vals rest :
  List.length rest = (2 * List.length vals)%nat ->
  contents (fill vals rest) = flat_map encode16 vals.
Proof.
  revert rest. induction vals as [|v vs IH]; intros rest Hl.
  - destruct rest; [reflexivity | discriminate].
  - destruct rest as [|c0 [|c1 r]]; simpl in Hl; try lia.
    simpl. f_equal. f_equal. apply IH. lia.
Qed.

Lemma fill_writes vals rest :
  List.length rest = (2 * List.length vals)%nat ->
  map cell_writes (fill vals rest) = map S (map cell_writes rest).
Proof.
  revert rest. induction vals as [|v vs IH]; intros rest Hl.
  - destruct rest; [reflexivity | discriminate].
  - destruct rest as [|c0 [|c1 r]]; simpl in Hl; try lia.
    simpl. f_equal. f_equal. apply IH. lia.
Qed.

Lemma samples_encoded vals :
  Forall (fun v => -32768 <= v <= 32767) vals ->
  samples (flat_map encode16 vals) = vals.
Proof.
  induction 1 as [|v vs Hv _ IH]; simpl; [reflexivity|].
  rewrite int16_of_encoded by exact Hv. now rewrite IH.
Qed.

Lemma encoded_length vals :
  List.length (flat_map encode16 vals) = (2 * List.length vals)%nat.
Proof. induction vals; simpl; lia. Qed.

Lemma allocUnsafe_length g n :
  List.length (allocUnsafe g n) = Z.to_nat n.
Proof. unfold allocUnsafe. now rewrite length_map, length_seq. Qed.

Lemma allocUnsafe_writes g n :
  map cell_writes (allocUnsafe g n) = repeat 0%nat (Z.to_nat n).
Proof.
  unfold allocUnsafe. rewrite map_map. simpl.
  assert (H : forall k s, map (fun _ : nat => 0%nat) (seq s k) = repeat 0%nat k).
  { induction k as [|k IH]; intros s; simpl; [reflexivity | now rewrite IH]. }
  apply H.
Qed.

Lemma readInt16LE_sample (buf : Buffer) (k : Z) :
  0 <= k -> k * 2 + 2 <= len buf ->
  exists v, readInt16LE buf (k * 2) = Ok v /\
            nth_error (samples buf) (Z.to_nat k) = Some v.
Proof.
  intros Hk Hlen. unfold readInt16LE, len in *.
  replace ((0 <=? k * 2) && (k * 2 + 2 <=? Z.of_nat (List.length buf))) with true
    by guards_hold.
  destruct (nth_error buf (Z.to_nat (k * 2))) as [lo|] eqn:Elo.
  2:{ apply nth_error_None in Elo. lia. }
  destruct (nth_error buf (Z.to_nat (k * 2) + 1)) as [hi|] eqn:Ehi.
  2:{ apply nth_error_None in Ehi. lia. }
  eexists. split; [reflexivity|].
  apply samples_nth_error.
  - rewrite <- Elo. f_equal. lia.
  - rewrite <- Ehi. f_equal. lia.
Qed.

Lemma nth_error_nth_Z (l : list Z) (n : nat) (v : Z) :
  nth_error l n = Some v -> nth n l 0 = v.
Proof. intros H. now apply nth_error_nth. Qed.

Lemma samples_range (b : Buffer) :
  Forall (fun v => -32768 <= v <= 32767) (samples b).
Proof.
  destruct (samples_length_pair b) as [_ _].
  assert (H : Forall (fun v => -32768 <= v <= 32767) (samples b) /\
              forall x, Forall (fun v => -32768 <= v <= 32767) (samples (x :: b))).
  { induction b as [|y t [IH1 IH2]].
    - split; [constructor | intros; constructor].
    - split; [apply IH2|]. intros x. simpl. constructor.
      + apply int16_of_bytes_range.
      + exact IH1. }
  apply H.
Qed.

Lemma samples_nth_range (b : Buffer) (n : nat) :
  -32768 <= nth n (samples b) 0 <= 32767.
Proof.
  destruct (Nat.lt_ge_cases n (List.length (samples b))) as [Hlt|Hge].
  - pose proof (samples_range b) as H. rewrite Forall_forall in H.
    apply H. now apply nth_In.
  - rewrite nth_overflow by exact Hge. lia.
Qed.

End LoopFacts.
Import LoopFacts.

(* ================================================================== *)
(** * Closed forms of the two resamplers                               *)
(* ================================================================== *)

Module ResamplerFacts.
Import Resampler.


Lemma len_nonneg {A} (l : list A) : 0 <= len l.
Proof. unfold len. lia. Qed.

Lemma down_in_bounds (inputBuffer : Buffer) (i : Z) :
  0 <= i < down_count inputBuffer -> i * 3 * 2 + 6 <= len inputBuffer.
Proof.
  unfold down_count. intros Hi.
  pose proof (Z.mul_div_le (len inputBuffer) 2).
  pose proof (Z.mul_div_le (len inputBuffer / 2) 3). lia.
Qed.

Lemma down_guard_false (inputBuffer : Buffer) (i : Z) :
  0 <= i < down_count inputBuffer -> down_beyond_bounds inputBuffer i = false.
Proof.
  intros Hi. pose proof (down_in_bounds _ _ Hi).
  unfold down_beyond_bounds. rewrite Z.geb_leb. apply Z.leb_gt. lia.
Qed.

Lemma down_body_spec (inputBuffer : Buffer) (i : Z) (out : OutBuffer) :
  0 <= i < down_count inputBuffer ->
  down_body inputBuffer i out = writeInt16LE out (down_val inputBuffer i) (i * 2).
Proof.
  intros Hi. unfold down_body. rewrite down_guard_false by exact Hi.
  pose proof (down_in_bounds _ _ Hi).
  destruct (readInt16LE_sample inputBuffer (i * 3)) as (v & Hr & Hn); try lia.
  rewrite Hr. simpl. unfold down_val. now rewrite (nth_error_nth_Z _ _ _ Hn).
Qed.

Lemma down_closed_form (garbage : nat -> byte) (inputBuffer : Buffer) :
  resample24kHzTo8kHz_cells garbage inputBuffer =
  Ok (fill (map (down_val inputBuffer)
              (zrange 0 (Z.to_nat (down_count inputBuffer))))
        (allocUnsafe garbage (down_count inputBuffer * 2))).
Proof.
  unfold resample24kHzTo8kHz_cells. fold (down_count inputBuffer).
  pose proof (len_nonneg inputBuffer) as Hl.
  destruct (len inputBuffer <? 2) eqn:E.
  - apply Z.ltb_lt in E.
    assert (Hc : down_count inputBuffer = 0).
    { unfold down_count. rewrite (Z.div_small (len inputBuffer) 2) by lia.
      reflexivity. }
    rewrite Hc. reflexivity.
  - assert (Hc : 0 <= down_count inputBuffer).
    { unfold down_count. apply Z.div_pos; [apply Z.div_pos|]; lia. }
    rewrite <- (app_nil_l (allocUnsafe _ _)) at 1.
    rewrite (for_loop_fill _ (down_val inputBuffer)).
    + reflexivity.
    + intros i out Hi. apply down_body_spec. lia.
    + intros i _. apply samples_nth_range.
    + reflexivity.
    + rewrite allocUnsafe_length. lia.
Qed.

(** ** Upsampling *)

Lemma Qfloor_third (i : Z) : Qfloor ((i # 1) / (3 # 1)) = i / 3.
Proof.
  unfold Qdiv, Qmult, Qinv, Qfloor. simpl. now rewrite Z.mul_1_r.
Qed.

(** The rounded interpolation in integers: with [r = i mod 3], the nearest
    integer to [(3*s1 + (s2-s1)*r) / 3]. *)
Lemma Math_round_interp (sample1 sample2 i : Z) :
  Math_round ((sample1 # 1) + ((sample2 - sample1) # 1) *
              ((i # 1) / (3 # 1) - (i / 3 # 1)))%Q
  = (6 * sample1 + 2 * (sample2 - sample1) * (i mod 3) + 3) / 6.
Proof.
  unfold Math_round.
  remember (6 * sample1 + 2 * (sample2 - sample1) * (i mod 3) + 3) as n eqn:Hn.
  remember (i / 3) as q eqn:Hq.
  transitivity (Qfloor (n # 6)); [|reflexivity].
  apply Qfloor_comp. unfold Qeq, Qdiv, Qmult, Qinv, Qplus, Qminus, Qopp.
  simpl. rewrite Hn, (Z.mod_eq i 3), <- Hq by lia. ring.
Qed.


Lemma clamp16_range (v : Z) : -32768 <= clamp16 v <= 32767.
Proof. unfold clamp16. lia. Qed.

Lemma up_val_range (inputBuffer : Buffer) (i : Z) :
  -32768 <= up_val inputBuffer i <= 32767.
Proof.
  unfold up_val. destruct (_ >=? _).
  - apply samples_nth_range.
  - apply clamp16_range.
Qed.

Lemma up_last_in_bounds (inputBuffer : Buffer) :
  2 <= len inputBuffer ->
  up_last_inside inputBuffer (len inputBuffer / 2) = true.
Proof.
  intros Hl. apply Z.ltb_lt.
  pose proof (Z.mul_div_le (len inputBuffer) 2). lia.
Qed.

Lemma up_guard_false (inputBuffer : Buffer) (i : Z) :
  0 <= i -> up_at_end (len inputBuffer / 2) i = false ->
  up_beyond_bounds inputBuffer i = false.
Proof.
  unfold up_at_end, up_beyond_bounds. rewrite Qfloor_third.
  intros Hi He. rewrite Z.geb_leb in He; apply Z.leb_gt in He.
  pose proof (Z.mul_div_le (len inputBuffer) 2).
  assert (0 <= i / 3) by (apply Z.div_pos; lia).
  apply orb_false_intro; rewrite Z.geb_leb; apply Z.leb_gt; lia.
Qed.

Lemma up_body_spec (inputBuffer : Buffer) (i : Z) (out : OutBuffer) :
  2 <= len inputBuffer -> 0 <= i ->
  up_body inputBuffer (len inputBuffer / 2) i out =
  writeInt16LE out (up_val inputBuffer i) (i * 2).
Proof.
  intros Hl Hi. unfold up_body, up_val.
  pose proof (Z.mul_div_le (len inputBuffer) 2) as Hd.
  assert (H3 : 0 <= i / 3) by (apply Z.div_pos; lia).
  assert (HK : 1 <= len inputBuffer / 2).
  { apply Z.div_le_lower_bound; lia. }
  destruct (up_at_end (len inputBuffer / 2) i) eqn:He.
  - rewrite up_last_in_bounds by exact Hl.
    unfold up_at_end in He. rewrite Qfloor_third in He. rewrite He.
    destruct (readInt16LE_sample inputBuffer (len inputBuffer / 2 - 1))
      as (v & Hr & Hn); try lia.
    rewrite Hr. simpl. now rewrite (nth_error_nth_Z _ _ _ Hn).
  - rewrite up_guard_false by assumption.
    unfold up_at_end in He. rewrite Qfloor_third in He. rewrite He.
    rewrite Z.geb_leb in He; apply Z.leb_gt in He.
    rewrite Qfloor_third.
    destruct (readInt16LE_sample inputBuffer (i / 3)) as (v1 & Hr1 & Hn1); try lia.
    destruct (readInt16LE_sample inputBuffer (i / 3 + 1)) as (v2 & Hr2 & Hn2); try lia.
    rewrite Hr1, Hr2. simpl.
    rewrite Math_round_interp.
    now rewrite (nth_error_nth_Z _ _ _ Hn1), (nth_error_nth_Z _ _ _ Hn2).
Qed.

Lemma up_closed_form (garbage : nat -> byte) (inputBuffer : Buffer) :
  resample8kHzTo24kHz_cells garbage inputBuffer =
  Ok (fill (map (up_val inputBuffer)
              (zrange 0 (Z.to_nat (up_count inputBuffer))))
        (allocUnsafe garbage (up_count inputBuffer * 2))).
Proof.
  unfold resample8kHzTo24kHz_cells. fold (up_count inputBuffer).
  pose proof (len_nonneg inputBuffer) as Hl.
  destruct (len inputBuffer <? 2) eqn:E.
  - apply Z.ltb_lt in E.
    assert (Hc : up_count inputBuffer = 0).
    { unfold up_count. rewrite (Z.div_small (len inputBuffer) 2) by lia.
      reflexivity. }
    rewrite Hc. reflexivity.
  - apply Z.ltb_ge in E.
    assert (Hc : 0 <= up_count inputBuffer).
    { unfold up_count. pose proof (Z.div_pos (len inputBuffer) 2). lia. }
    rewrite <- (app_nil_l (allocUnsafe _ _)) at 1.
    rewrite (for_loop_fill _ (up_val inputBuffer)).
    + reflexivity.
    + intros i out Hi. apply up_body_spec; lia.
    + intros i _. apply up_val_range.
    + reflexivity.
    + rewrite allocUnsafe_length. lia.
Qed.

End ResamplerFacts.
Import ResamplerFacts.

(* ================================================================== *)
(** * Resampler: consequences of the closed forms                      *)
(* ================================================================== *)

Section ResamplerResults.
Import Resampler.

Lemma pair_ind {A} (P : list A -> Prop) :
  P [] -> (forall x, P [x]) -> (forall x y t, P t -> P (x :: y :: t)) ->
  forall l, P l.
Proof.
  intros H0 H1 H2 l.
  assert (H : P l /\ forall x, P (x :: l)).
  { induction l as [|y t [IH1 IH2]]; [split; auto|].
    split; [apply IH2 | intros x; apply H2, IH1]. }
  apply H.
Qed.

Lemma len_half (b : Buffer) : len b / 2 = Z.of_nat (Nat.div2 (List.length b)).
Proof.
  unfold len. rewrite Nat.div2_div, Nat2Z.inj_div. reflexivity.
Qed.


Lemma whole_samples_samples (b : Buffer) : samples (whole_samples b) = samples b.
Proof.
  unfold whole_samples. induction b as [|x|x y t IH] using pair_ind;
    try reflexivity.
  simpl List.length. cbn [Nat.div2].
  replace (2 * S (Nat.div2 (List.length t)))%nat
    with (S (S (2 * Nat.div2 (List.length t)))) by lia.
  cbn [firstn samples]. now rewrite IH.
Qed.

Lemma div2_double_le (n : nat) : (2 * Nat.div2 n <= n)%nat.
Proof.
  rewrite Nat.div2_div. pose proof (Nat.Div0.mul_div_le n 2). lia.
Qed.

Lemma whole_samples_half (b : Buffer) : len (whole_samples b) / 2 = len b / 2.
Proof.
  rewrite !len_half. f_equal. unfold whole_samples.
  rewrite length_firstn, Nat.min_l by apply div2_double_le.
  apply Nat.div2_double.
Qed.

Lemma down_result (garbage : nat -> byte) (inputBuffer : Buffer) :
  resample24kHzTo8kHz garbage inputBuffer =
  Ok (flat_map encode16
        (map (down_val inputBuffer)
           (zrange 0 (Z.to_nat (down_count inputBuffer))))).
Proof.
  unfold resample24kHzTo8kHz. rewrite down_closed_form. simpl. f_equal.
  apply fill_contents.
  rewrite allocUnsafe_length, length_map, zrange_length.
  pose proof (len_nonneg inputBuffer).
  assert (0 <= down_count inputBuffer).
  { unfold down_count. apply Z.div_pos; [apply Z.div_pos|]; lia. }
  lia.
Qed.

Lemma up_count_nonneg (inputBuffer : Buffer) : 0 <= up_count inputBuffer.
Proof.
  unfold up_count. pose proof (len_nonneg inputBuffer).
  pose proof (Z.div_pos (len inputBuffer) 2). lia.
Qed.

Lemma up_result (garbage : nat -> byte) (inputBuffer : Buffer) :
  resample8kHzTo24kHz garbage inputBuffer =
  Ok (flat_map encode16
        (map (up_val inputBuffer)
           (zrange 0 (Z.to_nat (up_count inputBuffer))))).
Proof.
  unfold resample8kHzTo24kHz. rewrite up_closed_form. simpl. f_equal.
  apply fill_contents.
  rewrite allocUnsafe_length, length_map, zrange_length.
  pose proof (up_count_nonneg inputBuffer). lia.
Qed.

Lemma Forall_map_range {A} (f : A -> Z) (l : list A) :
  (forall a, -32768 <= f a <= 32767) ->
  Forall (fun v => -32768 <= v <= 32767) (map f l).
Proof. intros H. induction l; simpl; constructor; auto. Qed.

Lemma down_whole (garbage : nat -> byte) (inputBuffer : Buffer) :
  resample24kHzTo8kHz garbage (whole_samples inputBuffer) =
  resample24kHzTo8kHz garbage inputBuffer.
Proof.
  rewrite !down_result. unfold down_count, down_val.
  now rewrite whole_samples_half, whole_samples_samples.
Qed.

Lemma up_whole (garbage : nat -> byte) (inputBuffer : Buffer) :
  resample8kHzTo24kHz garbage (whole_samples inputBuffer) =
  resample8kHzTo24kHz garbage inputBuffer.
Proof.
  rewrite !up_result. unfold up_count, up_val.
  now rewrite whole_samples_half, whole_samples_samples.
Qed.

Lemma writes_once vals (garbage : nat -> byte) n :
  List.length vals = Z.to_nat n ->
  map cell_writes (fill vals (allocUnsafe garbage (n * 2))) =
  repeat 1%nat (Z.to_nat (n * 2)).
Proof.
  intros Hl. rewrite fill_writes.
  - rewrite allocUnsafe_writes. induction (Z.to_nat (n * 2)); simpl; congruence.
  - rewrite allocUnsafe_length. lia.
Qed.

End ResamplerResults.


Section SpecFacts.
Import Resampler Spec.

Lemma samples_len (b : Buffer) : len (samples b) = len b / 2.
Proof. rewrite len_half. unfold len. now rewrite samples_length. Qed.

Lemma Math_round_interpolation (xs : list Z) (p : Z) :
  Math_round (interpolation xs p) =
  (6 * nth (Z.to_nat (p / 3)) xs 0 +
   2 * (nth (Z.to_nat (p / 3 + 1)) xs 0 - nth (Z.to_nat (p / 3)) xs 0) * (p mod 3)
   + 3) / 6.
Proof.
  unfold Math_round, interpolation.
  remember (nth (Z.to_nat (p / 3)) xs 0) as a eqn:Ha.
  remember (nth (Z.to_nat (p / 3 + 1)) xs 0) as b eqn:Hb.
  remember (6 * a + 2 * (b - a) * (p mod 3) + 3) as n eqn:Hn.
  remember (p / 3) as q eqn:Hq.
  transitivity (Qfloor (n # 6)); [|reflexivity].
  apply Qfloor_comp. unfold Qeq, Qminus.
  repeat (unfold Qplus, Qmult, Qopp; cbn [Qnum Qden]).
  rewrite ?Pos2Z.inj_mul.
  rewrite Hn, (Z.mod_eq p 3), <- Hq by lia. ring.
Qed.

Lemma up_val_spec (inputBuffer : Buffer) (p : Z) :
  up_val inputBuffer p = upsample_at (samples inputBuffer) p.
Proof.
  unfold up_val, upsample_at. rewrite samples_len, Math_round_interpolation.
  destruct (p / 3 >=? len inputBuffer / 2 - 1) eqn:E1;
    destruct (p / 3 + 1 <? len inputBuffer / 2) eqn:E2;
    try reflexivity; exfalso;
    rewrite Z.geb_leb in E1;
    [apply Z.leb_le in E1; apply Z.ltb_lt in E2
    |apply Z.leb_gt in E1; apply Z.ltb_ge in E2]; lia.
Qed.

Lemma down_val_spec (inputBuffer : Buffer) (i : Z) :
  down_val inputBuffer i = downsample_at (samples inputBuffer) i.
Proof. unfold down_val, downsample_at. now rewrite Z.mul_comm. Qed.

Lemma samples_firstn (k : nat) (b : Buffer) :
  samples (firstn (2 * k) b) = firstn k (samples b).
Proof.
  revert b. induction k as [|k IH]; intros b; [reflexivity|].
  replace (2 * S k)%nat with (S (S (2 * k))) by lia.
  destruct b as [|x [|y t]]; try reflexivity.
  cbn [firstn samples]. now rewrite IH.
Qed.

Lemma whole_groups_count (b : Buffer) :
  down_count (whole_groups b) = down_count b.
Proof.
  unfold down_count, whole_groups, len.
  rewrite length_firstn, Nat.min_l by (pose proof (Nat.Div0.mul_div_le (List.length b) 6); lia).
  rewrite !Z.div_div by lia. change (2 * 3) with 6.
  rewrite Nat2Z.inj_mul, Nat2Z.inj_div. change (Z.of_nat 6) with 6.
  rewrite Z.mul_comm, Z.div_mul by lia. reflexivity.
Qed.

Lemma down_whole_groups (garbage : nat -> byte) (inputBuffer : Buffer) :
  resample24kHzTo8kHz garbage (whole_groups inputBuffer) =
  resample24kHzTo8kHz garbage inputBuffer.
Proof.
  rewrite !down_result, whole_groups_count. do 2 f_equal.
  apply map_ext_in. intros i Hi. apply zrange_In in Hi.
  assert (Hc : 0 <= down_count inputBuffer).
  { unfold down_count. pose proof (len_nonneg inputBuffer).
    apply Z.div_pos; [apply Z.div_pos|]; lia. }
  rewrite Z2Nat.id in Hi by exact Hc.
  unfold down_val, whole_groups.
  replace (6 * (List.length inputBuffer / 6))%nat
    with (2 * (3 * (List.length inputBuffer / 6)))%nat by lia.
  rewrite samples_firstn, nth_firstn.
  assert (Hlt : (Z.to_nat (i * 3) <? 3 * (List.length inputBuffer / 6))%nat = true).
  { apply Nat.ltb_lt. apply Nat2Z.inj_lt. rewrite Z2Nat.id by lia.
    rewrite Nat2Z.inj_mul, Nat2Z.inj_div. change (Z.of_nat 3) with 3.
    change (Z.of_nat 6) with 6.
    unfold down_count, len in Hi. rewrite Z.div_div in Hi by lia.
    change (2 * 3) with 6 in Hi. lia. }
  now rewrite Hlt.
Qed.

Lemma nearest_rounding (a b r : Z) :
  -32768 <= a <= 32767 -> -32768 <= b <= 32767 -> 0 <= r < 3 ->
  let o := clamp16 ((6 * a + 2 * (b - a) * r + 3) / 6) in
  Z.abs (3 * o - ((3 - r) * a + r * b)) <= 1 /\
  (a <= b -> a <= o <= b) /\ (b <= a -> b <= o <= a).
Proof.
  intros Ha Hb Hr o. subst o. unfold clamp16.
  pose proof (Z.div_mod (6 * a + 2 * (b - a) * r + 3) 6 ltac:(lia)) as Hd.
  pose proof (Z.mod_pos_bound (6 * a + 2 * (b - a) * r + 3) 6 ltac:(lia)) as Hm.
  remember ((6 * a + 2 * (b - a) * r + 3) / 6) as q.
  remember ((6 * a + 2 * (b - a) * r + 3) mod 6) as m.
  assert (Hcases : r = 0 \/ r = 1 \/ r = 2) by lia.
  destruct Hcases as [-> | [-> | ->]]; lia.
Qed.

Lemma upsample_at_two_inner (s0 s1 r : Z) :
  0 <= r < 3 ->
  upsample_at [s0; s1] r = clamp16 ((6 * s0 + 2 * (s1 - s0) * r + 3) / 6).
Proof.
  intros Hr. unfold upsample_at. rewrite Math_round_interpolation.
  rewrite Z.div_small, Z.mod_small by lia. reflexivity.
Qed.

Lemma upsample_at_two_held (s0 s1 p : Z) :
  3 <= p < 6 -> upsample_at [s0; s1] p = s1.
Proof.
  intros Hp. unfold upsample_at.
  assert (H : p / 3 = 1).
  { symmetry. apply (Z.div_unique p 3 1 (p - 3)); lia. }
  rewrite H. reflexivity.
Qed.

(** ** Exact rationals and doubles *)

Lemma Qfloor_between (q : Q) (o : Z) :
  (inject_Z o <= q)%Q -> (q < inject_Z (o + 1))%Q -> Qfloor q = o.
Proof.
  intros Hlo Hhi.
  assert (H1 : o <= Qfloor q).
  { rewrite <- (Qfloor_Z o). now apply Qfloor_resp_le. }
  assert (H2 : Qfloor q < o + 1).
  { rewrite Zlt_Qlt. eapply Qle_lt_trans; [apply Qfloor_le | exact Hhi]. }
  lia.
Qed.

Lemma interpolant_thirds (sample1 sample2 i : Z) :
  ((sample1 # 1) + ((sample2 - sample1) # 1) * ((i # 1) / (3 # 1) - (i / 3 # 1))
   == inject_Z (3 * sample1 + (sample2 - sample1) * (i mod 3)) / 3)%Q.
Proof.
  rewrite (Z.mod_eq i 3) by lia.
  remember (i / 3) as q.
  unfold Qeq, Qdiv, Qminus, inject_Z.
  repeat (unfold Qplus, Qmult, Qopp, Qinv; cbn [Qnum Qden]).
  rewrite ?Pos2Z.inj_mul. ring.
Qed.

Lemma nearest_sixth (m : Z) :
  6 * ((2 * m + 3) / 6) + 1 <= 2 * m + 3 <= 6 * ((2 * m + 3) / 6) + 5.
Proof.
  pose proof (Z.div_mod (2 * m + 3) 6 ltac:(lia)) as H.
  pose proof (Z.mod_pos_bound (2 * m + 3) 6 ltac:(lia)) as Hb.
  assert (Hodd : (2 * m + 3) mod 6 <> 0 /\ (2 * m + 3) mod 6 <> 2 /\
                 (2 * m + 3) mod 6 <> 4)
    by (repeat split; intros E; rewrite E in H; lia).
  lia.
Qed.

(** The interpolant is a multiple of one third, so it is at least one
    sixth away from every rounding tie: any computation of it that is off
    by less than one sixth rounds to the same integer.  The error of the
    double computation in [server.js] is smaller by many orders of
    magnitude for every buffer that fits in memory. *)
Lemma rounding_is_robust (sample1 sample2 i : Z) (err : Q) :
  (Qabs err < 1 # 6)%Q ->
  Math_round ((sample1 # 1) + ((sample2 - sample1) # 1) *
              ((i # 1) / (3 # 1) - (i / 3 # 1)) + err)%Q
  = (6 * sample1 + 2 * (sample2 - sample1) * (i mod 3) + 3) / 6.
Proof.
  intros He. apply Qabs_Qlt_condition in He. destruct He as [He1 He2].
  unfold Math_round.
  set (m := 3 * sample1 + (sample2 - sample1) * (i mod 3)).
  replace (6 * sample1 + 2 * (sample2 - sample1) * (i mod 3) + 3)
    with (2 * m + 3) by (unfold m; ring).
  destruct (nearest_sixth m) as [Hlo Hhi].
  set (o := (2 * m + 3) / 6) in *.
  rewrite Zle_Qle in Hlo, Hhi.
  rewrite !inject_Z_plus, !inject_Z_mult in Hlo, Hhi.
  change (inject_Z 6) with 6%Q in *. change (inject_Z 1) with 1%Q in *.
  change (inject_Z 2) with 2%Q in *. change (inject_Z 3) with 3%Q in *.
  change (inject_Z 5) with 5%Q in *.
  apply Qfloor_between.
  - rewrite interpolant_thirds. fold m.
    generalize dependent (inject_Z o). generalize (inject_Z m).
    intros qm qo Hlo Hhi. unfold Qdiv. change (/ 3)%Q with (1 # 3)%Q. lra.
  - rewrite interpolant_thirds. fold m. rewrite inject_Z_plus.
    change (inject_Z 1) with 1%Q.
    generalize dependent (inject_Z o). generalize (inject_Z m).
    intros qm qo Hlo Hhi. unfold Qdiv. change (/ 3)%Q with (1 # 3)%Q. lra.
Qed.

(** On a grid of sample values and positions that includes the extremes,
    the double computation and the exact one give the same integer. *)
Lemma double_agrees_on_grid :
  forallb (fun sample1 => forallb (fun sample2 => forallb (fun i =>
    Z.eqb (Double.interpolated sample1 sample2 i)
          (Math_round ((sample1 # 1) + ((sample2 - sample1) # 1) *
                       ((i # 1) / (3 # 1) - (i / 3 # 1)))%Q))
    Double.position_grid) Double.sample_grid) Double.sample_grid = true.
Proof. vm_compute. reflexivity. Qed.

End SpecFacts.

(* ================================================================== *)
(** * Facts about the registry                                         *)
(* ================================================================== *)

Section MapFacts.
Import Bridge.
Context {K V : Type} (eqb : K -> K -> bool).
Hypothesis eqb_eq : forall a b, eqb a b = true <-> a = b.

Lemma eqb_refl' (a : K) : eqb a a = true.
Proof. now apply eqb_eq. Qed.

Lemma eqb_neq (a b : K) : a <> b -> eqb a b = false.
Proof.
  intros H. destruct (eqb a b) eqn:E; [|reflexivity].
  apply eqb_eq in E. contradiction.
Qed.

Lemma get_update (m : list (K * V)) (k c : K) (f : V -> V) :
  get eqb (update eqb m k f) c =
  if eqb k c then option_map f (get eqb m c) else get eqb m c.
Proof.
  induction m as [|[k' v] t IH]; simpl.
  - now destruct (eqb k c).
  - destruct (eqb k' k) eqn:E1; simpl.
    + apply eqb_eq in E1. subst k'.
      destruct (eqb k c) eqn:E2; [reflexivity|]. exact IH.
    + destruct (eqb k' c) eqn:E2.
      * apply eqb_eq in E2. subst k'.
        destruct (eqb k c) eqn:E3; [|reflexivity].
        apply eqb_eq in E3. subst k. rewrite eqb_refl' in E1. discriminate.
      * exact IH.
Qed.

Lemma get_delete (m : list (K * V)) (k c : K) :
  get eqb (delete eqb m k) c = if eqb k c then None else get eqb m c.
Proof.
  unfold delete. induction m as [|[k' v] t IH]; simpl.
  - now destruct (eqb k c).
  - destruct (eqb k' k) eqn:E1; simpl.
    + apply eqb_eq in E1. subst k'. rewrite IH.
      now destruct (eqb k c).
    + rewrite IH. destruct (eqb k' c) eqn:E2; [|reflexivity].
      apply eqb_eq in E2. subst k'.
      destruct (eqb k c) eqn:E3; [|reflexivity].
      apply eqb_eq in E3. subst k. rewrite eqb_refl' in E1. discriminate.
Qed.

Lemma get_set (m : list (K * V)) (k c : K) (v : V) :
  get eqb (set eqb m k v) c = if eqb k c then Some v else get eqb m c.
Proof.
  induction m as [|[k' v'] t IH]; simpl.
  - reflexivity.
  - destruct (eqb k' k) eqn:E1; simpl.
    + apply eqb_eq in E1. subst k'. now destruct (eqb k c).
    + destruct (eqb k' c) eqn:E2; [|exact IH].
      apply eqb_eq in E2. subst k'.
      destruct (eqb k c) eqn:E3; [|reflexivity].
      apply eqb_eq in E3. subst k. rewrite eqb_refl' in E1. discriminate.
Qed.

Lemma delete_absent (m : list (K * V)) (k : K) :
  get eqb m k = None -> delete eqb m k = m.
Proof.
  unfold delete. induction m as [|[k' v] t IH]; simpl; [reflexivity|].
  destruct (eqb k' k) eqn:E; [discriminate|]. simpl.
  intros H. now rewrite IH.
Qed.

End MapFacts.

Section BridgeFacts.
Import Resampler Bridge Observe TurnSpec Examples.

Lemma JsStr_eqb_eq (a b : JsStr) : JsStr_eqb a b = true <-> a = b.
Proof.
  destruct a as [x|], b as [y|]; simpl; split; intros H;
    try discriminate; try reflexivity.
  - apply String.eqb_eq in H. now subst.
  - injection H as ->. apply String.eqb_refl.
Qed.

Lemma JsStr_eqb_refl (a : JsStr) : JsStr_eqb a a = true.
Proof. now apply JsStr_eqb_eq. Qed.

Lemma JsStr_eqb_sym (a b : JsStr) : JsStr_eqb a b = JsStr_eqb b a.
Proof.
  destruct (JsStr_eqb a b) eqn:E1, (JsStr_eqb b a) eqn:E2; try reflexivity.
  - apply JsStr_eqb_eq in E1. subst. now rewrite JsStr_eqb_refl in E2.
  - apply JsStr_eqb_eq in E2. subst. now rewrite JsStr_eqb_refl in E1.
Qed.

Lemma session_of_mutate (w : World) (k c : JsStr) (f : Session -> Session) :
  session_of (mutate w k f) c =
  if JsStr_eqb k c then option_map f (session_of w c) else session_of w c.
Proof. unfold session_of, mutate. simpl. apply get_update, JsStr_eqb_eq. Qed.

Lemma session_of_deleted (w : World) (k c : JsStr) :
  session_of (with_sessions w (delete JsStr_eqb (sessions w) k)) c =
  if JsStr_eqb k c then None else session_of w c.
Proof. unfold session_of. simpl. apply get_delete, JsStr_eqb_eq. Qed.

Lemma session_of_close_openai (ws : OpenAIWs) (w : World) (c : JsStr) :
  session_of (close_openai ws w) c = session_of w c.
Proof.
  unfold close_openai.
  destruct (get Nat.eqb (openaiState w) ws) as [[]|]; reflexivity.
Qed.

Lemma sessions_close_openai (ws : OpenAIWs) (w : World) :
  sessions (close_openai ws w) = sessions w.
Proof.
  unfold close_openai.
  destruct (get Nat.eqb (openaiState w) ws) as [[]|]; reflexivity.
Qed.

(** A hangup for a call that has no session changes nothing. *)
Lemma handleCallHangup_absent (w : World) (callId : JsStr) :
  session_of w callId = None -> handleCallHangup callId w = (w, []).
Proof. unfold handleCallHangup. now intros ->. Qed.

Lemma handleCallHangup_present (w : World) (callId : JsStr) (session : Session) :
  session_of w callId = Some session ->
  exists w1,
    handleCallHangup callId w = (w1, [CloseOpenAI (openaiWs session)]) /\
    sessions w1 = delete JsStr_eqb (sessions w) callId /\
    session_of w1 callId = None /\
    (forall c, c <> callId -> session_of w1 c = session_of w c) /\
    wsCallMap w1 = wsCallMap w /\ telnyxState w1 = telnyxState w.
Proof.
  intros H. unfold handleCallHangup. rewrite H. eexists. split; [reflexivity|].
  split; [|split; [|split; [|split]]].
  - simpl. now rewrite sessions_close_openai.
  - rewrite session_of_deleted. now rewrite JsStr_eqb_refl.
  - intros c Hc. rewrite session_of_deleted.
    rewrite (eqb_neq JsStr_eqb JsStr_eqb_eq) by congruence.
    apply session_of_close_openai.
  - simpl. unfold close_openai.
    destruct (get Nat.eqb (openaiState w) (openaiWs session)) as [[]|]; reflexivity.
  - simpl. unfold close_openai.
    destruct (get Nat.eqb (openaiState w) (openaiWs session)) as [[]|]; reflexivity.
Qed.

Lemma webhook_hangup (w : World) (event_type : string) (payload : option Payload) :
  event_type = "call.hangup"%string \/ event_type = "call.bridged"%string ->
  step w (Webhook event_type payload) =
  handleCallHangup (webhook_callId payload) w.
Proof. intros [-> | ->]; reflexivity. Qed.

Lemma session_of_with_openaiState (w : World) m (c : JsStr) :
  session_of (with_openaiState w m) c = session_of w c.
Proof. reflexivity. Qed.

Lemma session_of_with_telnyxState (w : World) m (c : JsStr) :
  session_of (with_telnyxState w m) c = session_of w c.
Proof. reflexivity. Qed.

Lemma session_of_with_wsCallMap (w : World) m (c : JsStr) :
  session_of (with_wsCallMap w m) c = session_of w c.
Proof. reflexivity. Qed.

(** What the close handler of an OpenAI socket does. *)
Lemma onOpenAIClose_spec (w : World) (callId : JsStr) (ws : OpenAIWs) :
  exists w1,
    onOpenAIClose callId ws w = (w1, []) /\
    telnyxState w1 = telnyxState w /\
    wsCallMap w1 = wsCallMap w /\
    (forall c, c <> callId -> session_of w1 c = session_of w c) /\
    session_of w1 callId =
      match session_of w callId with
      | Some session =>
          if Nat.eqb (openaiWs session) ws then None else Some session
      | None => None
      end.
Proof.
  unfold onOpenAIClose.
  rewrite session_of_with_openaiState.
  destruct (session_of w callId) as [session|] eqn:Hs.
  - destruct (Nat.eqb (openaiWs session) ws) eqn:E.
    + eexists. split; [reflexivity|]. repeat split.
      * intros c Hc. rewrite session_of_deleted.
        rewrite (eqb_neq JsStr_eqb JsStr_eqb_eq) by congruence. reflexivity.
      * rewrite session_of_deleted. now rewrite JsStr_eqb_refl.
    + eexists. split; [reflexivity|]. repeat split.
      rewrite session_of_with_openaiState. exact Hs.
  - eexists. split; [reflexivity|]. repeat split.
    rewrite session_of_with_openaiState. exact Hs.
Qed.

(** What the close handler of a media socket does. *)
Lemma onTelnyxClose_spec (w : World) (ws : TelnyxWs) :
  let callId :=
    match get Nat.eqb (wsCallMap w) ws with Some c => c | None => None end in
  exists w1,
    onTelnyxClose ws w = (w1, []) /\
    openaiState w1 = openaiState w /\
    forall c,
      session_of w1 c =
        if truthy callId && JsStr_eqb callId c
        then option_map (set_telnyxWs None) (session_of w c)
        else session_of w c.
Proof.
  intros callId. unfold onTelnyxClose. simpl wsCallMap. fold callId.
  eexists. split; [reflexivity|]. split.
  - destruct (truthy callId); reflexivity.
  - intros c. rewrite session_of_with_wsCallMap.
    destruct (truthy callId); simpl.
    + rewrite session_of_mutate. reflexivity.
    + reflexivity.
Qed.

Lemma get_attach_first (ws : TelnyxWs) (m : list (JsStr * Session)) (c : JsStr) :
  match get JsStr_eqb m c with
  | None => get JsStr_eqb (attach_first ws m) c = None
  | Some s =>
      get JsStr_eqb (attach_first ws m) c = Some s \/
      get JsStr_eqb (attach_first ws m) c = Some (set_telnyxWs (Some ws) s)
  end.
Proof.
  induction m as [|[id session] t IH]; simpl; [reflexivity|].
  destruct (telnyxWs session) eqn:Et; simpl.
  - destruct (JsStr_eqb id c); [now left | exact IH].
  - destruct (JsStr_eqb id c).
    + now right.
    + destruct (get JsStr_eqb t c); [now left | reflexivity].
Qed.

(** The effect of the first part of the media message handler on the
    sessions, and its actions. *)
Lemma bind_media_spec (ws : TelnyxWs) (w : World) :
  forall w1 sent active,
    bind_media ws w = (w1, sent, active) ->
    openaiState w1 = openaiState w /\
    (forall c,
       match session_of w c with
       | None => session_of w1 c = None
       | Some s => exists s1, session_of w1 c = Some s1 /\ media_bound ws s s1
       end) /\
    (sent = [] \/
     exists c s, active = Some c /\ session_of w c = Some s /\
                 telnyxWs s = None /\ audioQueue s <> [] /\
                 sent = map (SendTelnyx ws) (audioQueue s) /\
                 session_of w1 c = Some (set_audioQueue [] (set_telnyxWs (Some ws) s))).
Proof.
  intros w1 sent active. unfold bind_media.
  set (wsInfo := get Nat.eqb (wsCallMap w) ws).
  set (activeCallId := match wsInfo with Some c => c | None => None end).
  assert (Hattach : forall c,
    match session_of w c with
    | None => session_of (with_sessions w (attach_first ws (sessions w))) c = None
    | Some s => exists s1,
        session_of (with_sessions w (attach_first ws (sessions w))) c = Some s1 /\
        media_bound ws s s1
    end).
  { intros c. unfold session_of. simpl.
    pose proof (get_attach_first ws (sessions w) c) as H.
    destruct (get JsStr_eqb (sessions w) c) as [s|]; [|exact H].
    destruct H as [H|H]; rewrite H; eexists; (split; [reflexivity|]);
      unfold media_bound; auto. }
  assert (Hsame : forall c,
    match session_of w c with
    | None => session_of w c = None
    | Some s => exists s1, session_of w c = Some s1 /\ media_bound ws s s1
    end).
  { intros c. destruct (session_of w c) as [s|] eqn:E; [|reflexivity].
    exists s. split; [reflexivity | now left]. }
  destruct (negb (truthy activeCallId)) eqn:Etr.
  - destruct (first_unattached (sessions w)) as [id|].
    + destruct wsInfo as [c0|]; intros H; injection H as <- <- <-;
        (split; [reflexivity|]; split; [exact Hattach | now left]).
    + intros H; injection H as <- <- <-.
      split; [reflexivity|]. split; [exact Hsame | now left].
  - destruct (session_of w activeCallId) as [session|] eqn:Es.
    2:{ intros H; injection H as <- <- <-.
        split; [reflexivity|]. split; [exact Hsame | now left]. }
    destruct (telnyxWs session) as [t|] eqn:Et.
    { intros H; injection H as <- <- <-.
      split; [reflexivity|]. split; [exact Hsame | now left]. }
    destruct ((0 <? len (audioQueue session))
              && is_open (get Nat.eqb (telnyxState w) ws)) eqn:Efl;
      intros H; injection H as <- <- <-.
    + split; [reflexivity|]. split.
      * intros c. rewrite !session_of_mutate.
        destruct (JsStr_eqb activeCallId c) eqn:E.
        -- apply JsStr_eqb_eq in E. subst c. rewrite Es. simpl.
           eexists. split; [reflexivity|]. unfold media_bound. auto.
        -- apply Hsame.
      * right. exists activeCallId, session.
        repeat split; try assumption.
        -- apply andb_prop in Efl. destruct Efl as [Hq _].
           apply Z.ltb_lt in Hq. intros Hnil. rewrite Hnil in Hq.
           unfold len in Hq. simpl in Hq. lia.
        -- rewrite !session_of_mutate, JsStr_eqb_refl, Es. reflexivity.
    + split; [reflexivity|]. split; [|now left].
      intros c. rewrite session_of_mutate.
      destruct (JsStr_eqb activeCallId c) eqn:E.
      * apply JsStr_eqb_eq in E. subst c. rewrite Es. simpl.
        eexists. split; [reflexivity|]. unfold media_bound. auto.
      * apply Hsame.
Qed.

Lemma present_mutate (w : World) (k c : JsStr) (f : Session -> Session) :
  session_of w c <> None -> session_of (mutate w k f) c <> None.
Proof.
  intros H. rewrite session_of_mutate.
  destruct (JsStr_eqb k c); [|exact H].
  destruct (session_of w c); [discriminate | contradiction].
Qed.

Lemma sendAudioToTelnyx_sessions (callId : JsStr) (audioBuffer : Buffer)
    (w : World) :
  exists f,
    fst (sendAudioToTelnyx callId audioBuffer w) = mutate w callId f \/
    fst (sendAudioToTelnyx callId audioBuffer w) = w.
Proof.
  unfold sendAudioToTelnyx.
  destruct (session_of w callId) as [session|]; [|exists (fun s => s); now right].
  destruct (len audioBuffer =? 0); [exists (fun s => s); now right|].
  destruct (relay_open w session); eexists; left; reflexivity.
Qed.

Lemma onOpenAIMessage_sessions (callId : JsStr) (ws : OpenAIWs) (m : ServerMsg)
    (w : World) :
  exists f,
    fst (onOpenAIMessage callId ws m w) = mutate w callId f \/
    fst (onOpenAIMessage callId ws m w) = mutate (mutate w callId f) callId
                                            (set_pending false None) \/
    fst (onOpenAIMessage callId ws m w) = w.
Proof.
  destruct m as [|item|delta| |]; simpl.
  - destruct (session_of w callId) as [session|];
      [|exists (fun s => s); now right; right].
    destruct (pendingMediaStart session && truthy (pendingCallControlId session));
      eexists; [right; left | left]; reflexivity.
  - destruct (session_of w callId) as [session|];
      [|exists (fun s => s); now right; right].
    destruct (is_user item && negb (hasActiveResponse session));
      [|exists (fun s => s); now right; right].
    destruct (is_connecting _);
      [exists (fun s => s); now right; right | eexists; left; reflexivity].
  - destruct delta as [audioBuffer|]; [|exists (fun s => s); now right; right].
    destruct (resample24kHzTo8kHz unspecified audioBuffer) as [resampled|];
      [|exists (fun s => s); now right; right].
    destruct (0 <? len resampled); [|exists (fun s => s); now right; right].
    destruct (sendAudioToTelnyx_sessions callId resampled w) as (f & [H|H]);
      exists f; [left | right; right]; exact H.
  - destruct (session_of w callId) as [session|];
      [eexists; left; reflexivity | exists (fun s => s); now right; right].
  - exists (fun s => s). now right; right.
Qed.

(** A registry entry disappears only in the handlers of the hangup
    webhooks and of the close of an OpenAI socket. *)
Lemma step_keeps_session (w : World) (e : Event) (c : JsStr) :
  session_of w c <> None ->
  session_of (fst (step w e)) c = None ->
  tears_down c e = true.
Proof.
  intros Hp Ha. destruct e as [et payload|cid cc ok|cid ws|cid ws m|cid ws|cid ws
                              |ws cid|ws data|ws]; cbn [step tears_down] in *.
  - unfold webhook in Ha. unfold is_hangup_type.
    destruct (String.eqb et "call.initiated") eqn:E1.
    { unfold handleCallInitiated in Ha. destruct payload; simpl in Ha; contradiction. }
    destruct (String.eqb et "call.answered") eqn:E2.
    { unfold handleCallAnswered in Ha. destruct payload as [p|]; [|contradiction].
      destruct (session_of w (webhook_callId (Some p))) as [session|];
        [|contradiction].
      destruct (sessionReady session); [contradiction|].
      simpl in Ha. exact (False_ind _ (present_mutate _ _ _ _ Hp Ha)). }
    destruct (String.eqb et "call.hangup" || String.eqb et "call.bridged") eqn:E3;
      [|contradiction].
    simpl. unfold handleCallHangup in Ha.
    destruct (session_of w (webhook_callId payload)) as [session|] eqn:Es;
      [|contradiction].
    simpl in Ha. rewrite session_of_deleted in Ha.
    destruct (JsStr_eqb (webhook_callId payload) c); [reflexivity|].
    rewrite session_of_close_openai in Ha. contradiction.
  - destruct ok; [|contradiction].
    unfold session_of in Ha. simpl in Ha.
    rewrite (get_set JsStr_eqb JsStr_eqb_eq) in Ha.
    destruct (JsStr_eqb cid c); [discriminate | contradiction].
  - contradiction.
  - destruct (onOpenAIMessage_sessions cid ws m w) as (f & [H|[H|H]]);
      rewrite H in Ha.
    + exact (False_ind _ (present_mutate _ _ _ _ Hp Ha)).
    + exact (False_ind _ (present_mutate _ _ _ _ (present_mutate _ _ _ _ Hp) Ha)).
    + contradiction.
  - contradiction.
  - destruct (onOpenAIClose_spec w cid ws) as (w1 & E1 & _ & _ & Ho & _).
    rewrite E1 in Ha. simpl in Ha.
    destruct (JsStr_eqb cid c) eqn:E; [reflexivity|].
    rewrite Ho in Ha; [contradiction|].
    intros ->. now rewrite JsStr_eqb_refl in E.
  - contradiction.
  - unfold onTelnyxMessage in Ha.
    assert (Hb : forall w1 sent active, bind_media ws w = (w1, sent, active) ->
                 session_of w1 c <> None).
    { intros w1 sent active Hbm.
      destruct (bind_media_spec ws w w1 sent active Hbm) as (_ & Hs & _).
      specialize (Hs c). destruct (session_of w c); [|contradiction].
      destruct Hs as (s1 & -> & _). discriminate. }
    destruct data as [b| |b]; try contradiction;
      (destruct (len b =? 0); [contradiction|]);
      destruct (bind_media ws w) as [[w1 sent] [active|]] eqn:Hbm;
      simpl in Ha; exact (False_ind _ (Hb _ _ _ eq_refl Ha)).
  - destruct (onTelnyxClose_spec w ws) as (w1 & E1 & _ & Hs).
    rewrite E1 in Ha. simpl in Ha. rewrite Hs in Ha.
    destruct (truthy _ && JsStr_eqb _ c); [|contradiction].
    destruct (session_of w c); [discriminate | contradiction].
Qed.

Lemma run_cons (w : World) (e : Event) (rest : list Event) :
  run w (e :: rest) =
  (fst (run (fst (step w e)) rest), snd (step w e) ++ snd (run (fst (step w e)) rest)).
Proof.
  simpl. unfold andThen. destruct (step w e) as [w1 a1]. simpl.
  now destruct (run w1 rest).
Qed.

Lemma run_app (w : World) (t1 t2 : list Event) :
  run w (t1 ++ t2) =
  (fst (run (fst (run w t1)) t2), snd (run w t1) ++ snd (run (fst (run w t1)) t2)).
Proof.
  revert w. induction t1 as [|e t1 IH]; intros w.
  - simpl. now destruct (run w t2).
  - rewrite <- app_comm_cons, !run_cons, IH. simpl. now rewrite app_assoc.
Qed.

(** Without a hangup webhook and without the close of its OpenAI socket, a
    session stays in the registry. *)
Lemma run_keeps_session (trace : list Event) (w : World) (c : JsStr) :
  forallb (fun e => negb (tears_down c e)) trace = true ->
  session_of w c <> None ->
  session_of (fst (run w trace)) c <> None.
Proof.
  revert w. induction trace as [|e rest IH]; intros w Hq Hp; [exact Hp|].
  simpl in Hq. apply andb_prop in Hq. destruct Hq as [He Hrest].
  rewrite run_cons. simpl. apply IH; [exact Hrest|].
  intros Ha. apply (step_keeps_session w e c Hp) in Ha.
  rewrite Ha in He. discriminate.
Qed.

Lemma only_media_map (t : TelnyxWs) (q : list Buffer) :
  only_media (map (SendTelnyx t) q) = true.
Proof. induction q; simpl; auto. Qed.


Lemma only_media_starts (cc : JsStr) (acts : list Action) :
  only_media acts = true -> starts cc acts = 0%nat.
Proof.
  unfold starts. induction acts as [|a rest IH]; simpl; [reflexivity|].
  destruct a; simpl; try discriminate. exact IH.
Qed.

Lemma only_media_no_openai (acts : list Action) :
  only_media acts = true -> filter is_send_openai acts = [].
Proof.
  induction acts as [|a rest IH]; simpl; [reflexivity|].
  destruct a; simpl; try discriminate. exact IH.
Qed.

Lemma set_audioQueue_same (s : Session) : set_audioQueue (audioQueue s) s = s.
Proof. now destruct s. Qed.

(** [sendAudioToTelnyx] touches nothing but the queue of its session, and
    only sends frames to the media socket. *)
Lemma sendAudioToTelnyx_frame (callId : JsStr) (audioBuffer : Buffer) (w : World) :
  only_media (snd (sendAudioToTelnyx callId audioBuffer w)) = true /\
  openaiState (fst (sendAudioToTelnyx callId audioBuffer w)) = openaiState w /\
  forall c,
    match session_of w c with
    | Some s => exists q,
        session_of (fst (sendAudioToTelnyx callId audioBuffer w)) c =
        Some (set_audioQueue q s)
    | None => session_of (fst (sendAudioToTelnyx callId audioBuffer w)) c = None
    end.
Proof.
  assert (Hsame : forall c,
    match session_of w c with
    | Some s => exists q, session_of w c = Some (set_audioQueue q s)
    | None => session_of w c = None
    end).
  { intros c. destruct (session_of w c) as [s|] eqn:E; [|reflexivity].
    exists (audioQueue s). now rewrite set_audioQueue_same. }
  assert (Hmut : forall f c, (forall s, exists q, f s = set_audioQueue q s) ->
    match session_of w c with
    | Some s => exists q, session_of (mutate w callId f) c = Some (set_audioQueue q s)
    | None => session_of (mutate w callId f) c = None
    end).
  { intros f c Hf. rewrite session_of_mutate.
    destruct (JsStr_eqb callId c); [|apply Hsame].
    destruct (session_of w c) as [s|]; [|reflexivity].
    destruct (Hf s) as (q & Hq). exists q. simpl. now rewrite Hq. }
  unfold sendAudioToTelnyx.
  destruct (session_of w callId) as [session|] eqn:Es;
    [|split; [reflexivity | split; [reflexivity | exact Hsame]]].
  destruct (len audioBuffer =? 0);
    [split; [reflexivity | split; [reflexivity | exact Hsame]]|].
  destruct (relay_open w session) as [t|]; simpl.
  - split; [apply only_media_map|]. split; [reflexivity|].
    intros c. apply Hmut. intros s. now exists [].
  - split; [reflexivity|]. split; [reflexivity|].
    intros c. apply Hmut. intros s. now eexists.
Qed.





Lemma starts_app (cc : JsStr) (a b : list Action) :
  starts cc (a ++ b) = (starts cc a + starts cc b)%nat.
Proof. unfold starts. now rewrite filter_app, length_app. Qed.



(** ** What each handler does to each registry entry *)

Lemma change_mutate_minor (e : Event) (w : World) (k c : JsStr)
    (f : Session -> Session) :
  (forall s, signals (f s) = signals s) ->
  change e c (session_of w c) (session_of (mutate w k f) c).
Proof.
  intros Hf. rewrite session_of_mutate.
  destruct (JsStr_eqb k c); [|constructor].
  destruct (session_of w c) as [s|]; simpl; [|constructor].
  apply ch_minor, Hf.
Qed.

Lemma change_media_bound (e : Event) (ws : TelnyxWs) (w w1 : World) (c : JsStr) :
  match session_of w c with
  | None => session_of w1 c = None
  | Some s => exists s1, session_of w1 c = Some s1 /\ media_bound ws s s1
  end ->
  change e c (session_of w c) (session_of w1 c).
Proof.
  destruct (session_of w c) as [s|].
  - intros (s1 & -> & [-> | [-> | ->]]); apply ch_minor; reflexivity.
  - intros ->. constructor.
Qed.

Lemma step_change (w : World) (e : Event) (c : JsStr) :
  change e c (session_of w c) (session_of (fst (step w e)) c).
Proof.
  destruct e as [et payload|cid cc ok|cid ws|cid ws m|cid ws|cid ws
                |ws cid|ws data|ws]; cbn [step].
  - unfold webhook.
    destruct (String.eqb et "call.initiated") eqn:E1.
    { unfold handleCallInitiated. destruct payload; constructor. }
    destruct (String.eqb et "call.answered") eqn:E2.
    { apply String.eqb_eq in E2. subst et.
      unfold handleCallAnswered. destruct payload as [p|]; [|constructor].
      destruct (session_of w (webhook_callId (Some p))) as [session|] eqn:Es;
        [|constructor].
      destruct (sessionReady session) eqn:Er; [constructor|].
      cbn [fst]. rewrite session_of_mutate.
      destruct (JsStr_eqb (webhook_callId (Some p)) c) eqn:E; [|constructor].
      apply JsStr_eqb_eq in E. rewrite <- E, Es. simpl option_map.
      rewrite E. now apply ch_answered. }
    destruct (String.eqb et "call.hangup" || String.eqb et "call.bridged") eqn:E3;
      [|constructor].
    unfold handleCallHangup.
    destruct (session_of w (webhook_callId payload)) as [session|] eqn:Es;
      [|constructor].
    cbn [fst]. rewrite session_of_deleted.
    destruct (JsStr_eqb (webhook_callId payload) c) eqn:E.
    + apply ch_removed. cbn [tears_down]. unfold is_hangup_type.
      now rewrite E3, E.
    + rewrite session_of_close_openai. constructor.
  - destruct ok; [|constructor]. unfold session_of. simpl.
    rewrite (get_set JsStr_eqb JsStr_eqb_eq).
    destruct (JsStr_eqb cid c) eqn:E; [|constructor].
    apply JsStr_eqb_eq in E. subst cid. now apply ch_created.
  - constructor.
  - destruct m as [|item|delta| |]; cbn [onOpenAIMessage].
    + destruct (session_of w cid) as [session|] eqn:Es; [|constructor].
      destruct (JsStr_eqb cid c) eqn:E.
      * apply JsStr_eqb_eq in E. subst cid. rewrite Es.
        pose proof (ch_ready (OpenAIMessage c ws session_updated) c session ws
                      eq_refl) as H.
        destruct (pendingMediaStart session && truthy (pendingCallControlId session));
          cbn [fst]; rewrite !session_of_mutate, JsStr_eqb_refl, Es; exact H.
      * destruct (pendingMediaStart session && truthy (pendingCallControlId session));
          cbn [fst]; rewrite !session_of_mutate, E; constructor.
    + destruct (session_of w cid) as [session|]; [|constructor].
      destruct (is_user item && negb (hasActiveResponse session)); [|constructor].
      destruct (is_connecting _); [constructor|].
      cbn [fst]. now apply change_mutate_minor.
    + destruct delta as [audioBuffer|]; [|constructor].
      destruct (resample24kHzTo8kHz unspecified audioBuffer) as [resampled|];
        [|constructor].
      destruct (0 <? len resampled); [|constructor].
      destruct (sendAudioToTelnyx_frame cid resampled w) as (_ & _ & Hf).
      specialize (Hf c). destruct (session_of w c) as [s|].
      * destruct Hf as (q & ->). now apply ch_minor.
      * rewrite Hf. constructor.
    + destruct (session_of w cid) as [session|]; [|constructor].
      cbn [fst]. now apply change_mutate_minor.
    + constructor.
  - constructor.
  - destruct (onOpenAIClose_spec w cid ws) as (w1 & E1 & _ & _ & Ho & Hc).
    rewrite E1. cbn [fst].
    destruct (JsStr_eqb cid c) eqn:E.
    + apply JsStr_eqb_eq in E. subst cid. rewrite Hc.
      destruct (session_of w c) as [session|]; [|constructor].
      destruct (Nat.eqb (openaiWs session) ws); [|constructor].
      apply ch_removed. cbn [tears_down]. apply JsStr_eqb_refl.
    + rewrite Ho; [constructor|]. intros ->. now rewrite JsStr_eqb_refl in E.
  - constructor.
  - unfold onTelnyxMessage.
    assert (Hb : forall w1 sent active, bind_media ws w = (w1, sent, active) ->
                 change (TelnyxMessage ws data) c (session_of w c) (session_of w1 c)).
    { intros w1 sent active Hbm.
      destruct (bind_media_spec ws w w1 sent active Hbm) as (_ & Hs & _).
      apply (change_media_bound _ ws). apply Hs. }
    destruct data as [b| |b]; try constructor;
      (destruct (len b =? 0); [constructor|]);
      destruct (bind_media ws w) as [[w1 sent] [active|]] eqn:Hbm;
      cbn [fst]; exact (Hb _ _ _ eq_refl).
  - destruct (onTelnyxClose_spec w ws) as (w1 & E1 & _ & Hs).
    rewrite E1. cbn [fst]. rewrite Hs.
    destruct (truthy _ && JsStr_eqb _ c); [|constructor].
    destruct (session_of w c) as [s|]; [|constructor].
    now apply ch_minor.
Qed.

(** ** The two readiness signals *)

Lemma tears_down_concerns (c : JsStr) (e : Event) :
  tears_down c e = true -> concerns c e = true.
Proof.
  destruct e; cbn [tears_down concerns]; try discriminate; try tauto.
  intros H. apply andb_prop in H. destruct H as [H1 H2].
  rewrite H1, H2. now rewrite orb_true_r.
Qed.

Lemma js_or_truthy (a b : JsStr) : truthy a = true -> js_or a b = a.
Proof. unfold js_or. now intros ->. Qed.

(** An event that does not concern a call leaves the signals of its
    session alone. *)
Lemma quiet_step_signals (w : World) (e : Event) (c : JsStr) :
  concerns c e = false ->
  option_map signals (session_of (fst (step w e)) c) =
  option_map signals (session_of w c).
Proof.
  intros Hq. pose proof (step_change w e c) as H.
  inversion H as [o Ho1 Ho2|s s1 Hs Ho1 Ho2|o Ht Ho1 Ho2|o cc ws He Ho1 Ho2
                 |s p He Hid Hr Ho1 Ho2|s ws He Ho1 Ho2].
  - now rewrite Ho2.
  - simpl. now rewrite Hs.
  - apply tears_down_concerns in Ht. congruence.
  - subst e. simpl in Hq. rewrite JsStr_eqb_refl in Hq. discriminate.
  - subst e. cbn [concerns] in Hq. rewrite Hid, JsStr_eqb_refl in Hq.
    discriminate.
  - subst e. simpl in Hq. rewrite JsStr_eqb_refl in Hq. discriminate.
Qed.

(** Every state the handlers produce keeps deferred starts consistent. *)
Lemma pending_consistent_step (w : World) (e : Event) :
  pending_consistent w -> pending_consistent (fst (step w e)).
Proof.
  intros Hw c s1 Hs1 Hp Ht. pose proof (step_change w e c) as H.
  rewrite Hs1 in H.
  inversion H as [o Ho1 Ho2|s s1' Hs Ho1 Ho2|o Htd Ho1 Ho2|o cc ws He Ho1 Ho2
                 |s p He Hid Hr Ho1 Ho2|s ws He Ho1 Ho2].
  - apply Hw; [now symmetry | assumption | assumption].
  - subst s1'. unfold signals in Hs. injection Hs as _ Hpm Hpc.
    rewrite Hpc. apply Hw; [now symmetry | congruence | congruence].
  - subst s1. simpl in Hp. discriminate.
  - subst s1. simpl in Ht |- *. rewrite <- Hid. simpl.
    now rewrite js_or_truthy.
  - destruct (pendingMediaStart s && truthy (pendingCallControlId s)) eqn:E;
      subst s1; simpl in Hp, Ht |- *; [discriminate|].
    apply Hw; [now symmetry | assumption | assumption].
Qed.

Lemma pending_consistent_initial : pending_consistent initial.
Proof. intros c s H. discriminate. Qed.

Lemma pending_consistent_run (trace : list Event) (w : World) :
  pending_consistent w -> pending_consistent (fst (run w trace)).
Proof.
  revert w. induction trace as [|e rest IH]; intros w Hw; [exact Hw|].
  rewrite run_cons. cbn [fst]. apply IH, pending_consistent_step, Hw.
Qed.

Lemma In_only_media (acts : list Action) (cc : JsStr) :
  only_media acts = true -> ~ In (StartMediaStream cc) acts.
Proof.
  intros Hm Hin. unfold only_media in Hm. rewrite forallb_forall in Hm.
  specialize (Hm _ Hin). discriminate.
Qed.

Lemma forward_media_sends (activeCallId : JsStr) (b : Buffer) (w : World) (cc : JsStr) :
  ~ In (StartMediaStream cc) (forward_media activeCallId b w).
Proof.
  unfold forward_media.
  destruct (negb (truthy activeCallId)); [tauto|].
  destruct (session_of w activeCallId) as [session|]; [|tauto].
  destruct (negb (sessionReady session)); [tauto|].
  destruct (resample8kHzTo24kHz unspecified b) as [r|]; [|tauto].
  destruct (len r =? 0); [tauto|].
  destruct (is_open _); simpl; [|tauto].
  intros [H|H]; [discriminate | exact H].
Qed.

(** Where a stream start comes from: from [call.answered] for a session
    that is ready, or from [session.updated] for a session with a
    deferred start. *)
Lemma start_origin (w : World) (e : Event) (cc : JsStr) :
  In (StartMediaStream cc) (snd (step w e)) ->
  (exists p session,
     e = Webhook "call.answered" (Some p) /\ cc = call_control_id p /\
     session_of w (webhook_callId (Some p)) = Some session /\
     sessionReady session = true) \/
  (exists c ws session,
     e = OpenAIMessage c ws session_updated /\
     session_of w c = Some session /\
     pendingMediaStart session = true /\
     truthy (pendingCallControlId session) = true /\
     cc = pendingCallControlId session).
Proof.
  destruct e as [et payload|cid cc' ok|cid ws|cid ws m|cid ws|cid ws
                |ws cid|ws data|ws]; cbn [step].
  - unfold webhook.
    destruct (String.eqb et "call.initiated") eqn:E1.
    { unfold handleCallInitiated. destruct payload; simpl; [|tauto].
      intros [H|H]; [discriminate | tauto]. }
    destruct (String.eqb et "call.answered") eqn:E2.
    { apply String.eqb_eq in E2. subst et.
      unfold handleCallAnswered. destruct payload as [p|]; [|simpl; tauto].
      destruct (session_of w (webhook_callId (Some p))) as [session|] eqn:Es;
        [|simpl; tauto].
      destruct (sessionReady session) eqn:Er; [|simpl; tauto].
      simpl. intros [H|H]; [|tauto]. injection H as <-.
      left. exists p, session. auto. }
    destruct (String.eqb et "call.hangup" || String.eqb et "call.bridged");
      [|simpl; tauto].
    unfold handleCallHangup.
    destruct (session_of w (webhook_callId payload)); simpl; [|tauto].
    intros [H|H]; [discriminate | tauto].
  - destruct ok; simpl; [|tauto]. intros [H|H]; [discriminate | tauto].
  - simpl. intros [H|H]; [discriminate | tauto].
  - destruct m as [|item|delta| |]; cbn [onOpenAIMessage]; try (simpl; tauto).
    + destruct (session_of w cid) as [session|] eqn:Es; [|simpl; tauto].
      destruct (pendingMediaStart session && truthy (pendingCallControlId session))
        eqn:E; simpl.
      * intros [H|[H|H]]; [discriminate| |tauto]. injection H as <-.
        apply andb_prop in E. destruct E as [Ep Et].
        right. exists cid, ws, session. auto.
      * intros [H|H]; [discriminate | tauto].
    + destruct (session_of w cid) as [session|]; [|simpl; tauto].
      destruct (is_user item && negb (hasActiveResponse session)); simpl; [|tauto].
      destruct (is_connecting _); simpl; [tauto|].
      intros [H|H]; [discriminate | tauto].
    + destruct delta as [audioBuffer|]; [|simpl; tauto].
      destruct (resample24kHzTo8kHz unspecified audioBuffer) as [resampled|];
        [|simpl; tauto].
      destruct (0 <? len resampled); [|simpl; tauto].
      destruct (sendAudioToTelnyx_frame cid resampled w) as (Hm & _).
      intros H. now apply In_only_media in H.
    + destruct (session_of w cid); simpl; tauto.
  - simpl. tauto.
  - destruct (onOpenAIClose_spec w cid ws) as (w1 & E1 & _). rewrite E1.
    simpl. tauto.
  - simpl. tauto.
  - unfold onTelnyxMessage.
    assert (Hb : forall w1 sent active, bind_media ws w = (w1, sent, active) ->
                 ~ In (StartMediaStream cc) sent).
    { intros w1 sent active Hbm.
      destruct (bind_media_spec ws w w1 sent active Hbm)
        as (_ & _ & [-> | (c & s & _ & _ & _ & _ & -> & _)]); [tauto|].
      apply In_only_media, only_media_map. }
    destruct data as [b| |b]; try (simpl; tauto);
      (destruct (len b =? 0); [simpl; tauto|]);
      destruct (bind_media ws w) as [[w1 sent] [active|]] eqn:Hbm;
      cbn [snd]; intros H; try apply in_app_or in H;
      try (destruct H as [H|H]; [|now apply forward_media_sends in H]);
      now apply (Hb _ _ _ eq_refl) in H.
  - destruct (onTelnyxClose_spec w ws) as (w1 & E1 & _). rewrite E1.
    simpl. tauto.
Qed.

Lemma starts_zero (cc : JsStr) (acts : list Action) :
  ~ In (StartMediaStream cc) acts -> starts cc acts = 0%nat.
Proof.
  unfold starts. induction acts as [|a rest IH]; simpl; [reflexivity|].
  intros Hn. destruct (is_start cc a) eqn:E.
  - exfalso. apply Hn. left. destruct a; simpl in E; try discriminate.
    apply JsStr_eqb_eq in E. now subst.
  - apply IH. tauto.
Qed.

(** An event that does not concern a call does not start its stream. *)
Lemma quiet_step_starts (w : World) (e : Event) (c : JsStr) :
  pending_consistent w -> truthy c = true -> concerns c e = false ->
  starts c (snd (step w e)) = 0%nat.
Proof.
  intros Hw Ht Hq. apply starts_zero. intros Hin.
  apply start_origin in Hin.
  destruct Hin as [(p & session & -> & Hc & _ & _)
                  |(k & ws & session & -> & Hs & Hp & Htr & Hc)].
  - cbn [concerns webhook_callId] in Hq. rewrite <- Hc in Hq.
    rewrite js_or_truthy, JsStr_eqb_refl in Hq by exact Ht. discriminate.
  - cbn [concerns] in Hq. rewrite (Hw k session Hs Hp Htr) in Hc. subst k.
    rewrite JsStr_eqb_refl in Hq. discriminate.
Qed.

Lemma quiet_run (trace : list Event) (w : World) (c : JsStr) :
  pending_consistent w -> truthy c = true -> quiet c trace = true ->
  option_map signals (session_of (fst (run w trace)) c) =
    option_map signals (session_of w c) /\
  starts c (snd (run w trace)) = 0%nat.
Proof.
  revert w. induction trace as [|e rest IH]; intros w Hw Ht Hq.
  - split; reflexivity.
  - simpl in Hq. apply andb_prop in Hq. destruct Hq as [He Hrest].
    apply negb_true_iff in He.
    rewrite run_cons. cbn [fst snd].
    destruct (IH (fst (step w e)) (pending_consistent_step w e Hw) Ht Hrest)
      as (Hsig & Hst).
    split.
    + rewrite Hsig. now apply quiet_step_signals.
    + rewrite starts_app, Hst, quiet_step_starts by assumption. reflexivity.
Qed.

Lemma signals_kept (w w1 : World) (c : JsStr) (s : Session) :
  option_map signals (session_of w1 c) = option_map signals (session_of w c) ->
  session_of w c = Some s ->
  exists s1, session_of w1 c = Some s1 /\ signals s1 = signals s.
Proof.
  intros H Hs. rewrite Hs in H. destruct (session_of w1 c) as [s1|];
    [|discriminate].
  exists s1. split; [reflexivity|]. cbn [option_map] in H. congruence.
Qed.

Lemma answered_step (w : World) (p : Payload) (s : Session) :
  truthy (call_control_id p) = true ->
  session_of w (call_control_id p) = Some s ->
  step w (Webhook "call.answered" (Some p)) =
  if sessionReady s
  then (w, [StartMediaStream (call_control_id p)])
  else (mutate w (call_control_id p) (set_pending true (call_control_id p)), []).
Proof.
  intros Ht Hs. cbn [step]. unfold webhook.
  change (String.eqb "call.answered" "call.initiated") with false.
  change (String.eqb "call.answered" "call.answered") with true.
  cbv iota. unfold handleCallAnswered, webhook_callId.
  rewrite js_or_truthy by exact Ht. rewrite Hs. reflexivity.
Qed.

Lemma ready_step (w : World) (c : JsStr) (ws : OpenAIWs) (s : Session) :
  session_of w c = Some s ->
  step w (OpenAIMessage c ws session_updated) =
  if pendingMediaStart s && truthy (pendingCallControlId s)
  then (mutate (mutate w c (set_sessionReady true)) c (set_pending false None),
        [SendOpenAI ws conversation_item_create;
         StartMediaStream (pendingCallControlId s)])
  else (mutate w c (set_sessionReady true),
        [SendOpenAI ws conversation_item_create]).
Proof. intros Hs. cbn [step onOpenAIMessage]. now rewrite Hs. Qed.

(** [call.answered] first: up to the arrival of [session.updated] no
    start is issued and the start stays deferred. *)
Lemma answered_first (w : World) (s : Session) (p : Payload)
    (before between : list Event) :
  let callId := call_control_id p in
  pending_consistent w -> truthy callId = true ->
  session_of w callId = Some s ->
  sessionReady s = false -> pendingMediaStart s = false ->
  quiet callId before = true -> quiet callId between = true ->
  let o := run w (before ++ [Webhook "call.answered" (Some p)] ++ between) in
  starts callId (snd o) = 0%nat /\
  pending_consistent (fst o) /\
  exists s1, session_of (fst o) callId = Some s1 /\
             signals s1 = (false, true, callId).
Proof.
  intros callId Hw Ht Hs Hr Hp Hq1 Hq2 o. subst o.
  rewrite !run_app. cbn [fst snd].
  destruct (quiet_run before w callId Hw Ht Hq1) as (Hsig1 & Hst1).
  destruct (signals_kept _ _ _ _ Hsig1 Hs) as (sa & Hsa & Hsiga).
  set (wa := fst (run w before)) in *.
  assert (Hwa : pending_consistent wa) by now apply pending_consistent_run.
  assert (Hra : sessionReady sa = false).
  { unfold signals in Hsiga. injection Hsiga as -> _ _. exact Hr. }
  assert (Estep : run wa [Webhook "call.answered" (Some p)] =
                  (mutate wa callId (set_pending true callId), [])).
  { cbn [run]. rewrite (answered_step wa p sa Ht Hsa), Hra. reflexivity. }
  rewrite Estep. cbn [fst snd].
  set (wb := mutate wa callId (set_pending true callId)) in *.
  assert (Hwb : pending_consistent wb).
  { replace wb with (fst (step wa (Webhook "call.answered" (Some p)))).
    - now apply pending_consistent_step.
    - rewrite (answered_step wa p sa Ht Hsa), Hra. reflexivity. }
  assert (Hsb : session_of wb callId = Some (set_pending true callId sa)).
  { unfold wb. now rewrite session_of_mutate, JsStr_eqb_refl, Hsa. }
  destruct (quiet_run between wb callId Hwb Ht Hq2) as (Hsig2 & Hst2).
  destruct (signals_kept _ _ _ _ Hsig2 Hsb) as (sc & Hsc & Hsigc).
  split; [|split].
  - rewrite !starts_app, Hst1, Hst2. reflexivity.
  - now apply pending_consistent_run.
  - exists sc. split; [exact Hsc|]. rewrite Hsigc. unfold signals. simpl.
    now rewrite Hra.
Qed.

(** [session.updated] first: up to the arrival of [call.answered] no
    start is issued, and the session is ready with nothing deferred. *)
Lemma ready_first (w : World) (s : Session) (callId : JsStr) (ws : OpenAIWs)
    (before between : list Event) :
  pending_consistent w -> truthy callId = true ->
  session_of w callId = Some s ->
  sessionReady s = false -> pendingMediaStart s = false ->
  quiet callId before = true -> quiet callId between = true ->
  let o := run w (before ++ [OpenAIMessage callId ws session_updated] ++ between) in
  starts callId (snd o) = 0%nat /\
  pending_consistent (fst o) /\
  exists s1, session_of (fst o) callId = Some s1 /\
             sessionReady s1 = true /\ pendingMediaStart s1 = false.
Proof.
  intros Hw Ht Hs Hr Hp Hq1 Hq2 o. subst o.
  rewrite !run_app. cbn [fst snd].
  destruct (quiet_run before w callId Hw Ht Hq1) as (Hsig1 & Hst1).
  destruct (signals_kept _ _ _ _ Hsig1 Hs) as (sa & Hsa & Hsiga).
  set (wa := fst (run w before)) in *.
  assert (Hwa : pending_consistent wa) by now apply pending_consistent_run.
  assert (Hpa : pendingMediaStart sa = false).
  { unfold signals in Hsiga. injection Hsiga as _ -> _. exact Hp. }
  assert (Estep : step wa (OpenAIMessage callId ws session_updated) =
                  (mutate wa callId (set_sessionReady true),
                   [SendOpenAI ws conversation_item_create])).
  { rewrite (ready_step wa callId ws sa Hsa), Hpa. reflexivity. }
  assert (Erun : run wa [OpenAIMessage callId ws session_updated] =
                 (mutate wa callId (set_sessionReady true),
                  [SendOpenAI ws conversation_item_create])).
  { cbn [run]. now rewrite Estep. }
  rewrite Erun. cbn [fst snd].
  set (wb := mutate wa callId (set_sessionReady true)) in *.
  assert (Hwb : pending_consistent wb).
  { replace wb with (fst (step wa (OpenAIMessage callId ws session_updated))).
    - now apply pending_consistent_step.
    - now rewrite Estep. }
  assert (Hsb : session_of wb callId = Some (set_sessionReady true sa)).
  { unfold wb. now rewrite session_of_mutate, JsStr_eqb_refl, Hsa. }
  destruct (quiet_run between wb callId Hwb Ht Hq2) as (Hsig2 & Hst2).
  destruct (signals_kept _ _ _ _ Hsig2 Hsb) as (sc & Hsc & Hsigc).
  split; [|split].
  - rewrite !starts_app, Hst1, Hst2. reflexivity.
  - now apply pending_consistent_run.
  - exists sc. split; [exact Hsc|]. unfold signals in Hsigc. simpl in Hsigc.
    injection Hsigc as -> -> _. split; [reflexivity | exact Hpa].
Qed.

(** Events that do not concern a call leave it without session, and
    with its signals. *)
Lemma quiet_run_absent (trace : list Event) (w : World) (c : JsStr) :
  pending_consistent w -> truthy c = true -> quiet c trace = true ->
  session_of w c = None ->
  session_of (fst (run w trace)) c = None /\
  starts c (snd (run w trace)) = 0%nat.
Proof.
  intros Hw Ht Hq Hs.
  destruct (quiet_run trace w c Hw Ht Hq) as (Hsig & Hst).
  split; [|exact Hst]. rewrite Hs in Hsig.
  destruct (session_of (fst (run w trace)) c); [discriminate | reflexivity].
Qed.

(** [call.answered] for a call without session records nothing. *)
Lemma answered_absent (w : World) (p : Payload) :
  truthy (call_control_id p) = true ->
  session_of w (call_control_id p) = None ->
  step w (Webhook "call.answered" (Some p)) = (w, []).
Proof.
  intros Ht Hs. cbn [step]. unfold webhook.
  change (String.eqb "call.answered" "call.initiated") with false.
  change (String.eqb "call.answered" "call.answered") with true.
  cbv iota. unfold handleCallAnswered, webhook_callId.
  rewrite js_or_truthy by exact Ht. now rewrite Hs.
Qed.

Lemma starts_one (c : JsStr) : starts c [StartMediaStream c] = 1%nat.
Proof. unfold starts. simpl. now rewrite JsStr_eqb_refl. Qed.

(** ** The outbound queue *)

Lemma relayed_map (t : TelnyxWs) (q : list Buffer) :
  relayed (map (SendTelnyx t) q) = q.
Proof. induction q; simpl; congruence. Qed.

Lemma sendAudioToTelnyx_queued (w : World) (callId : JsStr) (frame : Buffer)
    (session : Session) :
  session_of w callId = Some session -> len frame <> 0 ->
  relay_open w session = None ->
  sendAudioToTelnyx callId frame w =
  (mutate w callId (fun s => set_audioQueue (audioQueue s ++ [frame]) s), []).
Proof.
  intros Hs Hl Hr. unfold sendAudioToTelnyx. rewrite Hs, Hr.
  now rewrite (proj2 (Z.eqb_neq _ _) Hl).
Qed.

Lemma sendAudioToTelnyx_sent (w : World) (callId : JsStr) (frame : Buffer)
    (session : Session) (t : TelnyxWs) :
  session_of w callId = Some session -> len frame <> 0 ->
  relay_open w session = Some t ->
  sendAudioToTelnyx callId frame w =
  (mutate w callId (set_audioQueue []),
   SendTelnyx t frame :: map (SendTelnyx t) (audioQueue session)).
Proof.
  intros Hs Hl Hr. unfold sendAudioToTelnyx. rewrite Hs, Hr.
  now rewrite (proj2 (Z.eqb_neq _ _) Hl).
Qed.

Lemma bind_media_by_call_id (w : World) (ws : TelnyxWs) (callId : JsStr)
    (session : Session) :
  truthy callId = true ->
  get Nat.eqb (wsCallMap w) ws = Some callId ->
  session_of w callId = Some session ->
  telnyxWs session = None ->
  is_open (get Nat.eqb (telnyxState w) ws) = true ->
  bind_media ws w =
  (if 0 <? len (audioQueue session)
   then mutate (mutate w callId (set_telnyxWs (Some ws))) callId (set_audioQueue [])
   else mutate w callId (set_telnyxWs (Some ws)),
   map (SendTelnyx ws) (audioQueue session),
   Some callId).
Proof.
  intros Ht Hm Hs Hn Ho. unfold bind_media. rewrite Hm, Ht. cbn [negb].
  rewrite Hs, Hn, Ho, andb_true_r.
  destruct (0 <? len (audioQueue session)) eqn:E; [reflexivity|].
  apply Z.ltb_ge in E. destruct (audioQueue session); [reflexivity|].
  unfold len in E. simpl in E. lia.
Qed.

(** What the first part of the media message handler sends and what it
    does to each outbound queue, exactly. *)
Lemma bind_media_queues (ws : TelnyxWs) (w w1 : World) (sent : list Action)
    (c : JsStr) (s : Session) :
  bind_media ws w = (w1, sent, Some c) ->
  session_of w c = Some s ->
  sent = (if attach_flushes ws w s then map (SendTelnyx ws) (audioQueue s)
          else []) /\
  forall c' s',
    session_of w c' = Some s' ->
    exists s1',
      session_of w1 c' = Some s1' /\ media_bound ws s' s1' /\
      audioQueue s1' =
        if attach_flushes ws w s && JsStr_eqb c' c then [] else audioQueue s'.
Proof.
  unfold bind_media, attach_flushes.
  set (activeCallId := match get Nat.eqb (wsCallMap w) ws with
                       | Some c0 => c0
                       | None => None
                       end).
  assert (Hsame : forall c' s',
    session_of w c' = Some s' ->
    exists s1', session_of w c' = Some s1' /\ media_bound ws s' s1' /\
                audioQueue s1' = audioQueue s').
  { intros c' s' H. exists s'. split; [exact H|]. split; [now left | reflexivity]. }
  destruct (truthy activeCallId) eqn:Etr; cbn [negb andb].
  - destruct (session_of w activeCallId) as [session|] eqn:Es.
    2:{ intros H Hs. injection H as <- <- <-. congruence. }
    destruct (telnyxWs session) as [t|] eqn:Et.
    { intros H Hs. injection H as <- <- <-.
      assert (session = s) by congruence. subst session. rewrite Et.
      cbn [andb]. split; [reflexivity | exact Hsame]. }
    destruct ((0 <? len (audioQueue session))
              && is_open (get Nat.eqb (telnyxState w) ws)) eqn:Efl;
      intros H Hs; injection H as <- <- <-;
      assert (session = s) by congruence; subst session; rewrite Et;
      cbn [andb]; rewrite Efl.
    + split; [reflexivity|]. intros c' s' H. rewrite !session_of_mutate.
      rewrite (JsStr_eqb_sym c' activeCallId).
      destruct (JsStr_eqb activeCallId c') eqn:E.
      * apply JsStr_eqb_eq in E. subst c'. rewrite Es in *.
        injection H as <-. eexists. split; [reflexivity|].
        split; [unfold media_bound; auto | reflexivity].
      * cbn [andb]. exists s'. split; [exact H|]. split; [now left | reflexivity].
    + split; [reflexivity|]. intros c' s' H. rewrite session_of_mutate.
      destruct (JsStr_eqb activeCallId c') eqn:E.
      * apply JsStr_eqb_eq in E. subst c'. rewrite Es in *.
        injection H as <-. eexists. split; [reflexivity|].
        split; [unfold media_bound; auto | reflexivity].
      * exists s'. split; [exact H|]. split; [now left | reflexivity].
  - destruct (first_unattached (sessions w)) as [id|].
    + destruct (get Nat.eqb (wsCallMap w) ws) as [c0|];
        intros H Hs; [|discriminate]. injection H as <- <- <-.
      split; [reflexivity|]. intros c' s' H.
      pose proof (get_attach_first ws (sessions w) c') as Ha.
      unfold session_of in *. cbn [sessions with_wsCallMap with_sessions].
      rewrite H in Ha. destruct Ha as [Ha | Ha]; rewrite Ha;
        eexists; (split; [reflexivity|]);
        (split; [unfold media_bound; auto | reflexivity]).
    + intros H Hs. injection H as <- <- <-.
      split; [reflexivity | exact Hsame].
Qed.

(** While no media socket is attached, each audio chunk makes the queue
    one frame longer. *)
Lemma queueing_grows (n : nat) :
  forall (w : World) (s : Session),
    session_of w call_1 = Some s -> telnyxWs s = None ->
    exists s1,
      session_of
        (fst (run w (repeat (OpenAIMessage call_1 0
                               (response_audio_delta (Some delta_a))) n)))
        call_1 = Some s1 /\
      telnyxWs s1 = None /\
      List.length (audioQueue s1) = (List.length (audioQueue s) + n)%nat.
Proof.
  induction n as [|n IH]; intros w s Hs Hn.
  - exists s. repeat split; [exact Hs | exact Hn | simpl; lia].
  - cbn [repeat]. rewrite run_cons. cbn [fst].
    assert (E : step w (OpenAIMessage call_1 0 (response_audio_delta (Some delta_a)))
                = (mutate w call_1
                     (fun s => set_audioQueue (audioQueue s ++ [frame_a]) s), [])).
    { cbn [step onOpenAIMessage].
      change (resample24kHzTo8kHz unspecified delta_a) with (Ok frame_a).
      cbv iota. change (0 <? len frame_a) with true. cbv iota.
      apply (sendAudioToTelnyx_queued w call_1 frame_a s Hs).
      - discriminate.
      - unfold relay_open. now rewrite Hn. }
    rewrite E. cbn [fst].
    destruct (IH (mutate w call_1
                    (fun s => set_audioQueue (audioQueue s ++ [frame_a]) s))
                 (set_audioQueue (audioQueue s ++ [frame_a]) s))
      as (s1 & Hs1 & Hn1 & Hl1).
    + now rewrite session_of_mutate, JsStr_eqb_refl, Hs.
    + exact Hn.
    + exists s1. repeat split; [exact Hs1 | exact Hn1|].
      rewrite Hl1. simpl. rewrite length_app. simpl. lia.
Qed.

Lemma queue_unbounded (n : nat) :
  exists s,
    session_of (fst (run initial (queueing_trace n))) call_1 = Some s /\
    List.length (audioQueue s) = n.
Proof.
  unfold queueing_trace. rewrite !run_cons.
  destruct (queueing_grows n
              (fst (step (fst (step initial (AnswerSettled call_1 call_1 true)))
                      (OpenAIOpen call_1 0)))
              (mkSession 0 call_1 false None false None false [])
              eq_refl eq_refl) as (s1 & Hs1 & _ & Hl).
  exists s1. split; [exact Hs1 | exact Hl].
Qed.

End BridgeFacts.

(* ================================================================== *)
(** * Further facts about the resamplers                               *)
(* ================================================================== *)

Section ResamplerMore.
Import Resampler Spec.

Lemma zrange_app (i0 : Z) (n m : nat) :
  zrange i0 (n + m) = zrange i0 n ++ zrange (i0 + Z.of_nat n) m.
Proof.
  revert i0. induction n as [|n IH]; intros i0.
  - simpl. now rewrite Z.add_0_r.
  - cbn [Nat.add zrange app]. rewrite IH. do 3 f_equal. lia.
Qed.

Lemma zrange_shift (i0 k : Z) (n : nat) :
  zrange (i0 + k) n = map (fun i => i + k) (zrange i0 n).
Proof.
  revert i0. induction n as [|n IH]; intros i0; [reflexivity|].
  cbn [zrange map]. f_equal. rewrite <- IH. f_equal. lia.
Qed.

Lemma map_nth_zrange (l : list Z) (i0 : Z) :
  map (fun i => nth (Z.to_nat (i - i0)) l 0) (zrange i0 (List.length l)) = l.
Proof.
  revert i0. induction l as [|x t IH]; intros i0; [reflexivity|].
  cbn [List.length zrange map]. rewrite Z.sub_diag. cbn [Z.to_nat nth].
  f_equal. rewrite <- (IH (i0 + 1)) at 2.
  apply map_ext_in. intros i Hi. apply zrange_In in Hi.
  replace (Z.to_nat (i - i0)) with (S (Z.to_nat (i - (i0 + 1)))) by lia.
  reflexivity.
Qed.

Lemma samples_app (a b : Buffer) :
  Nat.even (List.length a) = true ->
  samples (a ++ b) = samples a ++ samples b.
Proof.
  induction a as [|x|x y t IH] using pair_ind; intros He.
  - reflexivity.
  - discriminate.
  - cbn [List.length Nat.even] in He. cbn [app samples]. now rewrite IH.
Qed.

Lemma encode_samples (b : Buffer) :
  flat_map encode16 (samples b) = whole_samples b.
Proof.
  unfold whole_samples. induction b as [|x|x y t IH] using pair_ind;
    try reflexivity.
  cbn [samples flat_map encode16 app List.length Nat.div2].
  replace (2 * S (Nat.div2 (List.length t)))%nat
    with (S (S (2 * Nat.div2 (List.length t)))) by lia.
  cbn [firstn]. now rewrite int16_lo, int16_hi, IH.
Qed.

Lemma clamp16_id (v : Z) : -32768 <= v <= 32767 -> clamp16 v = v.
Proof. unfold clamp16. lia. Qed.

Lemma len_even_half (b : Buffer) :
  Nat.even (List.length b) = true -> len b = 2 * (len b / 2).
Proof.
  intros He. apply Nat.even_spec in He. destruct He as (k & Hk).
  unfold len. rewrite Hk, Nat2Z.inj_mul. change (Z.of_nat 2) with 2.
  rewrite (Z.mul_comm 2 (Z.of_nat k)), Z.div_mul by lia. lia.
Qed.

(** At a position that is a multiple of three the upsampler stores the
    input sample itself. *)
Lemma up_val_on_grid (b : Buffer) (i : Z) :
  0 <= i < len b / 2 ->
  up_val b (3 * i) = nth (Z.to_nat i) (samples b) 0.
Proof.
  intros Hi. unfold up_val.
  rewrite (Z.mul_comm 3 i), Z.div_mul, Z.mod_mul by lia.
  destruct (i >=? len b / 2 - 1) eqn:E.
  - rewrite Z.geb_leb in E. apply Z.leb_le in E. f_equal. lia.
  - rewrite Z.mul_0_r, Z.add_0_r.
    replace (6 * nth (Z.to_nat i) (samples b) 0 + 3)
      with (3 + nth (Z.to_nat i) (samples b) 0 * 6) by lia.
    rewrite Z.div_add by lia. change (3 / 6) with 0. rewrite Z.add_0_l.
    apply clamp16_id, samples_nth_range.
Qed.

Lemma rounding_between (a b r : Z) :
  0 <= r < 3 ->
  Z.min a b <= (6 * a + 2 * (b - a) * r + 3) / 6 <= Z.max a b.
Proof.
  intros Hr.
  pose proof (Z.div_mod (6 * a + 2 * (b - a) * r + 3) 6 ltac:(lia)) as Hd.
  pose proof (Z.mod_pos_bound (6 * a + 2 * (b - a) * r + 3) 6 ltac:(lia)) as Hm.
  remember ((6 * a + 2 * (b - a) * r + 3) / 6) as q.
  remember ((6 * a + 2 * (b - a) * r + 3) mod 6) as m.
  assert (Hcases : r = 0 \/ r = 1 \/ r = 2) by lia.
  destruct Hcases as [-> | [-> | ->]]; lia.
Qed.

Lemma even_of_mod (b : Buffer) :
  len b mod 2 = 0 -> Nat.even (List.length b) = true.
Proof.
  intros H. apply Nat.even_spec. exists (Z.to_nat (len b / 2)).
  pose proof (Z.div_mod (len b) 2 ltac:(lia)) as Hd. rewrite H in Hd.
  pose proof (len_nonneg b). unfold len in *. lia.
Qed.

Lemma firstn_zrange (i0 : Z) (n m : nat) :
  firstn n (zrange i0 (n + m)) = zrange i0 n.
Proof.
  rewrite zrange_app.
  rewrite <- (zrange_length i0 n) at 1.
  rewrite firstn_app, firstn_all, Nat.sub_diag. cbn [firstn].
  apply app_nil_r.
Qed.

Lemma skipn_zrange (i0 : Z) (n m : nat) :
  skipn n (zrange i0 (n + m)) = zrange (i0 + Z.of_nat n) m.
Proof.
  rewrite zrange_app.
  rewrite <- (zrange_length i0 n) at 1.
  rewrite skipn_app, skipn_all, Nat.sub_diag. reflexivity.
Qed.

Lemma nth_app_left (l1 l2 : list Z) (k : Z) :
  0 <= k < len l1 -> nth (Z.to_nat k) (l1 ++ l2) 0 = nth (Z.to_nat k) l1 0.
Proof. intros Hk. apply app_nth1. unfold len in Hk. lia. Qed.

Lemma nth_app_right (l1 l2 : list Z) (k : Z) :
  0 <= k -> nth (Z.to_nat (len l1 + k)) (l1 ++ l2) 0 = nth (Z.to_nat k) l2 0.
Proof.
  intros Hk. unfold len. rewrite app_nth2 by lia. f_equal. lia.
Qed.

(** Downsampling a buffer that ends on a whole group of three samples,
    followed by anything, is downsampling the two pieces. *)
Lemma down_val_app (a b : Buffer) :
  len a mod 6 = 0 ->
  down_count (a ++ b) = down_count a + down_count b /\
  (forall i, 0 <= i < down_count a -> down_val (a ++ b) i = down_val a i) /\
  (forall i, 0 <= i -> down_val (a ++ b) (i + down_count a) = down_val b i).
Proof.
  intros H6.
  pose proof (Z.div_mod (len a) 6 ltac:(lia)) as Hd. rewrite H6 in Hd.
  assert (H2 : len a mod 2 = 0).
  { rewrite Hd, Z.add_0_r. replace (6 * (len a / 6)) with ((3 * (len a / 6)) * 2) by lia.
    apply Z.mod_mul. lia. }
  pose proof (len_nonneg a) as Ha. pose proof (len_nonneg b) as Hb.
  assert (Hq : 0 <= len a / 6) by (apply Z.div_pos; lia).
  assert (Hca : down_count a = len a / 6).
  { unfold down_count. rewrite Z.div_div by lia. reflexivity. }
  assert (Hsa : len (samples a) = 3 * (len a / 6)).
  { rewrite samples_len. rewrite Hd at 1. rewrite Z.add_0_r.
    replace (6 * (len a / 6)) with ((3 * (len a / 6)) * 2) by lia.
    apply Z.div_mul. lia. }
  assert (Hs : samples (a ++ b) = samples a ++ samples b)
    by (apply samples_app, even_of_mod, H2).
  split; [|split].
  - rewrite Hca. unfold down_count, len. rewrite length_app, Nat2Z.inj_add.
    fold (len a) (len b). rewrite !Z.div_div by lia. change (2 * 3) with 6.
    rewrite Hd at 1. rewrite Z.add_0_r.
    replace (6 * (len a / 6) + len b) with (len b + (len a / 6) * 6) by lia.
    rewrite Z.div_add by lia. lia.
  - intros i Hi. unfold down_val. rewrite Hs. apply nth_app_left. lia.
  - intros i Hi. unfold down_val. rewrite Hs.
    replace ((i + down_count a) * 3) with (len (samples a) + i * 3) by lia.
    apply nth_app_right. lia.
Qed.

Lemma up_samples (garbage : nat -> byte) (b : Buffer) :
  exists out : Buffer,
    resample8kHzTo24kHz garbage b = Ok out /\
    samples out =
      map (upsample_at (samples b)) (zrange 0 (Z.to_nat (3 * (len b / 2)))).
Proof.
  eexists. split; [apply up_result|].
  rewrite samples_encoded.
  - unfold up_count. rewrite (Z.mul_comm 3). apply map_ext.
    intros i. apply up_val_spec.
  - apply Forall_map_range. intros i. apply up_val_range.
Qed.

Lemma len_app {A} (l1 l2 : list A) : len (l1 ++ l2) = len l1 + len l2.
Proof. unfold len. rewrite length_app. lia. Qed.

(** Before the last sample of the first chunk, upsampling does not see
    what follows the chunk. *)
Lemma upsample_at_app_left (xa xb : list Z) (p : Z) :
  Forall (fun v => -32768 <= v <= 32767) xa ->
  0 <= p <= 3 * (len xa - 1) ->
  upsample_at (xa ++ xb) p = upsample_at xa p.
Proof.
  intros Hr Hp. unfold upsample_at. rewrite len_app.
  pose proof (len_nonneg xb) as Hb.
  assert (Hj : 0 <= p / 3 <= len xa - 1).
  { split; [apply Z.div_pos; lia|]. apply Z.div_le_upper_bound; lia. }
  rewrite !Math_round_interpolation.
  destruct (p / 3 + 1 <? len xa) eqn:E.
  - apply Z.ltb_lt in E.
    replace (p / 3 + 1 <? len xa + len xb) with true
      by (symmetry; apply Z.ltb_lt; lia).
    now rewrite !nth_app_left by lia.
  - apply Z.ltb_ge in E.
    assert (Hp3 : p = 3 * (len xa - 1)).
    { pose proof (Z.div_mod p 3 ltac:(lia)).
      pose proof (Z.mod_pos_bound p 3 ltac:(lia)). lia. }
    assert (Hx : -32768 <= nth (Z.to_nat (len xa - 1)) xa 0 <= 32767).
    { rewrite Forall_forall in Hr. apply Hr, nth_In. unfold len in *. lia. }
    destruct (p / 3 + 1 <? len xa + len xb) eqn:E2.
    + replace (p / 3) with (len xa - 1) by lia.
      replace (p mod 3) with 0
        by (rewrite Hp3, Z.mul_comm; symmetry; apply Z.mod_mul; lia).
      rewrite Z.mul_0_r, Z.add_0_r.
      rewrite (nth_app_left xa xb (len xa - 1)) by lia.
      replace (6 * nth (Z.to_nat (len xa - 1)) xa 0 + 3)
        with (3 + nth (Z.to_nat (len xa - 1)) xa 0 * 6) by lia.
      rewrite Z.div_add by lia. change (3 / 6) with 0. rewrite Z.add_0_l.
      now apply clamp16_id.
    + apply Z.ltb_ge in E2. assert (len xb = 0) by lia.
      replace (len xa + len xb - 1) with (len xa - 1) by lia.
      apply nth_app_left. lia.
Qed.

(** From the first sample of the second chunk on, upsampling does not
    see what precedes the chunk. *)
Lemma upsample_at_app_right (xa xb : list Z) (q : Z) :
  0 <= q < 3 * len xb ->
  upsample_at (xa ++ xb) (3 * len xa + q) = upsample_at xb q.
Proof.
  intros Hq. unfold upsample_at. rewrite len_app.
  pose proof (len_nonneg xa) as Ha.
  assert (Hd : (3 * len xa + q) / 3 = len xa + q / 3).
  { rewrite Z.add_comm, (Z.mul_comm 3), Z.div_add by lia. lia. }
  assert (Hm : (3 * len xa + q) mod 3 = q mod 3).
  { rewrite Z.add_comm, (Z.mul_comm 3). apply Z.mod_add. lia. }
  assert (Hj : 0 <= q / 3 < len xb).
  { split; [apply Z.div_pos; lia | apply Z.div_lt_upper_bound; lia]. }
  rewrite !Math_round_interpolation, Hd, Hm.
  replace (len xa + q / 3 + 1 <? len xa + len xb) with (q / 3 + 1 <? len xb)
    by (destruct (q / 3 + 1 <? len xb) eqn:E; symmetry;
        [apply Z.ltb_lt; apply Z.ltb_lt in E | apply Z.ltb_ge; apply Z.ltb_ge in E];
        lia).
  destruct (q / 3 + 1 <? len xb).
  - replace (len xa + q / 3 + 1) with (len xa + (q / 3 + 1)) by lia.
    now rewrite !nth_app_right by lia.
  - replace (len xa + len xb - 1) with (len xa + (len xb - 1)) by lia.
    apply nth_app_right. lia.
Qed.

End ResamplerMore.

(* ================================================================== *)
(** * Further facts about the bridge                                   *)
(* ================================================================== *)

Section BridgeMore.
Import Resampler Bridge Observe More.

Lemma down_short (garbage : nat -> byte) (b : Buffer) :
  len b < 6 -> resample24kHzTo8kHz garbage b = Ok [].
Proof.
  intros Hl. rewrite down_result.
  assert (Hc : down_count b = 0).
  { unfold down_count. pose proof (len_nonneg b).
    rewrite Z.div_div by lia. apply Z.div_small. lia. }
  now rewrite Hc.
Qed.

Lemma down_length (garbage : nat -> byte) (b : Buffer) :
  exists out, resample24kHzTo8kHz garbage b = Ok out /\
              len out = 2 * (len b / 6).
Proof.
  eexists. split; [apply down_result|].
  unfold len at 1. rewrite encoded_length, length_map, zrange_length.
  assert (Hc : 0 <= down_count b).
  { unfold down_count. pose proof (len_nonneg b).
    apply Z.div_pos; [apply Z.div_pos|]; lia. }
  unfold down_count in *. rewrite Z.div_div in * by lia. change (2 * 3) with 6 in *.
  lia.
Qed.

Lemma up_length (garbage : nat -> byte) (b : Buffer) :
  exists out, resample8kHzTo24kHz garbage b = Ok out /\
              len out = 6 * (len b / 2).
Proof.
  eexists. split; [apply up_result|].
  unfold len at 1. rewrite encoded_length, length_map, zrange_length.
  pose proof (up_count_nonneg b). unfold up_count in *. lia.
Qed.

Lemma relayed_app (a b : list Action) :
  relayed (a ++ b) = relayed a ++ relayed b.
Proof.
  induction a as [|x a IH]; [reflexivity|].
  destruct x; simpl; rewrite IH; reflexivity.
Qed.

(** What the second part of the media message handler sends for a
    session that is ready. *)
Lemma forward_media_ready (c : JsStr) (audioBuffer : Buffer) (w : World)
    (s : Session) :
  truthy c = true -> session_of w c = Some s -> sessionReady s = true ->
  2 <= len audioBuffer ->
  exists up,
    resample8kHzTo24kHz unspecified audioBuffer = Ok up /\
    len up = 6 * (len audioBuffer / 2) /\
    forward_media c audioBuffer w =
      if is_open (get Nat.eqb (openaiState w) (openaiWs s))
      then [SendOpenAI (openaiWs s) (input_audio_buffer_append up)]
      else [].
Proof.
  intros Ht Hs Hr Hl.
  destruct (up_length unspecified audioBuffer) as (up & Hup & Hlen).
  exists up. split; [exact Hup|]. split; [exact Hlen|].
  unfold forward_media. rewrite Ht, Hs, Hr, Hup. cbn [negb].
  assert (Hk : 1 <= len audioBuffer / 2) by (apply Z.div_le_lower_bound; lia).
  replace (len up =? 0) with false by (symmetry; apply Z.eqb_neq; lia).
  reflexivity.
Qed.

(** What a message from OpenAI does to the outbound audio of its
    session: at most one frame is handed over, and it is sent ahead of
    the queue if the media socket is open, queued otherwise. *)
Lemma message_step_audio (w : World) (c : JsStr) (ws : OpenAIWs) (m : ServerMsg)
    (s : Session) :
  session_of w c = Some s ->
  let o := step w (OpenAIMessage c ws m) in
  exists s1,
    session_of (fst o) c = Some s1 /\
    telnyxWs s1 = telnyxWs s /\
    telnyxState (fst o) = telnyxState w /\
    wsCallMap (fst o) = wsCallMap w /\
    match frame_of m, relay_open w s with
    | [], _ => relayed (snd o) = [] /\ audioQueue s1 = audioQueue s
    | f :: _, Some t => relayed (snd o) = f :: audioQueue s /\ audioQueue s1 = []
    | f :: _, None => relayed (snd o) = [] /\ audioQueue s1 = audioQueue s ++ [f]
    end.
Proof.
  intros Hs o. subst o.
  assert (Hidle : forall acts,
    relayed acts = [] ->
    exists s1, session_of (fst (w, acts)) c = Some s1 /\
               telnyxWs s1 = telnyxWs s /\
               telnyxState (fst (w, acts)) = telnyxState w /\
               wsCallMap (fst (w, acts)) = wsCallMap w /\
               relayed (snd (w, acts)) = [] /\ audioQueue s1 = audioQueue s).
  { intros acts Ha. exists s. cbn [fst snd]. repeat split; assumption. }
  assert (Hmut : forall f acts,
    relayed acts = [] ->
    (forall x, telnyxWs (f x) = telnyxWs x /\ audioQueue (f x) = audioQueue x) ->
    exists s1, session_of (fst (mutate w c f, acts)) c = Some s1 /\
               telnyxWs s1 = telnyxWs s /\
               telnyxState (fst (mutate w c f, acts)) = telnyxState w /\
               wsCallMap (fst (mutate w c f, acts)) = wsCallMap w /\
               relayed (snd (mutate w c f, acts)) = [] /\
               audioQueue s1 = audioQueue s).
  { intros f acts Ha Hf. exists (f s). cbn [fst snd].
    rewrite session_of_mutate, JsStr_eqb_refl, Hs.
    destruct (Hf s) as [H1 H2]. repeat split; assumption. }
  destruct m as [|item|delta| |]; cbn [step onOpenAIMessage frame_of]; rewrite ?Hs.
  - destruct (pendingMediaStart s && truthy (pendingCallControlId s)).
    + replace (mutate (mutate w c (set_sessionReady true)) c (set_pending false None))
        with (mutate w c (fun x => set_pending false None (set_sessionReady true x))).
      * apply Hmut; [reflexivity | intros x; split; reflexivity].
      * unfold mutate, with_sessions, update. cbn [sessions]. f_equal.
        rewrite map_map. apply map_ext. intros [k v]. cbn [fst snd].
        destruct (JsStr_eqb k c) eqn:E; cbn [fst snd]; rewrite ?E; reflexivity.
    + apply Hmut; [reflexivity | intros x; split; reflexivity].
  - destruct (is_user item && negb (hasActiveResponse s)); [|now apply Hidle].
    destruct (is_connecting _); [now apply Hidle|].
    apply Hmut; [reflexivity | intros x; split; reflexivity].
  - destruct delta as [audioBuffer|]; [|now apply Hidle].
    destruct (resample24kHzTo8kHz unspecified audioBuffer) as [out|];
      [|now apply Hidle].
    destruct (0 <? len out) eqn:El; [|now apply Hidle].
    apply Z.ltb_lt in El.
    destruct (relay_open w s) as [t|] eqn:Er.
    + rewrite (sendAudioToTelnyx_sent w c out s t Hs ltac:(lia) Er).
      exists (set_audioQueue [] s). cbn [fst snd].
      rewrite session_of_mutate, JsStr_eqb_refl, Hs.
      repeat split. cbn [relayed]. now rewrite relayed_map.
    + rewrite (sendAudioToTelnyx_queued w c out s Hs ltac:(lia) Er).
      exists (set_audioQueue (audioQueue s ++ [out]) s). cbn [fst snd].
      rewrite session_of_mutate, JsStr_eqb_refl, Hs. repeat split.
  - apply Hmut; [reflexivity | intros x; split; reflexivity].
  - now apply Hidle.
Qed.

Lemma relay_open_same (w w1 : World) (s s1 : Session) :
  telnyxWs s1 = telnyxWs s -> telnyxState w1 = telnyxState w ->
  relay_open w1 s1 = relay_open w s.
Proof. intros H1 H2. unfold relay_open. now rewrite H1, H2. Qed.

Lemma frame_of_cases (m : ServerMsg) :
  frame_of m = [] \/ exists f, frame_of m = [f].
Proof.
  destruct m as [|item|[d|]| |]; cbn; auto.
  destruct (resample24kHzTo8kHz unspecified d) as [out|]; auto.
  destruct (0 <? len out); eauto.
Qed.

(** While the session has no open media socket, the frames pile up in
    the queue in their order of arrival and nothing is relayed. *)
Lemma run_messages_queued (c : JsStr) (ws : OpenAIWs) (ms : list ServerMsg) :
  forall (w : World) (s : Session),
    session_of w c = Some s -> relay_open w s = None ->
    let o := run w (map (OpenAIMessage c ws) ms) in
    exists sN,
      session_of (fst o) c = Some sN /\
      telnyxWs sN = telnyxWs s /\
      telnyxState (fst o) = telnyxState w /\
      wsCallMap (fst o) = wsCallMap w /\
      relayed (snd o) = [] /\
      audioQueue sN = audioQueue s ++ produced ms.
Proof.
  induction ms as [|m rest IH]; intros w s Hs Hr o; subst o.
  - exists s. cbn. rewrite app_nil_r. repeat split. exact Hs.
  - cbn [map]. rewrite run_cons. cbn [fst snd].
    destruct (message_step_audio w c ws m s Hs) as (s1 & Hs1 & Ht & Hst & Hm & Hq).
    rewrite Hr in Hq.
    assert (Hr1 : relay_open (fst (step w (OpenAIMessage c ws m))) s1 = None)
      by (rewrite (relay_open_same w _ s s1 Ht Hst); exact Hr).
    destruct (IH _ s1 Hs1 Hr1) as (sN & HsN & HtN & HstN & HmN & HrN & HqN).
    exists sN. split; [exact HsN|]. split; [congruence|].
    split; [congruence|]. split; [congruence|].
    rewrite relayed_app, HrN, HqN. cbn [produced flat_map].
    destruct (frame_of_cases m) as [E | (f & E)]; rewrite E in *;
      destruct Hq as [-> ->]; split; try reflexivity.
    now rewrite <- app_assoc.
Qed.

(** While the session has an open media socket and an empty queue, every
    frame is relayed at once, in order, and the queue stays empty. *)
Lemma run_messages_steady (c : JsStr) (ws : OpenAIWs) (ms : list ServerMsg) :
  forall (w : World) (s : Session) (t : TelnyxWs),
    session_of w c = Some s -> relay_open w s = Some t -> audioQueue s = [] ->
    let o := run w (map (OpenAIMessage c ws) ms) in
    exists sN,
      session_of (fst o) c = Some sN /\
      relay_open (fst o) sN = Some t /\
      relayed (snd o) = produced ms /\
      audioQueue sN = [].
Proof.
  induction ms as [|m rest IH]; intros w s t Hs Hr Hq0 o; subst o.
  - exists s. cbn. repeat split; assumption.
  - cbn [map]. rewrite run_cons. cbn [fst snd].
    destruct (message_step_audio w c ws m s Hs) as (s1 & Hs1 & Ht & Hst & _ & Hq).
    rewrite Hr, Hq0 in Hq.
    assert (Hr1 : relay_open (fst (step w (OpenAIMessage c ws m))) s1 = Some t)
      by (rewrite (relay_open_same w _ s s1 Ht Hst); exact Hr).
    assert (Hq1 : audioQueue s1 = []).
    { destruct (frame_of_cases m) as [E | (f & E)]; rewrite E in Hq;
        destruct Hq as [_ ->]; reflexivity. }
    destruct (IH _ s1 t Hs1 Hr1 Hq1) as (sN & HsN & HrN & HrelN & HqN).
    exists sN. split; [exact HsN|]. split; [exact HrN|]. split; [|exact HqN].
    rewrite relayed_app, HrelN. cbn [produced flat_map]. f_equal.
    destruct (frame_of_cases m) as [E | (f & E)]; rewrite E in *;
      destruct Hq as [-> _]; reflexivity.
Qed.

(** No frame is lost or duplicated on the way from OpenAI to the media
    socket or the queue. *)
Lemma run_messages_conserve (c : JsStr) (ws : OpenAIWs) (ms : list ServerMsg) :
  forall (w : World) (s : Session),
    session_of w c = Some s ->
    let o := run w (map (OpenAIMessage c ws) ms) in
    exists sN,
      session_of (fst o) c = Some sN /\
      Permutation (relayed (snd o) ++ audioQueue sN) (audioQueue s ++ produced ms).
Proof.
  induction ms as [|m rest IH]; intros w s Hs o; subst o.
  - exists s. cbn. rewrite app_nil_r. split; [exact Hs | apply Permutation_refl].
  - cbn [map]. rewrite run_cons. cbn [fst snd].
    destruct (message_step_audio w c ws m s Hs) as (s1 & Hs1 & _ & _ & _ & Hq).
    destruct (IH _ s1 Hs1) as (sN & HsN & HP).
    exists sN. split; [exact HsN|].
    rewrite relayed_app, <- app_assoc. cbn [produced flat_map].
    eapply Permutation_trans; [apply Permutation_app_head, HP|].
    fold (produced rest). rewrite !app_assoc. apply Permutation_app_tail.
    destruct (frame_of_cases m) as [E | (f & E)]; rewrite E in *.
    + destruct Hq as [-> ->]. cbn. rewrite app_nil_r. apply Permutation_refl.
    + destruct (relay_open w s); destruct Hq as [-> ->].
      * cbn. rewrite app_nil_r. apply Permutation_cons_append.
      * cbn. apply Permutation_refl.
Qed.

Lemma forward_media_relays_nothing (c : JsStr) (b : Buffer) (w : World) :
  relayed (forward_media c b w) = [].
Proof.
  unfold forward_media.
  destruct (negb (truthy c)); [reflexivity|].
  destruct (session_of w c) as [session|]; [|reflexivity].
  destruct (negb (sessionReady session)); [reflexivity|].
  destruct (resample8kHzTo24kHz unspecified b) as [r|]; [|reflexivity].
  destruct (len r =? 0); [reflexivity|].
  destruct (is_open _); reflexivity.
Qed.

(** The first media frame on a socket registered under the call id of a
    session without media socket attaches the socket and flushes the
    queue in order. *)
Lemma media_attach_flushes (w : World) (t : TelnyxWs) (c : JsStr) (s : Session)
    (b : Buffer) :
  truthy c = true ->
  get Nat.eqb (wsCallMap w) t = Some c ->
  session_of w c = Some s ->
  telnyxWs s = None ->
  is_open (get Nat.eqb (telnyxState w) t) = true ->
  len b <> 0 ->
  let o := step w (TelnyxMessage t (Binary b)) in
  session_of (fst o) c = Some (set_audioQueue [] (set_telnyxWs (Some t) s)) /\
  telnyxState (fst o) = telnyxState w /\
  relayed (snd o) = audioQueue s.
Proof.
  intros Ht Hm Hs Hn Ho Hl o. subst o.
  cbn [step onTelnyxMessage].
  rewrite (proj2 (Z.eqb_neq _ _) Hl).
  rewrite (bind_media_by_call_id w t c s Ht Hm Hs Hn Ho).
  cbn [fst snd]. rewrite relayed_app, relayed_map, forward_media_relays_nothing,
    app_nil_r.
  destruct (0 <? len (audioQueue s)) eqn:E.
  - rewrite !session_of_mutate, JsStr_eqb_refl, Hs. repeat split.
  - rewrite session_of_mutate, JsStr_eqb_refl, Hs.
    apply Z.ltb_ge in E.
    assert (Hq : audioQueue s = []).
    { destruct (audioQueue s); [reflexivity|]. unfold len in E. simpl in E. lia. }
    repeat split. destruct s; cbn in *. now subst.
Qed.

(** ** Sockets of sessions *)

Lemma inherits_refl (w : World) : inherits w w.
Proof. split; [reflexivity|]. intros c s1 H. now exists s1. Qed.

Lemma inherits_trans (w w1 w2 : World) :
  inherits w w1 -> inherits w1 w2 -> inherits w w2.
Proof.
  intros [Hn1 H1] [Hn2 H2]. split; [congruence|].
  intros c s2 Hs2. destruct (H2 c s2 Hs2) as (s1 & Hs1 & E1).
  destruct (H1 c s1 Hs1) as (s & Hs & E). exists s. split; congruence.
Qed.

Lemma inherits_sessions (w w1 : World) :
  sessions w1 = sessions w -> nextWs w1 = nextWs w -> inherits w w1.
Proof.
  intros Hs Hn. split; [exact Hn|]. intros c s1 H. exists s1.
  unfold session_of in *. rewrite Hs in H. now split.
Qed.

Lemma inherits_mutate (w : World) (k : JsStr) (f : Session -> Session) :
  (forall x, openaiWs (f x) = openaiWs x) -> inherits w (mutate w k f).
Proof.
  intros Hf. split; [reflexivity|]. intros c s1. rewrite session_of_mutate.
  destruct (JsStr_eqb k c).
  - destruct (session_of w c) as [s|]; [|discriminate].
    intros H. injection H as <-. exists s. now split.
  - intros H. now exists s1.
Qed.

Lemma inherits_delete (w : World) (k : JsStr) :
  inherits w (with_sessions w (delete JsStr_eqb (sessions w) k)).
Proof.
  split; [reflexivity|]. intros c s1. rewrite session_of_deleted.
  destruct (JsStr_eqb k c); [discriminate|]. intros H. now exists s1.
Qed.

Lemma nextWs_bind_media (ws : TelnyxWs) (w w1 : World) (sent : list Action)
    (active : option JsStr) :
  bind_media ws w = (w1, sent, active) -> nextWs w1 = nextWs w.
Proof.
  unfold bind_media.
  destruct (negb (truthy _)).
  - destruct (first_unattached (sessions w)).
    + destruct (get Nat.eqb (wsCallMap w) ws); intros H; injection H as <- _ _;
        reflexivity.
    + intros H; injection H as <- _ _; reflexivity.
  - destruct (session_of w _) as [session|].
    + destruct (telnyxWs session).
      * intros H; injection H as <- _ _; reflexivity.
      * destruct (_ && _); intros H; injection H as <- _ _; reflexivity.
    + intros H; injection H as <- _ _; reflexivity.
Qed.

Lemma inherits_bind_media (ws : TelnyxWs) (w w1 : World) (sent : list Action)
    (active : option JsStr) :
  bind_media ws w = (w1, sent, active) -> inherits w w1.
Proof.
  intros H. split; [exact (nextWs_bind_media ws w w1 sent active H)|].
  destruct (bind_media_spec ws w w1 sent active H) as (_ & Hs & _).
  intros c s1 Hs1. specialize (Hs c).
  destruct (session_of w c) as [s|]; [|congruence].
  destruct Hs as (s1' & Hs1' & Hb). exists s. split; [reflexivity|].
  assert (s1' = s1) by congruence. subst s1'.
  destruct Hb as [-> | [-> | ->]]; reflexivity.
Qed.

(** Only the creation of a session brings a new socket to OpenAI into
    the registry. *)
Lemma step_inherits (w : World) (e : Event) :
  creates e = false -> inherits w (fst (step w e)).
Proof.
  destruct e as [et payload|cid cc ok|cid ws|cid ws m|cid ws|cid ws
                |ws cid|ws data|ws]; cbn [step creates]; intros Hc.
  - unfold webhook.
    destruct (String.eqb et "call.initiated").
    { unfold handleCallInitiated. destruct payload; apply inherits_refl. }
    destruct (String.eqb et "call.answered").
    { unfold handleCallAnswered. destruct payload as [p|]; [|apply inherits_refl].
      destruct (session_of w _) as [session|]; [|apply inherits_refl].
      destruct (sessionReady session); [apply inherits_refl|].
      apply inherits_mutate. reflexivity. }
    destruct (_ || _); [|apply inherits_refl].
    unfold handleCallHangup.
    destruct (session_of w _) as [session|]; [|apply inherits_refl].
    cbn [fst].
    apply inherits_trans with (close_openai (openaiWs session) w).
    + apply inherits_sessions; [apply sessions_close_openai|].
      unfold close_openai.
      destruct (get Nat.eqb (openaiState w) (openaiWs session)) as [[]|];
        reflexivity.
    + apply inherits_delete.
  - subst ok. apply inherits_refl.
  - apply inherits_sessions; reflexivity.
  - destruct m as [|item|[d|]| |]; cbn [onOpenAIMessage].
    + destruct (session_of w cid) as [session|]; [|apply inherits_refl].
      destruct (_ && _); cbn [fst].
      * apply inherits_trans with (mutate w cid (set_sessionReady true));
          apply inherits_mutate; reflexivity.
      * apply inherits_mutate; reflexivity.
    + destruct (session_of w cid) as [session|]; [|apply inherits_refl].
      destruct (_ && _); [|apply inherits_refl].
      destruct (is_connecting _); [apply inherits_refl|].
      apply inherits_mutate; reflexivity.
    + destruct (resample24kHzTo8kHz unspecified d) as [out|];
        [|apply inherits_refl].
      destruct (0 <? len out); [|apply inherits_refl].
      unfold sendAudioToTelnyx.
      destruct (session_of w cid) as [session|]; [|apply inherits_refl].
      destruct (len out =? 0); [apply inherits_refl|].
      destruct (relay_open w session); apply inherits_mutate; reflexivity.
    + apply inherits_refl.
    + destruct (session_of w cid) as [session|]; [|apply inherits_refl].
      apply inherits_mutate; reflexivity.
    + apply inherits_refl.
  - apply inherits_refl.
  - unfold onOpenAIClose.
    set (w1 := with_openaiState w _).
    assert (H1 : inherits w w1) by (apply inherits_sessions; reflexivity).
    destruct (session_of w1 cid) as [session|]; [|exact H1].
    destruct (Nat.eqb _ ws); [|exact H1].
    eapply inherits_trans; [exact H1 | apply inherits_delete].
  - apply inherits_sessions; reflexivity.
  - unfold onTelnyxMessage.
    destruct data as [b| |b]; try apply inherits_refl;
      (destruct (len b =? 0); [apply inherits_refl|]);
      destruct (bind_media ws w) as [[w1 sent] [a|]] eqn:Eb; cbn [fst];
      exact (inherits_bind_media ws w w1 sent _ Eb).
  - unfold onTelnyxClose. cbn [fst].
    set (w1 := with_telnyxState w _).
    set (callId := match get Nat.eqb (wsCallMap w1) ws with
                   | Some c => c | None => None end).
    assert (H1 : inherits w w1) by (apply inherits_sessions; reflexivity).
    destruct (truthy callId).
    + eapply inherits_trans; [exact H1|].
      apply inherits_trans with (mutate w1 callId (set_telnyxWs None));
        [apply inherits_mutate; reflexivity|].
      apply inherits_sessions; reflexivity.
    + eapply inherits_trans; [exact H1|]. apply inherits_sessions; reflexivity.
Qed.

Lemma session_of_created (w : World) (c cc k : JsStr) :
  session_of (fst (startOpenAIRealtimeSession c cc w)) k =
  if JsStr_eqb c k
  then Some (mkSession (nextWs w) cc false None false None false [])
  else session_of w k.
Proof.
  unfold startOpenAIRealtimeSession, session_of. cbn [fst sessions].
  apply get_set, JsStr_eqb_eq.
Qed.

Lemma sockets_fresh_step (w : World) (e : Event) :
  sockets_fresh w -> sockets_fresh (fst (step w e)).
Proof.
  intros [Hlt Hinj]. destruct (creates e) eqn:Ec.
  - destruct e; try discriminate. cbn in Ec. subst ok. cbn [step].
    split.
    + intros c s. rewrite session_of_created. cbn [nextWs fst startOpenAIRealtimeSession].
      destruct (JsStr_eqb callId c).
      * intros H. injection H as <-. cbn. lia.
      * intros H. apply Hlt in H. lia.
    + intros c c' s s'. rewrite !session_of_created.
      destruct (JsStr_eqb callId c) eqn:E1, (JsStr_eqb callId c') eqn:E2.
      * intros _ _ _. apply JsStr_eqb_eq in E1, E2. congruence.
      * intros H H'. injection H as <-. apply Hlt in H'. cbn. lia.
      * intros H H'. injection H' as <-. apply Hlt in H. cbn. lia.
      * apply Hinj.
  - destruct (step_inherits w e Ec) as [Hn Hs]. split.
    + intros c s1 H1. destruct (Hs c s1 H1) as (s & H & E).
      rewrite Hn, E. exact (Hlt c s H).
    + intros c c' s1 s1' H1 H1' E.
      destruct (Hs c s1 H1) as (s & H & Es).
      destruct (Hs c' s1' H1') as (s' & H' & Es').
      apply (Hinj c c' s s' H H'). congruence.
Qed.

Lemma sockets_fresh_run (trace : list Event) :
  forall w, sockets_fresh w -> sockets_fresh (fst (run w trace)).
Proof.
  induction trace as [|e rest IH]; intros w H; [exact H|].
  rewrite run_cons. cbn [fst]. apply IH, sockets_fresh_step, H.
Qed.

Lemma sockets_fresh_initial : sockets_fresh initial.
Proof. split; intros; discriminate. Qed.

(** ** Readiness *)

Lemma ready_if_present_step (w : World) (e : Event) (c : JsStr) :
  recreates c e = false ->
  ready_if_present w c -> ready_if_present (fst (step w e)) c.
Proof.
  unfold ready_if_present. intros Hn Hw.
  pose proof (step_change w e c) as H.
  destruct (session_of (fst (step w e)) c) as [s1|]; [|exact I].
  assert (Hc : forall cc, e = AnswerSettled c cc true -> False).
  { intros cc He. subst e. cbn in Hn. now rewrite JsStr_eqb_refl in Hn. }
  destruct (session_of w c) as [s|].
  - inversion H as [o Ho1 Ho2|s0 s1' Hs Ho1 Ho2|o Htd Ho1 Ho2|o cc ws He Ho1 Ho2
                   |s0 p He Hid Hr Ho1 Ho2|s0 ws He Ho1 Ho2].
    + congruence.
    + unfold signals in Hs. injection Hs as Hr _ _. congruence.
    + destruct (Hc cc He).
    + congruence.
    + destruct (pendingMediaStart s && truthy (pendingCallControlId s));
        reflexivity.
  - inversion H as [o Ho1 Ho2| |o Htd Ho1 Ho2|o cc ws He Ho1 Ho2| |].
    destruct (Hc cc He).
Qed.

(** Only the creation of a session brings an absent entry back. *)
Lemma absent_step (w : World) (e : Event) (c : JsStr) :
  recreates c e = false ->
  session_of w c = None -> session_of (fst (step w e)) c = None.
Proof.
  intros Hn Hs. pose proof (step_change w e c) as H. rewrite Hs in H.
  destruct (session_of (fst (step w e)) c) as [s1|]; [|reflexivity].
  inversion H as [o Ho1 Ho2| |o Htd Ho1 Ho2|o cc ws He Ho1 Ho2| |].
  subst e. cbn in Hn. now rewrite JsStr_eqb_refl in Hn.
Qed.

Lemma absent_run (c : JsStr) (trace : list Event) :
  forall w,
    forallb (fun e => negb (recreates c e)) trace = true ->
    session_of w c = None -> session_of (fst (run w trace)) c = None.
Proof.
  induction trace as [|e rest IH]; intros w Hq Hw; [exact Hw|].
  cbn [forallb] in Hq. apply andb_prop in Hq. destruct Hq as [He Hrest].
  rewrite run_cons. cbn [fst]. apply IH; [exact Hrest|].
  apply absent_step; [|exact Hw].
  now apply negb_true_iff in He.
Qed.

Lemma ready_if_present_run (c : JsStr) (trace : list Event) :
  forall w,
    forallb (fun e => negb (recreates c e)) trace = true ->
    ready_if_present w c -> ready_if_present (fst (run w trace)) c.
Proof.
  induction trace as [|e rest IH]; intros w Hq Hw; [exact Hw|].
  cbn [forallb] in Hq. apply andb_prop in Hq. destruct Hq as [He Hrest].
  rewrite run_cons. cbn [fst]. apply IH; [exact Hrest|].
  apply ready_if_present_step; [|exact Hw].
  now apply negb_true_iff in He.
Qed.

End BridgeMore.

Section UrlMore.
Import Bridge Url.
Local Open Scope string_scope.

Lemma prefix_app (p s : string) : String.prefix p (p ++ s) = true.
Proof.
  induction p as [|a p IH]; simpl; [now destruct s|].
  destruct (Ascii.ascii_dec a a); [exact IH | congruence].
Qed.

Lemma drop_app (p s : string) : drop (String.length p) (p ++ s) = s.
Proof. induction p as [|a p IH]; simpl; [now destruct s | exact IH]. Qed.

Lemma replace_eq (p r s : string) :
  replace p r s =
  if String.prefix p s then r ++ drop (String.length p) s
  else match s with
       | EmptyString => EmptyString
       | String c t => String c (replace p r t)
       end.
Proof. destruct s; reflexivity. Qed.

Lemma replace_prefix (p r s : string) : replace p r (p ++ s) = r ++ s.
Proof. now rewrite replace_eq, prefix_app, drop_app. Qed.

Lemma replace_absent (p r s : string) :
  contains p s = false -> replace p r s = s.
Proof.
  induction s as [|a s IH]; cbn [contains]; intros H;
    apply orb_false_iff in H; destruct H as [H1 H2];
    rewrite replace_eq, H1.
  - reflexivity.
  - now rewrite IH.
Qed.

Lemma truthy_nonempty (s : string) : s <> "" -> truthy (Some s) = true.
Proof. intros H. destruct s; [congruence | reflexivity]. Qed.

Lemma env_or_set (s d : string) : s <> "" -> env_or (Some s) d = s.
Proof. intros H. unfold env_or, js_or. now rewrite truthy_nonempty. Qed.

Lemma env_or_unset (v : JsStr) (d : string) :
  truthy v = false -> env_or v d = d.
Proof. intros H. unfold env_or, js_or. now rewrite H. Qed.

End UrlMore.

(* ================================================================== *)
(** * The claims                                                       *)
(* ================================================================== *)

Import Resampler Spec Bridge Observe TurnSpec Examples.

(** C1.  The stream start is lost when [call.answered] is handled before
    the session exists.  In a state where every deferred start carries
    the identifier of its own call (as in every state the handlers
    produce, see [pending_consistent_run]), take a call with a non-empty
    control identifier and no session yet.  Let [call.answered] arrive,
    then the session be created (the rest of [handleCallInitiated], once
    [answerCall] has settled), then [session.updated], among any events
    that neither are these signals for this call nor create or remove
    its session.  Then [call.answered] records nothing, and over the
    whole run [startMediaStream] is never issued for the call, although
    both signals have been handled and the session ends ready with no
    start deferred. *)
Theorem C1_answered_before_session_never_starts (w : World) (p : Payload)
    (ws : OpenAIWs) (before pending between after : list Event) :
  let callId := call_control_id p in
  let answered := Webhook "call.answered" (Some p) in
  let created := AnswerSettled callId callId true in
  let ready := OpenAIMessage callId ws session_updated in
  let trace :=
    before ++ [answered] ++ pending ++ [created] ++ between ++ [ready] ++ after in
  pending_consistent w ->
  truthy callId = true ->
  session_of w callId = None ->
  quiet callId before = true ->
  quiet callId pending = true ->
  quiet callId between = true ->
  quiet callId after = true ->
  step (fst (run w before)) answered = (fst (run w before), []) /\
  starts callId (snd (run w trace)) = 0%nat /\
  exists session,
    session_of (fst (run w trace)) callId = Some session /\
    sessionReady session = true /\
    pendingMediaStart session = false.
Proof.
  intros callId answered created ready trace Hw Ht Hs Hq1 Hq2 Hq3 Hq4.
  subst trace.
  destruct (quiet_run_absent before w callId Hw Ht Hq1 Hs) as (Hs1 & Hst1).
  set (w1 := fst (run w before)) in *.
  assert (Hw1 : pending_consistent w1) by now apply pending_consistent_run.
  assert (Ea : step w1 answered = (w1, [])) by now apply answered_absent.
  destruct (quiet_run_absent pending w1 callId Hw1 Ht Hq2 Hs1) as (Hs2 & Hst2).
  set (w2 := fst (run w1 pending)) in *.
  assert (Hw2 : pending_consistent w2) by now apply pending_consistent_run.
  set (w3 := fst (step w2 created)).
  assert (Hw3 : pending_consistent w3) by now apply pending_consistent_step.
  assert (Hs3 : session_of w3 callId =
                Some (mkSession (nextWs w2) callId false None false None false []))
    by (unfold w3, created; cbn [step];
        now rewrite session_of_created, JsStr_eqb_refl).
  assert (Hst3 : starts callId (snd (step w2 created)) = 0%nat) by reflexivity.
  destruct (ready_first w3 _ callId ws between after Hw3 Ht Hs3 eq_refl eq_refl
              Hq3 Hq4) as (Hst4 & _ & s4 & Hs4 & Hr4 & Hp4).
  fold ready in Hst4, Hs4.
  assert (E : run w (before ++ [answered] ++ pending ++ [created]
                       ++ between ++ [ready] ++ after) =
              (fst (run w3 (between ++ [ready] ++ after)),
               snd (run w before) ++ snd (run w1 pending)
                 ++ snd (step w2 created)
                 ++ snd (run w3 (between ++ [ready] ++ after)))).
  { rewrite run_app. fold w1.
    change ([answered] ++ pending ++ [created] ++ between ++ [ready] ++ after)
      with (answered :: pending ++ created :: between ++ [ready] ++ after).
    rewrite run_cons, Ea. cbn [fst snd app].
    rewrite run_app. fold w2. rewrite run_cons. fold w3. reflexivity. }
  split; [exact Ea|]. rewrite E. cbn [fst snd]. split.
  - rewrite !starts_app, Hst1, Hst2, Hst3, Hst4. reflexivity.
  - exists s4. split; [exact Hs4|]. split; assumption.
Qed.

Lemma C1_lost_start_witness :
  starts call_1 (snd (run initial lost_start_trace)) = 0%nat /\
  option_map signals (session_of (fst (run initial lost_start_trace)) call_1)
    = Some (true, false, None).
Proof.
  pose proof (C1_answered_before_session_never_starts initial payload_1 0
                [Webhook "call.initiated" (Some payload_1)] []
                [OpenAIOpen call_1 0]
                [OpenAIMessage call_1 0
                   (conversation_item_created (Some (str "user")))]
                pending_consistent_initial
                eq_refl eq_refl eq_refl eq_refl eq_refl eq_refl)
    as (_ & H & _).
  split; [exact H | reflexivity].
Defined.




(** C3.  A [call.hangup] or [call.bridged] webhook for a call that has a
    session closes the session's OpenAI socket, once, and removes the
    session from the registry, leaving the other sessions as they were;
    for a call without a session it changes nothing and does nothing.  A
    second hangup for the same call identifier therefore changes nothing
    and does nothing. *)
Theorem C3_hangup_is_idempotent (w : World) (event_type event_type' : string)
    (payload payload' : option Payload) :
  (event_type = "call.hangup"%string \/ event_type = "call.bridged"%string) ->
  (event_type' = "call.hangup"%string \/ event_type' = "call.bridged"%string) ->
  webhook_callId payload' = webhook_callId payload ->
  let callId := webhook_callId payload in
  let first := step w (Webhook event_type payload) in
  let second := step (fst first) (Webhook event_type' payload') in
  match session_of w callId with
  | Some session =>
      snd first = [CloseOpenAI (openaiWs session)] /\
      sessions (fst first) = delete JsStr_eqb (sessions w) callId /\
      session_of (fst first) callId = None /\
      (forall c, c <> callId -> session_of (fst first) c = session_of w c)
  | None => first = (w, [])
  end /\
  second = (fst first, []).
Proof.
  intros Het Het' Hid callId first second.
  subst first second. rewrite !webhook_hangup by assumption.
  rewrite Hid. fold callId.
  destruct (session_of w callId) as [session|] eqn:Hs.
  - destruct (handleCallHangup_present w callId session Hs)
      as (w1 & Hw1 & Hdel & Hnone & Hothers & _).
    rewrite Hw1. simpl.
    split; [repeat split; assumption|].
    now apply handleCallHangup_absent.
  - rewrite (handleCallHangup_absent w callId Hs). simpl.
    split; [reflexivity|]. now apply handleCallHangup_absent.
Qed.

Lemma C3_hangup_twice_witness :
  step c3_world (Webhook "call.hangup" c3_payload) =
    (mkWorld [] [(4%nat, str "v3:abc")] [(0%nat, CLOSING)]
       [(4%nat, OPEN)] 1, [CloseOpenAI 0]) /\
  step (fst (step c3_world (Webhook "call.hangup" c3_payload)))
    (Webhook "call.bridged" c3_payload) =
    (fst (step c3_world (Webhook "call.hangup" c3_payload)), []).
Proof.
  split; [reflexivity|].
  exact (proj2 (C3_hangup_is_idempotent c3_world "call.hangup" "call.bridged"
                  c3_payload c3_payload (or_introl eq_refl) (or_intror eq_refl)
                  eq_refl)).
Defined.

(** C4, as the code has it.  The outbound queue has no bound: a frame
    produced while the session has no open media socket is appended to
    the queue, whatever its length, and after [n] such frames the queue
    holds [n] frames.  When the media socket of the call (known by the
    call identifier of its URL) delivers its first message while open,
    the queued frames are sent to it in their order of arrival, each
    once, and the queue is emptied.  A frame produced while an open media
    socket is attached and the queue is empty is sent at once, alone. *)
Theorem C4_queue_grows_and_is_flushed_in_order (w : World) (callId : JsStr)
    (session : Session) (frame : Buffer) (ws : TelnyxWs) (n : nat) :
  session_of w callId = Some session ->
  len frame <> 0 ->
  (relay_open w session = None ->
   sendAudioToTelnyx callId frame w =
   (mutate w callId (fun s => set_audioQueue (audioQueue s ++ [frame]) s), [])) /\
  (forall t, relay_open w session = Some t -> audioQueue session = [] ->
   sendAudioToTelnyx callId frame w =
   (mutate w callId (set_audioQueue []), [SendTelnyx t frame])) /\
  (truthy callId = true ->
   get Nat.eqb (wsCallMap w) ws = Some callId ->
   telnyxWs session = None ->
   is_open (get Nat.eqb (telnyxState w) ws) = true ->
   exists w1 sent,
     bind_media ws w = (w1, sent, Some callId) /\
     sent = map (SendTelnyx ws) (audioQueue session) /\
     relayed sent = audioQueue session /\
     session_of w1 callId =
       Some (set_audioQueue [] (set_telnyxWs (Some ws) session))) /\
  (exists s,
     session_of (fst (run initial (queueing_trace n))) call_1 = Some s /\
     List.length (audioQueue s) = n).
Proof.
  intros Hs Hl. split; [|split; [|split]].
  - intros Hr. now apply sendAudioToTelnyx_queued with (session := session).
  - intros t Hr Hq.
    rewrite (sendAudioToTelnyx_sent w callId frame session t Hs Hl Hr), Hq.
    reflexivity.
  - intros Ht Hm Hn Ho.
    rewrite (bind_media_by_call_id w ws callId session Ht Hm Hs Hn Ho).
    do 2 eexists. split; [reflexivity|]. split; [reflexivity|].
    split; [apply relayed_map|].
    destruct (0 <? len (audioQueue session)) eqn:E.
    + now rewrite !session_of_mutate, JsStr_eqb_refl, Hs.
    + rewrite session_of_mutate, JsStr_eqb_refl, Hs. simpl. f_equal.
      apply Z.ltb_ge in E. destruct session as [o c r t p pc h q]. simpl in *.
      destruct q; [reflexivity|]. unfold len in E. simpl in E. lia.
  - apply queue_unbounded.
Qed.

Lemma C4_flush_witness :
  exists w1,
    bind_media 7 early_audio_world = (w1, [SendTelnyx 7 frame_a], Some call_1) /\
    option_map audioQueue (session_of w1 call_1) = Some [].
Proof.
  destruct (C4_queue_grows_and_is_flushed_in_order early_audio_world call_1
              (mkSession 0 call_1 false None false None false [frame_a])
              frame_b 7 3 eq_refl ltac:(discriminate))
    as (_ & _ & H & _).
  destruct (H eq_refl eq_refl eq_refl eq_refl) as (w1 & sent & Hb & Hsent & _ & Hs).
  exists w1. split.
  - rewrite Hb, Hsent. reflexivity.
  - rewrite Hs. reflexivity.
Defined.

(** C4, as stated, fails twice.  The queue has no bound: every length is
    reached by a session whose media socket has not connected yet.  And
    frames can overtake one another: when the media socket was matched
    to the session without a call identifier, the next frame is sent
    before the frame that was waiting in the queue. *)
Lemma C4_unbounded_and_reordered :
  ~ (exists bound : nat,
       forall w c s, reachable w -> session_of w c = Some s ->
                     (List.length (audioQueue s) <= bound)%nat) /\
  resample24kHzTo8kHz unspecified delta_a = Ok frame_a /\
  resample24kHzTo8kHz unspecified delta_b = Ok frame_b /\
  relayed (snd (run initial reorder_trace)) = [frame_b; frame_a].
Proof.
  split; [|repeat split].
  intros (bound & Hb).
  destruct (queue_unbounded (S bound)) as (s & Hs & Hl).
  specialize (Hb _ call_1 s (ex_intro _ (queueing_trace (S bound)) eq_refl) Hs).
  lia.
Qed.

(** C5, as the code has it.  When the OpenAI socket of a call closes and
    the registry entry of that call still holds this very socket, the
    entry is removed; otherwise (no entry, or the entry of a newer session
    of the same call identifier) the registry is left as it is.  In both
    cases the handler issues no action at all: the media sockets and
    their table are untouched, and the other sessions are unchanged.  A
    repeated close event changes nothing in the registry. *)
Theorem C5_openai_close_removes_entry_only (w : World) (callId : JsStr)
    (ws : OpenAIWs) :
  let first := step w (OpenAIClose callId ws) in
  let second := step (fst first) (OpenAIClose callId ws) in
  snd first = [] /\
  telnyxState (fst first) = telnyxState w /\
  wsCallMap (fst first) = wsCallMap w /\
  session_of (fst first) callId =
    match session_of w callId with
    | Some session => if Nat.eqb (openaiWs session) ws then None else Some session
    | None => None
    end /\
  (forall c, c <> callId -> session_of (fst first) c = session_of w c) /\
  snd second = [] /\
  (forall c, session_of (fst second) c = session_of (fst first) c).
Proof.
  intros first second. subst first second. simpl step.
  destruct (onOpenAIClose_spec w callId ws) as (w1 & E1 & Ht & Hm & Ho & Hc).
  rewrite E1. simpl fst. simpl snd.
  destruct (onOpenAIClose_spec w1 callId ws) as (w2 & E2 & _ & _ & Ho2 & Hc2).
  rewrite E2. simpl fst. simpl snd.
  repeat split; try assumption.
  intros c. destruct (JsStr_eqb c callId) eqn:E.
  - apply JsStr_eqb_eq in E. subst c. rewrite Hc2, Hc.
    destruct (session_of w callId) as [session|]; [|reflexivity].
    destruct (Nat.eqb (openaiWs session) ws) eqn:Ew; [reflexivity|].
    now rewrite Ew.
  - apply Ho2. intros ->. now rewrite JsStr_eqb_refl in E.
Qed.

Lemma C5_close_witness :
  session_of (fst (step streaming_world (OpenAIClose call_1 0))) call_1 = None /\
  session_of (fst (step streaming_world (OpenAIClose call_1 0))) (str "v3:call-2")
    = session_of streaming_world (str "v3:call-2").
Proof.
  destruct (C5_openai_close_removes_entry_only streaming_world call_1 0)
    as (_ & _ & _ & Hc & Ho & _).
  split; [exact Hc|]. apply Ho. discriminate.
Defined.

(** C5, as stated, fails: in a state reached by an ordinary call whose
    media socket 7 is attached and open, the close of the OpenAI socket
    removes the session but issues no action, and socket 7 stays open. *)
Lemma C5_media_socket_left_open :
  option_map telnyxWs (session_of streaming_world call_1) = Some (Some 7%nat) /\
  get Nat.eqb (telnyxState streaming_world) 7%nat = Some OPEN /\
  snd (step streaming_world (OpenAIClose call_1 0)) = [] /\
  get Nat.eqb (telnyxState (fst (step streaming_world (OpenAIClose call_1 0)))) 7%nat
    = Some OPEN /\
  session_of (fst (step streaming_world (OpenAIClose call_1 0))) call_1 = None.
Proof. repeat split. Qed.

(** C6.  For every input buffer (and whatever the freshly allocated
    output held), [resample24kHzTo8kHz] returns normally a buffer of
    exactly [floor (floor (len / 2) / 3)] samples whose sample [i] is
    input sample [3 i]; the trailing bytes after the last whole group of
    three samples have no effect on the result; the inputs of fewer than
    two bytes give the empty buffer. *)
Theorem C6_downsample_is_decimation (garbage : nat -> byte) (inputBuffer : Buffer) :
  exists out : Buffer,
    resample24kHzTo8kHz garbage inputBuffer = Ok out /\
    len (samples out) = len inputBuffer / 2 / 3 /\
    samples out =
      map (downsample_at (samples inputBuffer))
        (zrange 0 (Z.to_nat (len inputBuffer / 2 / 3))) /\
    resample24kHzTo8kHz garbage (whole_groups inputBuffer) = Ok out /\
    resample24kHzTo8kHz garbage [] = Ok [] /\
    (forall b, resample24kHzTo8kHz garbage [b] = Ok []).
Proof.
  eexists. split; [apply down_result|].
  assert (Hc : 0 <= down_count inputBuffer).
  { unfold down_count. pose proof (len_nonneg inputBuffer).
    apply Z.div_pos; [apply Z.div_pos|]; lia. }
  assert (Hs : samples (flat_map encode16
                 (map (down_val inputBuffer)
                    (zrange 0 (Z.to_nat (down_count inputBuffer))))) =
               map (downsample_at (samples inputBuffer))
                 (zrange 0 (Z.to_nat (len inputBuffer / 2 / 3)))).
  { rewrite samples_encoded.
    - apply map_ext. intros i. apply down_val_spec.
    - apply Forall_map_range. intros i. apply samples_nth_range. }
  repeat split.
  - rewrite Hs. unfold len at 1. rewrite length_map, zrange_length.
    apply Z2Nat.id. exact Hc.
  - exact Hs.
  - rewrite down_whole_groups. apply down_result.
Qed.

(** C7.  For every input buffer of [K] complete samples,
    [resample8kHzTo24kHz] returns normally exactly [3 K] samples; the one
    at position [p] is the linear interpolation of input samples [p/3]
    and [p/3 + 1] at the fractional offset of [p], rounded to the nearest
    integer and clamped to the 16-bit range, and the last input sample
    from position [3 (K-1)] on; inside a complete interval it is within
    one third of the exact interpolation.  The inputs of fewer than two
    bytes give the empty buffer.  The two samples [S0], [S1] give
    [S0, o1, o2, S1, S1, S1] with [o1], [o2] monotonic between [S0] and
    [S1]. *)
Theorem C7_upsample_is_linear_interpolation (garbage : nat -> byte)
    (inputBuffer : Buffer) (b0 b1 b2 b3 : byte) :
  let K := len inputBuffer / 2 in
  let S0 := int16_of_bytes b0 b1 in
  let S1 := int16_of_bytes b2 b3 in
  (exists out : Buffer,
     resample8kHzTo24kHz garbage inputBuffer = Ok out /\
     len (samples out) = 3 * K /\
     samples out =
       map (upsample_at (samples inputBuffer)) (zrange 0 (Z.to_nat (3 * K))) /\
     Forall (fun p => nearest_to_interpolation (samples inputBuffer) p
                        (nth (Z.to_nat p) (samples out) 0))
       (zrange 0 (Z.to_nat (3 * (K - 1)))) /\
     Forall (fun p => nth (Z.to_nat p) (samples out) 0 =
                      nth (Z.to_nat (K - 1)) (samples inputBuffer) 0)
       (zrange (3 * (K - 1)) 3)) /\
  resample8kHzTo24kHz garbage [] = Ok [] /\
  (forall b, resample8kHzTo24kHz garbage [b] = Ok []) /\
  (exists out o1 o2,
     resample8kHzTo24kHz garbage [b0; b1; b2; b3] = Ok out /\
     samples out = [S0; o1; o2; S1; S1; S1] /\
     monotonic_between S0 o1 o2 S1).
Proof.
  intros K S0 S1.
  assert (HK : 0 <= K).
  { subst K. pose proof (len_nonneg inputBuffer). apply Z.div_pos; lia. }
  assert (Hs : forall buf, samples (flat_map encode16
                 (map (up_val buf) (zrange 0 (Z.to_nat (up_count buf))))) =
               map (upsample_at (samples buf))
                 (zrange 0 (Z.to_nat (3 * (len buf / 2))))).
  { intros buf. rewrite samples_encoded.
    - unfold up_count. rewrite (Z.mul_comm 3). apply map_ext.
      intros i. apply up_val_spec.
    - apply Forall_map_range. intros i. apply up_val_range. }
  split; [|split; [reflexivity|split; [reflexivity|]]].
  - eexists. split; [apply up_result|]. rewrite Hs. fold K.
    split; [|split; [reflexivity|split]].
    + unfold len. rewrite length_map, zrange_length. lia.
    + apply Forall_forall. intros p Hp. apply zrange_In in Hp.
      rewrite Z2Nat.id in Hp by lia.
      assert (Hp3 : 0 <= p / 3 < K - 1).
      { split; [apply Z.div_pos; lia|].
        apply Z.div_lt_upper_bound; lia. }
      rewrite (nth_indep _ 0 (upsample_at (samples inputBuffer) 0))
        by (rewrite length_map, zrange_length; lia).
      rewrite map_nth, zrange_nth by lia. rewrite Z2Nat.id by lia.
      unfold nearest_to_interpolation, upsample_at. simpl.
      rewrite samples_len. fold K.
      replace (p / 3 + 1 <? K) with true by (symmetry; apply Z.ltb_lt; lia).
      rewrite Math_round_interpolation.
      apply nearest_rounding; try apply samples_nth_range.
      apply Z.mod_pos_bound. lia.
    + apply Forall_forall. intros p Hp. apply zrange_In in Hp.
      change (Z.of_nat 3) with 3 in Hp.
      destruct (Z.eq_dec K 0) as [HK0|HK0].
      * assert (Hnil : samples inputBuffer = []).
        { apply length_zero_iff_nil. apply Nat2Z.inj.
          pose proof (samples_len inputBuffer) as Hl. unfold len in Hl at 1.
          rewrite Hl. exact HK0. }
        rewrite Hnil, HK0. simpl. destruct (Z.to_nat p); reflexivity.
      * rewrite (nth_indep _ 0 (upsample_at (samples inputBuffer) 0))
          by (rewrite length_map, zrange_length; lia).
        rewrite map_nth, zrange_nth by lia. rewrite Z2Nat.id by lia.
        unfold upsample_at. rewrite samples_len. fold K.
        assert (Hp3 : p / 3 = K - 1).
        { symmetry. apply (Z.div_unique p 3 (K - 1) (p - 3 * (K - 1))); lia. }
        rewrite Z.add_0_l, Hp3.
        replace (K - 1 + 1 <? K) with false by (symmetry; apply Z.ltb_ge; lia).
        reflexivity.
  - eexists. do 2 eexists. split; [apply up_result|].
    rewrite Hs. change (len [b0; b1; b2; b3] / 2) with 2.
    change (zrange 0 (Z.to_nat (3 * 2))) with [0; 1; 2; 3; 4; 5].
    change (samples [b0; b1; b2; b3]) with [S0; S1].
    cbn [map].
    rewrite !upsample_at_two_inner, !upsample_at_two_held by lia.
    pose proof (int16_of_bytes_range b0 b1) as R0.
    pose proof (int16_of_bytes_range b2 b3) as R1.
    fold S0 in R0. fold S1 in R1.
    split.
    + f_equal.
      replace (6 * S0 + 2 * (S1 - S0) * 0 + 3) with (3 + S0 * 6) by lia.
      rewrite Z.div_add by lia. change (3 / 6) with 0.
      unfold clamp16. lia.
    + pose proof (nearest_rounding S0 S1 1 R0 R1 ltac:(lia)) as (_ & U1 & D1).
      pose proof (nearest_rounding S0 S1 2 R0 R1 ltac:(lia)) as (_ & U2 & D2).
      assert (Hmono : S0 <= S1 ->
        (6 * S0 + 2 * (S1 - S0) * 1 + 3) / 6 <= (6 * S0 + 2 * (S1 - S0) * 2 + 3) / 6).
      { intros. apply Z.div_le_mono; lia. }
      assert (Hanti : S1 <= S0 ->
        (6 * S0 + 2 * (S1 - S0) * 2 + 3) / 6 <= (6 * S0 + 2 * (S1 - S0) * 1 + 3) / 6).
      { intros. apply Z.div_le_mono; lia. }
      unfold monotonic_between.
      destruct (Z_le_gt_dec S0 S1) as [Hle|Hgt].
      * left. specialize (U1 Hle). specialize (U2 Hle). specialize (Hmono Hle).
        unfold clamp16 in *. lia.
      * right. assert (Hle : S1 <= S0) by lia.
        specialize (D1 Hle). specialize (D2 Hle). specialize (Hanti Hle).
        unfold clamp16 in *. lia.
Qed.

(** C8, as the code has it.  When a message arrives on a media socket and
    the session the handler binds it to is not ready, nothing is sent to
    OpenAI and the frame is stored nowhere: no session enters or leaves
    the registry, and every session keeps all its fields but the media
    socket, which is kept or set to this socket, and the outbound queue.
    The queues change in one case only, [flush_due]: the message carries
    audio, the socket is registered under the call id and open, and the
    session had no media socket and a queue that is not empty.  Then the
    handler sends the queued frames of the session to the media socket,
    in order, empties that queue and leaves the other queues alone.  In
    every other case it sends nothing and every queue is unchanged. *)
Theorem C8_frame_before_ready_is_dropped (w w1 : World) (ws : TelnyxWs)
    (data : Data) (sent : list Action) (c : JsStr) (s : Session) :
  bind_media ws w = (w1, sent, Some c) ->
  session_of w c = Some s ->
  sessionReady s = false ->
  let after := step w (TelnyxMessage ws data) in
  filter is_send_openai (snd after) = [] /\
  snd after =
    (if flush_due ws w s data then map (SendTelnyx ws) (audioQueue s) else []) /\
  (forall c' s', session_of w c' = Some s' ->
     exists s1', session_of (fst after) c' = Some s1' /\
                 same_but_relay_and_queue s' s1' /\
                 (telnyxWs s1' = telnyxWs s' \/ telnyxWs s1' = Some ws) /\
                 audioQueue s1' =
                   if flush_due ws w s data && JsStr_eqb c' c then []
                   else audioQueue s') /\
  (forall c', session_of w c' = None -> session_of (fst after) c' = None).
Proof.
  intros Hb Hs Hr after.
  set (P := fun (due : bool) (o : Outcome) =>
    filter is_send_openai (snd o) = [] /\
    snd o = (if due then map (SendTelnyx ws) (audioQueue s) else []) /\
    (forall c' s', session_of w c' = Some s' ->
       exists s1', session_of (fst o) c' = Some s1' /\
                   same_but_relay_and_queue s' s1' /\
                   (telnyxWs s1' = telnyxWs s' \/ telnyxWs s1' = Some ws) /\
                   audioQueue s1' =
                     if due && JsStr_eqb c' c then [] else audioQueue s') /\
    (forall c', session_of w c' = None -> session_of (fst o) c' = None)).
  change (P (flush_due ws w s data) after).
  assert (Hidle : P false (w, [])).
  { unfold P. cbn [fst snd andb]. split; [reflexivity|]. split; [reflexivity|].
    split; [|auto].
    intros c' s' H. exists s'. split; [exact H|].
    split; [repeat split|]. split; [now left | reflexivity]. }
  destruct (bind_media_spec ws w w1 sent (Some c) Hb) as (_ & Hsess & _).
  destruct (bind_media_queues ws w w1 sent c s Hb Hs) as (Hsent & Hqueues).
  assert (Hbound : P (attach_flushes ws w s) (w1, sent)).
  { unfold P. cbn [fst snd]. split; [|split; [|split]].
    - rewrite Hsent. destruct (attach_flushes ws w s); [|reflexivity].
      apply only_media_no_openai, only_media_map.
    - exact Hsent.
    - intros c' s' H. destruct (Hqueues c' s' H) as (s1' & Hs1' & Hm & Hq).
      exists s1'. split; [exact Hs1'|].
      split; [|split; [|exact Hq]];
        destruct Hm as [-> | [-> | ->]]; try (repeat split); auto.
    - intros c' H. specialize (Hsess c'). now rewrite H in Hsess. }
  assert (Hfwd : forall b, forward_media c b w1 = []).
  { intros b. unfold forward_media.
    destruct (negb (truthy c)); [reflexivity|].
    specialize (Hsess c). rewrite Hs in Hsess.
    destruct Hsess as (s1 & Hs1 & Hm). rewrite Hs1.
    assert (Hr1 : sessionReady s1 = false).
    { destruct Hm as [-> | [-> | ->]]; exact Hr. }
    now rewrite Hr1. }
  subst after. cbn [step]. unfold onTelnyxMessage, flush_due.
  destruct data as [b| |b]; cbn [frame_length]; try exact Hidle;
    (destruct (len b =? 0); [exact Hidle|]);
    rewrite Hb, Hfwd, app_nil_r; exact Hbound.
Qed.

Lemma C8_dropped_witness :
  snd (step connected_world (TelnyxMessage 7 (Binary frame_in))) = [] /\
  snd (step early_audio_world (TelnyxMessage 7 (Binary frame_in)))
    = [SendTelnyx 7 frame_a].
Proof.
  split.
  - exact (proj1 (proj2
      (C8_frame_before_ready_is_dropped connected_world
         (fst (fst (bind_media 7 connected_world))) 7 (Binary frame_in)
         [] call_1 created_session eq_refl eq_refl eq_refl))).
  - exact (proj1 (proj2
      (C8_frame_before_ready_is_dropped early_audio_world
         (fst (fst (bind_media 7 early_audio_world))) 7 (Binary frame_in)
         [SendTelnyx 7 frame_a] call_1
         (mkSession 0 call_1 false None false None false [frame_a])
         eq_refl eq_refl eq_refl))).
Defined.

(** C8, as stated, fails: in a state reached when audio from OpenAI has
    been queued before [session.updated], the first frame on the media
    socket of the call arrives while the session is not ready, and the
    handler empties the session's outbound queue. *)
Lemma C8_queue_flushed_before_ready :
  option_map sessionReady (session_of early_audio_world call_1) = Some false /\
  option_map audioQueue (session_of early_audio_world call_1) = Some [frame_a] /\
  snd (step early_audio_world (TelnyxMessage 7 (Binary frame_in)))
    = [SendTelnyx 7 frame_a] /\
  option_map audioQueue
    (session_of (fst (step early_audio_world (TelnyxMessage 7 (Binary frame_in))))
       call_1) = Some [].
Proof. repeat split. Qed.

(** C9, as the code has it.  The close handler of a media socket issues
    no action; when the socket is bound to a call identifier, the session
    of that call, if there is one, loses its media socket
    ([telnyxWs = null]) and is otherwise unchanged, and every other
    session is unchanged; no session leaves the registry.  No handler at
    all removes a session except those of the hangup webhooks and of the
    close of an OpenAI socket: there is no fallback teardown. *)
Theorem C9_media_close_only_detaches (w : World) (ws : TelnyxWs) :
  let callId :=
    match get Nat.eqb (wsCallMap w) ws with Some c => c | None => None end in
  let closed := step w (TelnyxClose ws) in
  snd closed = [] /\
  (forall c,
     session_of (fst closed) c =
       if truthy callId && JsStr_eqb callId c
       then option_map (set_telnyxWs None) (session_of w c)
       else session_of w c) /\
  (forall w' e c,
     session_of w' c <> None -> session_of (fst (step w' e)) c = None ->
     tears_down c e = true).
Proof.
  intros callId closed. subst closed. simpl step.
  destruct (onTelnyxClose_spec w ws) as (w1 & E1 & _ & Hs).
  rewrite E1. simpl. split; [reflexivity|]. split; [exact Hs|].
  exact step_keeps_session.
Qed.

Lemma C9_detach_witness :
  option_map telnyxWs
    (session_of (fst (step streaming_world (TelnyxClose 7))) call_1) = Some None /\
  tears_down call_1 (Webhook "call.hangup" (Some payload_1)) = true.
Proof.
  destruct (C9_media_close_only_detaches streaming_world 7) as (_ & Hs & Hk).
  split.
  - rewrite Hs. reflexivity.
  - apply (Hk streaming_world); [discriminate | reflexivity].
Defined.

(** C9, as stated, fails: after the media socket of a streaming call has
    closed, nothing has been issued or scheduled, the session is still in
    the registry, and it stays there through every sequence of events
    that has neither a hangup webhook nor the close of the OpenAI socket
    of the call. *)
Lemma C9_no_fallback_teardown :
  snd (step streaming_world (TelnyxClose 7)) = [] /\
  option_map telnyxWs
    (session_of (fst (step streaming_world (TelnyxClose 7))) call_1) = Some None /\
  forall trace,
    forallb (fun e => negb (tears_down call_1 e)) trace = true ->
    session_of (fst (run (fst (step streaming_world (TelnyxClose 7))) trace)) call_1
      <> None.
Proof.
  split; [reflexivity|]. split; [reflexivity|].
  intros trace Hq. apply run_keeps_session; [exact Hq|]. discriminate.
Qed.

(** C10.  For every input buffer, of any length, and whatever the
    freshly allocated output held, both resamplers return normally; every
    byte of the output has been stored to exactly once; the output has an
    even number of bytes; no trip of either loop takes an out-of-bounds
    fallback branch, and the store of the "use last sample" branch is
    never skipped; the result depends neither on the previous content of
    the output nor on an odd trailing input byte. *)
Theorem C10_resamplers_total_and_initialising (garbage garbage' : nat -> byte)
    (inputBuffer : Buffer) :
  let K := len inputBuffer / 2 in
  (exists cells : OutBuffer,
     resample24kHzTo8kHz_cells garbage inputBuffer = Ok cells /\
     map cell_writes cells = repeat 1%nat (List.length cells) /\
     len cells = 2 * (K / 3) /\
     forallb (fun i => negb (down_beyond_bounds inputBuffer i))
       (zrange 0 (Z.to_nat (K / 3))) = true /\
     resample24kHzTo8kHz garbage' inputBuffer = Ok (contents cells) /\
     resample24kHzTo8kHz garbage (whole_samples inputBuffer) = Ok (contents cells))
  /\
  (exists cells : OutBuffer,
     resample8kHzTo24kHz_cells garbage inputBuffer = Ok cells /\
     map cell_writes cells = repeat 1%nat (List.length cells) /\
     len cells = 2 * (3 * K) /\
     forallb (fun i => if up_at_end K i
                       then up_last_inside inputBuffer K
                       else negb (up_beyond_bounds inputBuffer i))
       (zrange 0 (Z.to_nat (3 * K))) = true /\
     resample8kHzTo24kHz garbage' inputBuffer = Ok (contents cells) /\
     resample8kHzTo24kHz garbage (whole_samples inputBuffer) = Ok (contents cells)).
Proof.
  intros K.
  assert (HK : 0 <= K).
  { subst K. pose proof (len_nonneg inputBuffer). apply Z.div_pos; lia. }
  assert (Hd : 0 <= down_count inputBuffer).
  { unfold down_count. fold K. apply Z.div_pos; lia. }
  pose proof (up_count_nonneg inputBuffer) as Hu.
  split.
  - eexists. split; [apply down_closed_form|].
    fold K (down_count inputBuffer).
    split; [|split; [|split; [|split]]].
    + rewrite writes_once by (now rewrite length_map, zrange_length).
      now rewrite fill_length, allocUnsafe_length.
    + unfold len. rewrite fill_length, allocUnsafe_length.
      unfold down_count in *. fold K in Hd |- *. lia.
    + apply forallb_forall. intros i Hi. apply zrange_In in Hi.
      rewrite down_guard_false; [reflexivity|].
      unfold down_count. fold K. lia.
    + rewrite down_result. f_equal. symmetry. apply fill_contents.
      rewrite allocUnsafe_length, length_map, zrange_length.
      unfold down_count in *. fold K in Hd |- *. lia.
    + rewrite down_whole, down_result. f_equal. symmetry. apply fill_contents.
      rewrite allocUnsafe_length, length_map, zrange_length.
      unfold down_count in *. fold K in Hd |- *. lia.
  - eexists. split; [apply up_closed_form|].
    assert (Huc : up_count inputBuffer = 3 * K) by (unfold up_count; fold K; lia).
    split; [|split; [|split; [|split]]].
    + rewrite writes_once by (now rewrite length_map, zrange_length).
      now rewrite fill_length, allocUnsafe_length.
    + unfold len. rewrite fill_length, allocUnsafe_length. lia.
    + apply forallb_forall. intros i Hi. apply zrange_In in Hi.
      assert (Hl : 2 <= len inputBuffer).
      { destruct (Z_lt_le_dec (len inputBuffer) 2) as [Hlt|]; [|assumption].
        pose proof (len_nonneg inputBuffer).
        assert (K = 0) by (subst K; apply Z.div_small; lia). lia. }
      destruct (up_at_end K i) eqn:He.
      * apply up_last_in_bounds. exact Hl.
      * rewrite up_guard_false; [reflexivity | lia | exact He].
    + rewrite up_result. f_equal. symmetry. apply fill_contents.
      rewrite allocUnsafe_length, length_map, zrange_length. lia.
    + rewrite up_whole, up_result. f_equal. symmetry. apply fill_contents.
      rewrite allocUnsafe_length, length_map, zrange_length. lia.
Qed.

(* ================================================================== *)
(** * Further properties of the code                                   *)
(* ================================================================== *)

(** X1.  Upsampling and then downsampling gives back the input, byte for
    byte, without its odd trailing byte if it has one: whatever the
    allocated buffers held, [resample24kHzTo8kHz (resample8kHzTo24kHz b)]
    is the whole-sample part of [b]. *)
Theorem X1_down_after_up_is_identity (garbage garbage' : nat -> byte)
    (inputBuffer : Buffer) :
  exists up : Buffer,
    resample8kHzTo24kHz garbage inputBuffer = Ok up /\
    resample24kHzTo8kHz garbage' up = Ok (whole_samples inputBuffer).
Proof.
  eexists. split; [apply up_result|].
  set (K := len inputBuffer / 2).
  assert (HK : 0 <= K).
  { subst K. pose proof (len_nonneg inputBuffer). apply Z.div_pos; lia. }
  assert (Hc : up_count inputBuffer = 3 * K) by (unfold up_count; fold K; lia).
  set (up := flat_map encode16
               (map (up_val inputBuffer)
                  (zrange 0 (Z.to_nat (up_count inputBuffer))))).
  assert (Hs : samples up =
               map (up_val inputBuffer) (zrange 0 (Z.to_nat (3 * K)))).
  { unfold up. rewrite samples_encoded, Hc; [reflexivity|].
    apply Forall_map_range. intros i. apply up_val_range. }
  assert (Hl : len up = 2 * (3 * K)).
  { unfold up, len. rewrite encoded_length, length_map, zrange_length. lia. }
  assert (Hd : down_count up = K).
  { unfold down_count. rewrite Hl.
    rewrite (Z.mul_comm 2), Z.div_mul, (Z.mul_comm 3), Z.div_mul by lia.
    reflexivity. }
  rewrite down_result, Hd. f_equal.
  rewrite <- encode_samples. f_equal.
  assert (HKl : Z.to_nat K = List.length (samples inputBuffer)).
  { apply Nat2Z.inj. rewrite Z2Nat.id by exact HK.
    pose proof (samples_len inputBuffer) as H. unfold len in H at 1.
    now rewrite H. }
  rewrite HKl. rewrite <- (map_nth_zrange (samples inputBuffer) 0) at 2.
  apply map_ext_in. intros i Hi. apply zrange_In in Hi.
  rewrite <- HKl, Z2Nat.id in Hi by exact HK.
  unfold down_val. rewrite Hs.
  rewrite (nth_indep _ 0 (up_val inputBuffer 0))
    by (rewrite length_map, zrange_length; lia).
  rewrite map_nth, zrange_nth by lia.
  rewrite Z2Nat.id, Z.add_0_l, Z.sub_0_r, (Z.mul_comm i 3) by lia.
  apply up_val_on_grid. fold K. lia.
Qed.

Import More.

(** X2.  The upsampler never overshoots: inside a complete interval the
    output sample lies between the two input samples it interpolates, so
    the clamp to the 16-bit range never changes a value; and every output
    sample, held ones included, lies between two samples of the input. *)
Theorem X2_upsample_stays_between_inputs (garbage : nat -> byte)
    (inputBuffer : Buffer) :
  let xs := samples inputBuffer in
  let K := len inputBuffer / 2 in
  exists out : Buffer,
    resample8kHzTo24kHz garbage inputBuffer = Ok out /\
    Forall (fun p =>
              between_neighbours xs p (nth (Z.to_nat p) (samples out) 0) /\
              clamp16 (Math_round (interpolation xs p)) =
                Math_round (interpolation xs p))
      (zrange 0 (Z.to_nat (3 * (K - 1)))) /\
    Forall (within_input xs) (samples out).
Proof.
  intros xs K.
  assert (HK : 0 <= K).
  { subst K. pose proof (len_nonneg inputBuffer). apply Z.div_pos; lia. }
  assert (HKl : len xs = K) by apply samples_len.
  eexists. split; [apply up_result|].
  assert (Hs : samples (flat_map encode16
                 (map (up_val inputBuffer)
                    (zrange 0 (Z.to_nat (up_count inputBuffer))))) =
               map (upsample_at xs) (zrange 0 (Z.to_nat (3 * K)))).
  { rewrite samples_encoded.
    - unfold up_count. fold K. rewrite (Z.mul_comm 3). apply map_ext.
      intros i. apply up_val_spec.
    - apply Forall_map_range. intros i. apply up_val_range. }
  rewrite Hs.
  assert (Hin : forall j, 0 <= j < K -> In (nth (Z.to_nat j) xs 0) xs).
  { intros j Hj. apply nth_In. unfold len in HKl. lia. }
  assert (Hinner : forall p, 0 <= p -> p / 3 + 1 < K ->
    upsample_at xs p = Math_round (interpolation xs p) /\
    between_neighbours xs p (upsample_at xs p)).
  { intros p Hp Hj. unfold upsample_at, between_neighbours. rewrite HKl.
    replace (p / 3 + 1 <? K) with true by (symmetry; apply Z.ltb_lt; lia).
    rewrite Math_round_interpolation.
    pose proof (rounding_between (nth (Z.to_nat (p / 3)) xs 0)
                  (nth (Z.to_nat (p / 3 + 1)) xs 0) (p mod 3)
                  (Z.mod_pos_bound p 3 ltac:(lia))) as Hv.
    pose proof (samples_nth_range inputBuffer (Z.to_nat (p / 3))) as Ra.
    pose proof (samples_nth_range inputBuffer (Z.to_nat (p / 3 + 1))) as Rb.
    fold xs in Ra, Rb.
    set (a := nth (Z.to_nat (p / 3)) xs 0) in *.
    set (b := nth (Z.to_nat (p / 3 + 1)) xs 0) in *.
    set (v := (6 * a + 2 * (b - a) * (p mod 3) + 3) / 6) in *.
    assert (Hid : clamp16 v = v) by (apply clamp16_id; lia).
    rewrite Hid in *. split; [reflexivity | exact Hv]. }
  split.
  - apply Forall_forall. intros p Hp. apply zrange_In in Hp.
    rewrite Z2Nat.id in Hp by lia.
    assert (Hj : 0 <= p / 3 < K - 1).
    { split; [apply Z.div_pos; lia | apply Z.div_lt_upper_bound; lia]. }
    rewrite (nth_indep _ 0 (upsample_at xs 0))
      by (rewrite length_map, zrange_length; lia).
    rewrite map_nth, zrange_nth by lia. rewrite Z2Nat.id, Z.add_0_l by lia.
    destruct (Hinner p ltac:(lia) ltac:(lia)) as (E & Hb).
    split; [exact Hb|]. rewrite <- E. unfold upsample_at. rewrite HKl.
    replace (p / 3 + 1 <? K) with true by (symmetry; apply Z.ltb_lt; lia).
    rewrite clamp16_id; [reflexivity | apply clamp16_range].
  - apply Forall_forall. intros o Ho. apply in_map_iff in Ho.
    destruct Ho as (p & <- & Hp). apply zrange_In in Hp.
    rewrite Z2Nat.id in Hp by lia.
    assert (Hj : 0 <= p / 3 < K).
    { split; [apply Z.div_pos; lia | apply Z.div_lt_upper_bound; lia]. }
    destruct (Z_lt_le_dec (p / 3 + 1) K) as [Hlt|Hge].
    + destruct (Hinner p ltac:(lia) Hlt) as (_ & Hb).
      unfold between_neighbours in Hb. cbv zeta in Hb.
      exists (Z.min (nth (Z.to_nat (p / 3)) xs 0) (nth (Z.to_nat (p / 3 + 1)) xs 0)),
             (Z.max (nth (Z.to_nat (p / 3)) xs 0) (nth (Z.to_nat (p / 3 + 1)) xs 0)).
      split; [|split; [|exact Hb]].
      * destruct (Z.min_spec (nth (Z.to_nat (p / 3)) xs 0)
                    (nth (Z.to_nat (p / 3 + 1)) xs 0)) as [[_ ->]|[_ ->]];
          apply Hin; lia.
      * destruct (Z.max_spec (nth (Z.to_nat (p / 3)) xs 0)
                    (nth (Z.to_nat (p / 3 + 1)) xs 0)) as [[_ ->]|[_ ->]];
          apply Hin; lia.
    + unfold upsample_at. rewrite HKl.
      replace (p / 3 + 1 <? K) with false by (symmetry; apply Z.ltb_ge; lia).
      exists (nth (Z.to_nat (K - 1)) xs 0), (nth (Z.to_nat (K - 1)) xs 0).
      split; [apply Hin; lia|]. split; [apply Hin; lia | lia].
Qed.

(** X3.  Downsampling composes over chunks cut at a group boundary: when
    the first chunk has a whole number of groups of three samples (its
    length is a multiple of 6 bytes), downsampling the concatenation is
    downsampling each chunk and concatenating. *)
Theorem X3_downsample_of_concatenation (garbage : nat -> byte) (a b : Buffer) :
  len a mod 6 = 0 ->
  exists oa ob : Buffer,
    resample24kHzTo8kHz garbage a = Ok oa /\
    resample24kHzTo8kHz garbage b = Ok ob /\
    resample24kHzTo8kHz garbage (a ++ b) = Ok (oa ++ ob).
Proof.
  intros H6. do 2 eexists.
  split; [apply down_result|]. split; [apply down_result|].
  rewrite down_result. f_equal.
  destruct (down_val_app a b H6) as (Hc & Hl & Hr).
  assert (Ha : 0 <= down_count a).
  { unfold down_count. pose proof (len_nonneg a).
    apply Z.div_pos; [apply Z.div_pos|]; lia. }
  assert (Hb : 0 <= down_count b).
  { unfold down_count. pose proof (len_nonneg b).
    apply Z.div_pos; [apply Z.div_pos|]; lia. }
  rewrite Hc, Z2Nat.inj_add, zrange_app, map_app, flat_map_app by lia.
  f_equal; f_equal.
  - apply map_ext_in. intros i Hi. apply zrange_In in Hi. apply Hl. lia.
  - rewrite Z2Nat.id by lia. rewrite zrange_shift, map_map.
    apply map_ext_in. intros i Hi. apply zrange_In in Hi. apply Hr. lia.
Qed.

Lemma X3_chunks_witness :
  resample24kHzTo8kHz unspecified (delta_a ++ delta_b) = Ok (frame_a ++ frame_b).
Proof.
  destruct (X3_downsample_of_concatenation unspecified delta_a delta_b eq_refl)
    as (oa & ob & Ha & Hb & Hab).
  rewrite Hab. injection Ha as <-. injection Hb as <-. reflexivity.
Defined.

(** X4.  Upsampling chunk by chunk differs from upsampling the whole
    stream only in the last two samples of a chunk: for a first chunk of
    [Ka >= 1] whole samples, the upsampled concatenation starts with the
    first [3 Ka - 2] samples of the upsampled first chunk and, from
    sample [3 Ka] on, is the upsampled second chunk. *)
Theorem X4_upsample_of_concatenation (garbage : nat -> byte) (a b : Buffer) :
  len a mod 2 = 0 ->
  2 <= len a ->
  let Ka := len a / 2 in
  exists ua ub uab : Buffer,
    resample8kHzTo24kHz garbage a = Ok ua /\
    resample8kHzTo24kHz garbage b = Ok ub /\
    resample8kHzTo24kHz garbage (a ++ b) = Ok uab /\
    firstn (Z.to_nat (3 * Ka - 2)) (samples uab) =
      firstn (Z.to_nat (3 * Ka - 2)) (samples ua) /\
    skipn (Z.to_nat (3 * Ka)) (samples uab) = samples ub.
Proof.
  intros H2 Hl Ka.
  destruct (up_samples garbage a) as (ua & Hua & Hsa).
  destruct (up_samples garbage b) as (ub & Hub & Hsb).
  destruct (up_samples garbage (a ++ b)) as (uab & Huab & Hsab).
  exists ua, ub, uab. split; [exact Hua|]. split; [exact Hub|].
  split; [exact Huab|].
  set (Kb := len b / 2).
  pose proof (len_nonneg b) as Hb.
  assert (HKa : 1 <= Ka) by (subst Ka; apply Z.div_le_lower_bound; lia).
  assert (HKb : 0 <= Kb) by (subst Kb; apply Z.div_pos; lia).
  assert (Hla : len a = 2 * Ka).
  { subst Ka. pose proof (Z.div_mod (len a) 2 ltac:(lia)). lia. }
  assert (HK : len (a ++ b) / 2 = Ka + Kb).
  { rewrite len_app, Hla.
    replace (2 * Ka + len b) with (len b + Ka * 2) by lia.
    rewrite Z.div_add by lia. subst Kb. lia. }
  assert (Hs : samples (a ++ b) = samples a ++ samples b)
    by (apply samples_app, even_of_mod, H2).
  assert (Hlsa : len (samples a) = Ka) by apply samples_len.
  assert (Hlsb : len (samples b) = Kb) by apply samples_len.
  rewrite Hsab, Hsa, Hsb, HK, Hs. fold Ka Kb. split.
  - rewrite !firstn_map.
    replace (Z.to_nat (3 * (Ka + Kb)))
      with (Z.to_nat (3 * Ka - 2) + Z.to_nat (3 * Kb + 2))%nat by lia.
    replace (Z.to_nat (3 * Ka))
      with (Z.to_nat (3 * Ka - 2) + 2)%nat by lia.
    rewrite !firstn_zrange.
    apply map_ext_in. intros p Hp. apply zrange_In in Hp.
    apply upsample_at_app_left; [apply samples_range | lia].
  - rewrite skipn_map.
    replace (Z.to_nat (3 * (Ka + Kb)))
      with (Z.to_nat (3 * Ka) + Z.to_nat (3 * Kb))%nat by lia.
    rewrite skipn_zrange, Z.add_0_l, Z2Nat.id by lia.
    rewrite <- (Z.add_0_l (3 * Ka)), zrange_shift, map_map.
    apply map_ext_in. intros q Hq. apply zrange_In in Hq.
    rewrite <- Hlsa, (Z.add_comm q). apply upsample_at_app_right. lia.
Qed.

Lemma X4_chunks_witness :
  exists uab,
    resample8kHzTo24kHz unspecified (frame_in ++ frame_a) = Ok uab /\
    firstn 4 (samples uab) = [16; 21; 27; 32] /\
    skipn 6 (samples uab) = [1; 1; 1].
Proof.
  destruct (X4_upsample_of_concatenation unspecified frame_in frame_a
              eq_refl ltac:(discriminate))
    as (ua & ub & uab & Ha & Hb & Hab & Hf & Hs).
  exists uab. split; [exact Hab|].
  injection Ha as <-. injection Hb as <-. split.
  - etransitivity; [exact Hf | reflexivity].
  - etransitivity; [exact Hs | reflexivity].
Defined.

(** X5.  A frame from the media socket whose session is ready is
    upsampled and forwarded: for a frame of at least one whole sample
    the handler sends, after the actions of the attachment, exactly one
    [input_audio_buffer.append] on the session's OpenAI socket, carrying
    the upsampled frame of [6 * floor (len / 2)] bytes, if that socket is
    open, and nothing if it is not; a frame of a single byte is dropped. *)
Theorem X5_frame_forwarded_when_ready (w w1 : World) (ws : TelnyxWs)
    (audioBuffer : Buffer) (sent : list Action) (c : JsStr) (s : Session) :
  bind_media ws w = (w1, sent, Some c) ->
  truthy c = true ->
  session_of w c = Some s ->
  sessionReady s = true ->
  (2 <= len audioBuffer ->
   exists up,
     resample8kHzTo24kHz unspecified audioBuffer = Ok up /\
     len up = 6 * (len audioBuffer / 2) /\
     step w (TelnyxMessage ws (Binary audioBuffer)) =
       (w1, sent ++
            if is_open (get Nat.eqb (openaiState w) (openaiWs s))
            then [SendOpenAI (openaiWs s) (input_audio_buffer_append up)]
            else [])) /\
  (len audioBuffer = 1 ->
   step w (TelnyxMessage ws (Binary audioBuffer)) = (w1, sent)).
Proof.
  intros Hb Ht Hs Hr.
  destruct (bind_media_spec ws w w1 sent (Some c) Hb) as (Ho & Hsess & _).
  specialize (Hsess c). rewrite Hs in Hsess.
  destruct Hsess as (s1 & Hs1 & Hm).
  assert (Hr1 : sessionReady s1 = true /\ openaiWs s1 = openaiWs s).
  { destruct Hm as [-> | [-> | ->]]; split; (exact Hr || reflexivity). }
  destruct Hr1 as [Hr1 Hws].
  split.
  - intros Hl.
    destruct (forward_media_ready c audioBuffer w1 s1 Ht Hs1 Hr1 Hl)
      as (up & Hup & Hlen & Hf).
    exists up. split; [exact Hup|]. split; [exact Hlen|].
    cbn [step]. unfold onTelnyxMessage.
    replace (len audioBuffer =? 0) with false by (symmetry; apply Z.eqb_neq; lia).
    rewrite Hb, Hf, Ho, Hws. reflexivity.
  - intros Hl. cbn [step]. unfold onTelnyxMessage.
    replace (len audioBuffer =? 0) with false by (symmetry; apply Z.eqb_neq; lia).
    rewrite Hb. unfold forward_media. rewrite Ht, Hs1, Hr1. cbn [negb].
    destruct audioBuffer as [|x [|y t]]; try discriminate Hl.
    + cbn. now rewrite app_nil_r.
    + unfold len in Hl. cbn in Hl. lia.
Qed.

Lemma X5_forward_witness :
  exists up,
    len up = 6 * (len frame_in / 2) /\
    step streaming_world (TelnyxMessage 7 (Binary frame_in)) =
      (streaming_world, [SendOpenAI 0 (input_audio_buffer_append up)]).
Proof.
  destruct (X5_frame_forwarded_when_ready streaming_world streaming_world 7
              frame_in [] call_1
              (mkSession 0 call_1 true (Some 7%nat) false None false [])
              eq_refl eq_refl eq_refl eq_refl) as (H & _).
  destruct (H ltac:(discriminate)) as (up & _ & Hlen & Hstep).
  exists up. split; [exact Hlen | exact Hstep].
Defined.

(** X6.  An audio chunk from OpenAI of fewer than three samples (fewer
    than 6 bytes) vanishes: it is neither sent nor queued and the state
    is unchanged.  A longer chunk hands exactly one frame of
    [2 * floor (len / 6)] bytes to [sendAudioToTelnyx]. *)
Theorem X6_short_chunks_vanish (w : World) (callId : JsStr) (ws : OpenAIWs)
    (audioBuffer : Buffer) :
  let delta := response_audio_delta (Some audioBuffer) in
  (len audioBuffer < 6 ->
   frame_of delta = [] /\ step w (OpenAIMessage callId ws delta) = (w, [])) /\
  (6 <= len audioBuffer ->
   exists frame,
     frame_of delta = [frame] /\
     len frame = 2 * (len audioBuffer / 6) /\
     step w (OpenAIMessage callId ws delta) = sendAudioToTelnyx callId frame w).
Proof.
  intros delta. subst delta. split.
  - intros Hl. cbn [step onOpenAIMessage frame_of].
    rewrite (down_short unspecified audioBuffer Hl). split; reflexivity.
  - intros Hl. destruct (down_length unspecified audioBuffer) as (out & Ho & Hlen).
    assert (Hq : 1 <= len audioBuffer / 6) by (apply Z.div_le_lower_bound; lia).
    exists out. cbn [step onOpenAIMessage frame_of]. rewrite Ho.
    replace (0 <? len out) with true by (symmetry; apply Z.ltb_lt; lia).
    repeat split. exact Hlen.
Qed.

Lemma X6_chunks_witness :
  step created_world
    (OpenAIMessage call_1 0 (response_audio_delta (Some [x01; x00; x02; x00])))
    = (created_world, []) /\
  exists frame,
    frame_of (response_audio_delta (Some delta_a)) = [frame] /\
    len frame = 2 * (len delta_a / 6).
Proof.
  split.
  - apply (X6_short_chunks_vanish created_world call_1 0 [x01; x00; x02; x00]).
    reflexivity.
  - destruct (X6_short_chunks_vanish created_world call_1 0 delta_a)
      as (_ & H).
    destruct (H ltac:(discriminate)) as (frame & Hf & Hl & _).
    exists frame. split; [exact Hf | exact Hl].
Defined.

(** X7.  No frame is lost or duplicated between OpenAI and the caller
    while the session exists: after any sequence of messages from
    OpenAI, the frames relayed to the media socket together with the
    frames left in the queue are, up to order, the frames that were
    queued before together with the frames the messages produced. *)
Theorem X7_frames_are_conserved (w : World) (callId : JsStr) (ws : OpenAIWs)
    (ms : list ServerMsg) (session : Session) :
  session_of w callId = Some session ->
  let after := run w (map (OpenAIMessage callId ws) ms) in
  exists session',
    session_of (fst after) callId = Some session' /\
    Permutation (relayed (snd after) ++ audioQueue session')
                (audioQueue session ++ produced ms).
Proof. intros Hs. exact (run_messages_conserve callId ws ms w session Hs). Qed.

Lemma X7_conserved_witness :
  exists session',
    session_of (fst (run created_world
                       (map (OpenAIMessage call_1 0)
                            [response_audio_delta (Some delta_a);
                             response_audio_delta (Some delta_b)]))) call_1
      = Some session' /\
    Permutation
      (relayed (snd (run created_world
                       (map (OpenAIMessage call_1 0)
                            [response_audio_delta (Some delta_a);
                             response_audio_delta (Some delta_b)])))
         ++ audioQueue session')
      (audioQueue created_session
         ++ produced [response_audio_delta (Some delta_a);
                      response_audio_delta (Some delta_b)]).
Proof.
  exact (X7_frames_are_conserved created_world call_1 0
           [response_audio_delta (Some delta_a);
            response_audio_delta (Some delta_b)] created_session eq_refl).
Defined.

(** X8.  When the media socket is registered under the call id of the
    session, the caller hears the frames in the order OpenAI produced
    them: the frames that arrived before the first media frame are
    queued and flushed in order when the socket attaches, and every
    later frame is relayed at once, behind them. *)
Theorem X8_audio_arrives_in_order (w : World) (callId : JsStr) (ws : OpenAIWs)
    (t : TelnyxWs) (session : Session) (b : Buffer)
    (before after : list ServerMsg) :
  truthy callId = true ->
  session_of w callId = Some session ->
  telnyxWs session = None ->
  get Nat.eqb (wsCallMap w) t = Some callId ->
  is_open (get Nat.eqb (telnyxState w) t) = true ->
  len b <> 0 ->
  let trace :=
    map (OpenAIMessage callId ws) before
      ++ TelnyxMessage t (Binary b) :: map (OpenAIMessage callId ws) after in
  relayed (snd (run w trace)) =
    audioQueue session ++ produced before ++ produced after /\
  exists session',
    session_of (fst (run w trace)) callId = Some session' /\
    audioQueue session' = [].
Proof.
  intros Ht Hs Hn Hm Ho Hl trace. subst trace.
  assert (Hr : relay_open w session = None) by (unfold relay_open; now rewrite Hn).
  destruct (run_messages_queued callId ws before w session Hs Hr)
    as (s1 & Hs1 & Ht1 & Hst1 & Hm1 & Hrel1 & Hq1).
  rewrite run_app, run_cons. cbn [fst snd].
  set (w1 := fst (run w (map (OpenAIMessage callId ws) before))) in *.
  assert (Hn1 : telnyxWs s1 = None) by congruence.
  assert (Hm1' : get Nat.eqb (wsCallMap w1) t = Some callId) by (now rewrite Hm1).
  assert (Ho1 : is_open (get Nat.eqb (telnyxState w1) t) = true)
    by (now rewrite Hst1).
  destruct (media_attach_flushes w1 t callId s1 b Ht Hm1' Hs1 Hn1 Ho1 Hl)
    as (Hs2 & Hst2 & Hrel2).
  set (w2 := fst (step w1 (TelnyxMessage t (Binary b)))) in *.
  assert (Hr2 : relay_open w2 (set_audioQueue [] (set_telnyxWs (Some t) s1))
                = Some t).
  { unfold relay_open. cbn [telnyxWs set_audioQueue set_telnyxWs].
    now rewrite Hst2, Ho1. }
  destruct (run_messages_steady callId ws after w2 _ t Hs2 Hr2 eq_refl)
    as (sN & HsN & _ & HrelN & HqN).
  split.
  - rewrite !relayed_app, Hrel1, Hrel2, HrelN, Hq1. cbn [app].
    now rewrite <- app_assoc.
  - exists sN. split; assumption.
Qed.

Lemma X8_order_witness :
  relayed (snd (run connected_world
                  (map (OpenAIMessage call_1 0)
                       [response_audio_delta (Some delta_a)]
                     ++ TelnyxMessage 7 (Binary frame_in)
                     :: map (OpenAIMessage call_1 0)
                          [response_audio_delta (Some delta_b)])))
  = [frame_a; frame_b].
Proof.
  exact (proj1 (X8_audio_arrives_in_order connected_world call_1 0 7
                  created_session frame_in
                  [response_audio_delta (Some delta_a)]
                  [response_audio_delta (Some delta_b)]
                  eq_refl eq_refl eq_refl eq_refl eq_refl
                  ltac:(discriminate))).
Defined.

(** X9.  In every state the server can reach, the socket held by a
    session was created earlier (its number is below the next one to be
    handed out), and two registry entries never hold the same socket to
    OpenAI. *)
Theorem X9_sessions_hold_distinct_sockets (w : World) :
  reachable w -> sockets_fresh w.
Proof.
  intros [trace <-]. apply sockets_fresh_run, sockets_fresh_initial.
Qed.

Lemma X9_distinct_witness : sockets_fresh streaming_world.
Proof.
  apply (X9_sessions_hold_distinct_sockets streaming_world).
  exists streaming_trace. reflexivity.
Defined.

(** X10.  When a session is created again for a call that already has
    one, the old socket is not closed, the entry is overwritten with a
    session on a new socket, and the later close of the old socket
    leaves the new entry in place. *)
Theorem X10_stale_close_spares_new_session (w : World) (callId cc : JsStr)
    (old : Session) :
  reachable w ->
  session_of w callId = Some old ->
  let recreated := step w (AnswerSettled callId cc true) in
  snd recreated = [ConnectOpenAI (nextWs w)] /\
  session_of (fst recreated) callId =
    Some (mkSession (nextWs w) cc false None false None false []) /\
  session_of (fst (step (fst recreated) (OpenAIClose callId (openaiWs old))))
    callId = session_of (fst recreated) callId.
Proof.
  intros [trace <-] Hs recreated. subst recreated.
  set (w := fst (run initial trace)) in *.
  assert (Hf : sockets_fresh w)
    by (apply sockets_fresh_run, sockets_fresh_initial).
  cbn [step]. split; [reflexivity|].
  assert (Hnew : session_of (fst (startOpenAIRealtimeSession callId cc w)) callId
                 = Some (mkSession (nextWs w) cc false None false None false [])).
  { now rewrite session_of_created, JsStr_eqb_refl. }
  split; [exact Hnew|].
  destruct (onOpenAIClose_spec (fst (startOpenAIRealtimeSession callId cc w))
              callId (openaiWs old)) as (w1 & E & _ & _ & _ & H).
  rewrite E. cbn [fst]. rewrite H, Hnew. cbn [openaiWs].
  destruct Hf as [Hlt _]. specialize (Hlt callId old Hs).
  replace (Nat.eqb (nextWs w) (openaiWs old)) with false; [reflexivity|].
  symmetry. apply Nat.eqb_neq. lia.
Qed.

Lemma X10_stale_close_witness :
  session_of
    (fst (step (fst (step created_world (AnswerSettled call_1 call_1 true)))
            (OpenAIClose call_1 0))) call_1
  = session_of (fst (step created_world (AnswerSettled call_1 call_1 true)))
      call_1.
Proof.
  apply (X10_stale_close_spares_new_session created_world call_1 call_1
           created_session).
  - exists created_trace. reflexivity.
  - reflexivity.
Defined.

(** X11.  Readiness is only lost by creating the session again.  Along
    any events that do not create the session of the call: a call
    without session stays without session, so a session that has been
    removed does not come back; and a session that is ready either has
    been removed or is still ready. *)
Theorem X11_readiness_is_kept (w : World) (callId : JsStr) (trace : list Event) :
  forallb (fun e => negb (recreates callId e)) trace = true ->
  (session_of w callId = None ->
   session_of (fst (run w trace)) callId = None) /\
  (forall session,
     session_of w callId = Some session -> sessionReady session = true ->
     session_of (fst (run w trace)) callId = None \/
     exists session',
       session_of (fst (run w trace)) callId = Some session' /\
       sessionReady session' = true).
Proof.
  intros Hq. split.
  - now apply absent_run.
  - intros session Hs Hr.
    assert (Hw : ready_if_present w callId)
      by (unfold ready_if_present; now rewrite Hs).
    pose proof (ready_if_present_run callId trace w Hq Hw) as H.
    unfold ready_if_present in H.
    destruct (session_of (fst (run w trace)) callId) as [s1|]; [|now left].
    right. exists s1. split; [reflexivity | exact H].
Qed.

Lemma X11_ready_witness :
  session_of
    (fst (run hung_up_world
            [Webhook "call.answered" (Some payload_1);
             OpenAIMessage call_1 0 session_updated;
             TelnyxMessage 7 (Binary frame_in)])) call_1 = None /\
  (session_of
     (fst (run ready_world
             [Webhook "call.answered" (Some payload_1);
              TelnyxConnection 7 call_1;
              OpenAIMessage call_1 0 (response_audio_delta (Some delta_a));
              TelnyxMessage 7 (Binary frame_in);
              TelnyxClose 7])) call_1 = None \/
   exists session',
     session_of
       (fst (run ready_world
               [Webhook "call.answered" (Some payload_1);
                TelnyxConnection 7 call_1;
                OpenAIMessage call_1 0 (response_audio_delta (Some delta_a));
                TelnyxMessage 7 (Binary frame_in);
                TelnyxClose 7])) call_1 = Some session' /\
     sessionReady session' = true).
Proof.
  split.
  - apply (X11_readiness_is_kept hung_up_world call_1); reflexivity.
  - apply (proj2 (X11_readiness_is_kept ready_world call_1
                    [Webhook "call.answered" (Some payload_1);
                     TelnyxConnection 7 call_1;
                     OpenAIMessage call_1 0 (response_audio_delta (Some delta_a));
                     TelnyxMessage 7 (Binary frame_in);
                     TelnyxClose 7] eq_refl)
             (mkSession 0 call_1 true None false None false []));
      reflexivity.
Defined.

(** X12.  Events for a call that has no session are ignored: a
    [call.answered] or hangup webhook, any message from OpenAI, and any
    media message from a socket registered under the call id change
    nothing and send nothing. *)
Theorem X12_events_without_session_are_ignored (w : World) (callId : JsStr) :
  session_of w callId = None ->
  (forall p, webhook_callId (Some p) = callId ->
     step w (Webhook "call.answered" (Some p)) = (w, [])) /\
  (forall event_type payload,
     is_hangup_type event_type = true -> webhook_callId payload = callId ->
     step w (Webhook event_type payload) = (w, [])) /\
  (forall ws m, step w (OpenAIMessage callId ws m) = (w, [])) /\
  (forall t data,
     truthy callId = true -> get Nat.eqb (wsCallMap w) t = Some callId ->
     step w (TelnyxMessage t data) = (w, [])).
Proof.
  intros Hs. repeat split.
  - intros p Hp.
    change (step w (Webhook "call.answered" (Some p)))
      with (handleCallAnswered (Some p) (webhook_callId (Some p)) w).
    unfold handleCallAnswered. now rewrite Hp, Hs.
  - intros et payload Ht Hp. unfold is_hangup_type in Ht.
    apply orb_prop in Ht.
    destruct Ht as [Ht | Ht]; apply String.eqb_eq in Ht; subst et;
      [change (step w (Webhook "call.hangup" payload))
         with (handleCallHangup (webhook_callId payload) w)
      |change (step w (Webhook "call.bridged" payload))
         with (handleCallHangup (webhook_callId payload) w)];
      rewrite Hp; now apply handleCallHangup_absent.
  - intros ws m. cbn [step].
    destruct m as [|item|[d|]| |]; cbn [onOpenAIMessage]; rewrite ?Hs;
      try reflexivity.
    destruct (resample24kHzTo8kHz unspecified d) as [out|]; [|reflexivity].
    destruct (0 <? len out); [|reflexivity].
    unfold sendAudioToTelnyx. now rewrite Hs.
  - intros t data Ht Hm. cbn [step]. unfold onTelnyxMessage.
    assert (Hb : bind_media t w = (w, [], Some callId)).
    { unfold bind_media. now rewrite Hm, Ht, Hs. }
    assert (Hf : forall b, forward_media callId b w = []).
    { intros b. unfold forward_media. now rewrite Ht, Hs. }
    destruct data as [b| |b]; try reflexivity;
      (destruct (len b =? 0); [reflexivity|]);
      rewrite Hb, Hf; reflexivity.
Qed.

Lemma X12_ignored_witness :
  step hung_up_world (OpenAIMessage call_1 0 (response_audio_delta (Some delta_a)))
    = (hung_up_world, []) /\
  step hung_up_world (TelnyxMessage 7 (Binary frame_in)) = (hung_up_world, []).
Proof.
  destruct (X12_events_without_session_are_ignored hung_up_world call_1 eq_refl)
    as (_ & _ & Hm & Ht).
  split; [apply Hm | apply Ht; reflexivity].
Defined.

(** X13.  A stream is only started for a session that is ready and is
    stored under the control id of the stream: in every reachable state,
    when a handler issues [streaming_start] for a non-empty control id,
    the registry holds, after the handler, a ready session under this
    id.  It is the id that the stream URL carries as [call_id]. *)
Theorem X13_stream_start_names_ready_session (w : World) (e : Event)
    (callControlId : JsStr) :
  reachable w ->
  In (StartMediaStream callControlId) (snd (step w e)) ->
  truthy callControlId = true ->
  exists session,
    session_of (fst (step w e)) callControlId = Some session /\
    sessionReady session = true.
Proof.
  intros [trace <-] Hin Ht.
  set (w := fst (run initial trace)) in *.
  assert (Hpc : pending_consistent w)
    by (apply pending_consistent_run, pending_consistent_initial).
  destruct (start_origin w e callControlId Hin)
    as [(p & session & -> & Hcc & Hs & Hr)
       |(c & ws & session & -> & Hs & Hp & Htp & Hcc)].
  - change (step w (Webhook "call.answered" (Some p)))
      with (handleCallAnswered (Some p) (webhook_callId (Some p)) w).
    unfold handleCallAnswered. rewrite Hs, Hr. cbn [fst].
    exists session. split; [|exact Hr].
    rewrite <- Hs. f_equal. subst callControlId.
    symmetry. apply js_or_truthy, Ht.
  - assert (Hc : callControlId = c)
      by (subst callControlId; exact (Hpc c session Hs Hp Htp)).
    subst c. cbn [step onOpenAIMessage]. rewrite Hs, Hp, Htp. cbn [andb fst].
    rewrite !session_of_mutate, JsStr_eqb_refl, Hs.
    eexists. split; reflexivity.
Qed.

Lemma X13_start_witness :
  exists session,
    session_of (fst (step ready_world (Webhook "call.answered" (Some payload_1))))
      call_1 = Some session /\
    sessionReady session = true.
Proof.
  apply (X13_stream_start_names_ready_session ready_world
           (Webhook "call.answered" (Some payload_1)) call_1).
  - exists ready_trace. reflexivity.
  - left. reflexivity.
  - reflexivity.
Defined.

Import Url.

(** X14.  The stream URL sent to Telnyx.  For a public domain given
    without scheme, or as an [http://] or [https://] URL, it is
    [wss://<host>/media-stream-ws?call_id=<id>]; without the variable
    (unset or empty) it is the [wss://localhost:<port>] one.  A domain
    that begins with [http] without being such a URL is passed on as it
    is, and the URL then has no scheme at all. *)
Theorem X14_stream_url (PORT callControlId : string) :
  let path := ("/media-stream-ws?call_id=" ++ callControlId)%string in
  (forall host,
     host <> EmptyString -> startsWith host "http" = false ->
     stream_url (Some host) PORT callControlId
       = ("wss://" ++ host ++ path)%string) /\
  (forall host,
     stream_url (Some ("http://" ++ host)%string) PORT callControlId
       = ("wss://" ++ host ++ path)%string) /\
  (forall host,
     stream_url (Some ("https://" ++ host)%string) PORT callControlId
       = ("wss://" ++ host ++ path)%string) /\
  (forall v,
     truthy v = false ->
     stream_url v PORT callControlId
       = ("wss://localhost:" ++ PORT ++ path)%string) /\
  (forall host,
     startsWith host "http" = true -> startsWith host "http://" = false ->
     contains "https://" host = false ->
     stream_url (Some host) PORT callControlId = (host ++ path)%string).
Proof.
  intros path. subst path. repeat split.
  - intros host Hne Hp. unfold stream_url.
    rewrite (env_or_set host _ Hne), Hp. cbn [negb].
    replace (startsWith ("https://" ++ host) "http://") with false
      by reflexivity.
    rewrite replace_prefix. reflexivity.
  - intros host. unfold stream_url.
    rewrite env_or_set by discriminate.
    replace (startsWith ("http://" ++ host) "http") with true
      by (symmetry; apply (prefix_app "http" ("://" ++ host))).
    cbn [negb].
    replace (startsWith ("http://" ++ host) "http://") with true
      by (symmetry; apply prefix_app).
    rewrite !replace_prefix. reflexivity.
  - intros host. unfold stream_url.
    rewrite env_or_set by discriminate.
    replace (startsWith ("https://" ++ host) "http") with true
      by (symmetry; apply (prefix_app "http" ("s://" ++ host))).
    cbn [negb].
    replace (startsWith ("https://" ++ host) "http://") with false
      by reflexivity.
    rewrite replace_prefix. reflexivity.
  - intros v Hv. unfold stream_url. rewrite (env_or_unset v _ Hv).
    change ("http://localhost:" ++ PORT)%string
      with ("http://" ++ ("localhost:" ++ PORT))%string.
    replace (startsWith ("http://" ++ ("localhost:" ++ PORT)) "http") with true
      by (symmetry; apply (prefix_app "http" ("://localhost:" ++ PORT))).
    cbn [negb].
    replace (startsWith ("http://" ++ ("localhost:" ++ PORT)) "http://")
      with true by (symmetry; apply prefix_app).
    rewrite !replace_prefix. reflexivity.
  - intros host Hp Hq Hc. unfold stream_url.
    assert (Hne : host <> EmptyString) by (intros ->; discriminate).
    rewrite (env_or_set host _ Hne), Hp. cbn [negb]. rewrite Hq.
    now rewrite replace_absent.
Qed.

Lemma X14_stream_url_witness :
  stream_url (Some "tavari.up.railway.app"%string) "3000" "v3:call-1"
    = "wss://tavari.up.railway.app/media-stream-ws?call_id=v3:call-1"%string /\
  stream_url None "3000" "v3:call-1"
    = "wss://localhost:3000/media-stream-ws?call_id=v3:call-1"%string /\
  stream_url (Some "httpbin.example"%string) "3000" "v3:call-1"
    = "httpbin.example/media-stream-ws?call_id=v3:call-1"%string.
Proof.
  destruct (X14_stream_url "3000" "v3:call-1") as (H1 & _ & _ & H4 & H5).
  split; [|split].
  - apply (H1 "tavari.up.railway.app"%string); [discriminate | reflexivity].
  - apply (H4 None). reflexivity.
  - apply (H5 "httpbin.example"%string); reflexivity.
Defined.

(** X15.  When the session of a call exists before both readiness
    signals, the stream is started exactly once, by the second signal.
    In a state where every deferred start carries the identifier of its
    own call (as in every state the handlers produce, see
    [pending_consistent_run]), take a session in the registry that is
    neither ready nor has a deferred start, under a non-empty call
    control identifier, and let [call.answered] and [session.updated]
    each arrive once, in either order, among any events that neither are
    these signals for this call nor create or remove its session.  Then
    [startMediaStream] is issued for the call exactly once over the
    whole run, by the handler of the signal that arrives second and not
    before: with [call.answered] first the start is deferred and issued
    when [session.updated] arrives; with [session.updated] first it is
    issued when [call.answered] arrives. *)
Theorem X15_second_signal_starts_stream (w : World) (session : Session)
    (p : Payload) (ws : OpenAIWs) (before between after : list Event) :
  let callId := call_control_id p in
  let answered := Webhook "call.answered" (Some p) in
  let ready := OpenAIMessage callId ws session_updated in
  pending_consistent w ->
  truthy callId = true ->
  session_of w callId = Some session ->
  sessionReady session = false ->
  pendingMediaStart session = false ->
  quiet callId before = true ->
  quiet callId between = true ->
  quiet callId after = true ->
  (let first := run w (before ++ [answered] ++ between) in
   let second := step (fst first) ready in
   starts callId (snd first) = 0%nat /\
   snd second = [SendOpenAI ws conversation_item_create; StartMediaStream callId] /\
   starts callId (snd (run (fst second) after)) = 0%nat /\
   starts callId
     (snd (run w ((before ++ [answered] ++ between) ++ [ready] ++ after))) = 1%nat)
  /\
  (let first := run w (before ++ [ready] ++ between) in
   let second := step (fst first) answered in
   starts callId (snd first) = 0%nat /\
   snd second = [StartMediaStream callId] /\
   starts callId (snd (run (fst second) after)) = 0%nat /\
   starts callId
     (snd (run w ((before ++ [ready] ++ between) ++ [answered] ++ after))) = 1%nat).
Proof.
  intros callId answered ready. subst ready answered callId.
  set (callId := call_control_id p).
  intros Hw Ht Hs Hr Hp Hq1 Hq2 Hq3.
  set (answered := Webhook "call.answered" (Some p)).
  set (ready := OpenAIMessage callId ws session_updated).
  split.
  - intros first second. subst first second.
    destruct (answered_first w session p before between Hw Ht Hs Hr Hp Hq1 Hq2)
      as (Hst & Hw1 & s1 & Hs1 & Hsig).
    fold callId answered in Hst, Hw1, Hs1, Hsig.
    set (w1 := fst (run w (before ++ [answered] ++ between))) in *.
    unfold signals in Hsig. injection Hsig as Hr1 Hp1 Hc1.
    assert (E : step w1 ready =
                (mutate (mutate w1 callId (set_sessionReady true)) callId
                   (set_pending false None),
                 [SendOpenAI ws conversation_item_create; StartMediaStream callId])).
    { unfold ready. rewrite (ready_step w1 callId ws s1 Hs1), Hp1, Hc1, Ht.
      reflexivity. }
    assert (Hw2 : pending_consistent (fst (step w1 ready)))
      by now apply pending_consistent_step.
    destruct (quiet_run after _ callId Hw2 Ht Hq3) as (_ & Hst3).
    split; [exact Hst|]. split; [now rewrite E|]. split; [exact Hst3|].
    rewrite run_app. cbn [snd fst]. fold w1.
    rewrite starts_app, Hst.
    change ([ready] ++ after) with (ready :: after). rewrite run_cons.
    cbn [snd]. rewrite starts_app, Hst3, E. cbn [snd].
    unfold starts. simpl. now rewrite JsStr_eqb_refl.
  - intros first second. subst first second.
    destruct (ready_first w session callId ws before between Hw Ht Hs Hr Hp Hq1 Hq2)
      as (Hst & Hw1 & s1 & Hs1 & Hr1 & Hp1).
    fold ready in Hst, Hw1, Hs1.
    set (w1 := fst (run w (before ++ [ready] ++ between))) in *.
    assert (E : step w1 answered = (w1, [StartMediaStream callId])).
    { unfold answered. rewrite (answered_step w1 p s1 Ht Hs1), Hr1. reflexivity. }
    assert (Hw2 : pending_consistent (fst (step w1 answered)))
      by now apply pending_consistent_step.
    destruct (quiet_run after _ callId Hw2 Ht Hq3) as (_ & Hst3).
    split; [exact Hst|]. split; [now rewrite E|]. split; [exact Hst3|].
    rewrite run_app. cbn [snd fst]. fold w1.
    rewrite starts_app, Hst.
    change ([answered] ++ after) with (answered :: after). rewrite run_cons.
    cbn [snd]. rewrite starts_app, Hst3, E. cbn [snd].
    now rewrite starts_one.
Qed.

Lemma X15_both_orders_witness :
  starts call_1
    (snd (run created_world
            (([] ++ [Webhook "call.answered" (Some payload_1)] ++ other_events)
             ++ [OpenAIMessage call_1 0 session_updated] ++ media_events)))
    = 1%nat /\
  starts call_1
    (snd (run created_world
            (([] ++ [OpenAIMessage call_1 0 session_updated] ++ other_events)
             ++ [Webhook "call.answered" (Some payload_1)] ++ media_events)))
    = 1%nat.
Proof.
  pose proof (X15_second_signal_starts_stream created_world created_session
                payload_1 0 [] other_events media_events
                (pending_consistent_run created_trace initial
                   pending_consistent_initial)
                eq_refl eq_refl eq_refl eq_refl eq_refl eq_refl eq_refl)
    as [(_ & _ & _ & H1) (_ & _ & _ & H2)].
  split; [exact H1 | exact H2].
Defined.
